(** * The scanner character device: a shallow embedding and its properties

    The development follows [hw5/NewScanner.c] (the shared-buffer driver),
    [hw5/Scanner.c] (the earlier per-handle driver) and the user program
    [hw5/TestScanner.c].

    Kernel memory is modelled in the block/offset style: [kmalloc] hands out
    a block that was never used before, [kfree] removes it, and a pointer is
    a block together with an offset.  A C operation the language gives no
    meaning to (reading through a null or released pointer, ordering two
    pointers that do not point into the same object) makes the driver
    function return [None]. *)

From Stdlib Require Import ZArith Ascii String List Lia Bool.
From stdpp Require Import base option list gmap strings.

Open Scope Z_scope.

(** ** Kernel heap *)

Module Mem.

Definition block := nat.

Inductive ptr : Type :=
  | NULL
  | Ptr (b : block) (off : nat).

#[global] Instance ptr_eq_dec : EqDecision ptr.
Proof. solve_decision. Defined.

Definition NUL : ascii := Ascii.zero.

(** [cells] holds the live blocks; every block ever handed out is below
    [next_block], so a released block is never handed out again. *)
Record heap : Type := Heap {
  cells : gmap block (list ascii);
  next_block : block
}.

Definition empty_heap : heap := Heap ∅ 0%nat.

(** [kmalloc(size, GFP_KERNEL)]: the allocator may fail ([ok = false]), in
    which case it returns [NULL].  The bytes of a new block are unspecified
    in C; the driver overwrites every byte of a block before reading it, so
    the filler chosen here is never observed. *)
Definition kmalloc (ok : bool) (size : Z) (h : heap) : ptr * heap :=
  if ok
  then (Ptr (next_block h) 0,
        Heap (<[next_block h := replicate (Z.to_nat size) NUL]> (cells h))
             (S (next_block h)))
  else (NULL, h).

(** [kfree(p)]: nothing for [NULL]; otherwise [p] must be the start of a
    live block. *)
Definition kfree (p : ptr) (h : heap) : option heap :=
  match p with
  | NULL => Some h
  | Ptr b off =>
      match cells h !! b, off with
      | Some _, O => Some (Heap (delete b (cells h)) (next_block h))
      | _, _ => None
      end
  end.

(** Write [bytes] at [p]; undefined outside a live block. *)
Definition store (h : heap) (p : ptr) (bytes : list ascii) : option heap :=
  match p with
  | NULL => None
  | Ptr b off =>
      match cells h !! b with
      | Some l =>
          if (off + length bytes <=? length l)%nat
          then Some (Heap (<[b := take off l ++ bytes
                                   ++ drop (off + length bytes) l]> (cells h))
                          (next_block h))
          else None
      | None => None
      end
  end.

(** Pointer arithmetic [p + n]. *)
Definition padd (p : ptr) (n : nat) : ptr :=
  match p with
  | NULL => NULL
  | Ptr b off => Ptr b (off + n)
  end.

End Mem.

(** ** C strings *)

Module CString.
Import Mem.

(** The bytes of [l] before its first NUL; [None] when [l] holds no NUL
    (the string would run off its block). *)
Fixpoint until_nul (l : list ascii) : option (list ascii) :=
  match l with
  | [] => None
  | c :: l' =>
      if Ascii.eqb c NUL then Some []
      else match until_nul l' with
           | Some s => Some (c :: s)
           | None => None
           end
  end.

(** The NUL-terminated string that starts at [p]. *)
Definition cstring (h : heap) (p : ptr) : option (list ascii) :=
  match p with
  | NULL => None
  | Ptr b off =>
      match cells h !! b with
      | Some l => until_nul (drop off l)
      | None => None
      end
  end.

Definition strlen (h : heap) (p : ptr) : option nat :=
  length <$> cstring h p.

(** [strchr(s, c)] on the characters [s] of a string (terminator left out):
    the index of the first occurrence of [c], where the terminator counts
    as part of the string, or [None] for the C null result. *)
Fixpoint strchr_from (i : nat) (s : list ascii) (c : ascii) : option nat :=
  match s with
  | [] => if Ascii.eqb c NUL then Some i else None
  | x :: s' => if Ascii.eqb x c then Some i else strchr_from (S i) s' c
  end.

Definition strchr (s : list ascii) (c : ascii) : option nat :=
  strchr_from 0 s c.

(** A C condition [if (strchr(...))]. *)
Definition found (r : option nat) : bool :=
  match r with Some _ => true | None => false end.

End CString.

(** ** Machine integers *)

Module CInt.

Definition size_max : Z := 2 ^ 64.

(** Conversion to [int] (32 bits, two's complement). *)
Definition to_int (z : Z) : Z := (z + 2 ^ 31) mod 2 ^ 32 - 2 ^ 31.

(** Conversion to [unsigned long] / [size_t]. *)
Definition to_ulong (z : Z) : Z := z mod size_max.

Definition ENOMEM : Z := 12.
Definition EFAULT : Z := 14.
Definition ENOTTY : Z := 25.

End CInt.

(** ** hw5/NewScanner.c: one buffer shared by every open file *)

Module NewScanner.
Import Mem CString CInt.

(** [ScannerDevice]; the [devno] and [cdev] members only serve the
    registration of the device and are left out. *)
Record ScannerDevice : Type := mkDevice {
  dev_separators : ptr;   (* char *separators *)
  data : ptr              (* char *data *)
}.

Record ScannerFile : Type := mkFile {
  current_token : ptr;
  next_char : ptr;
  separators : ptr
}.

(** The kernel as the driver sees it: the heap, the global
    [scanner_device], and for each open [struct file] the [ScannerFile]
    its [private_data] points to. *)
Record kernel : Type := mkKernel {
  mem : heap;
  scanner_device : ScannerDevice;
  files : gmap nat ScannerFile
}.

Definition default_separators : list ascii :=
  [" "; "009"; "010"; "013"; "012"; "011"]%char.   (* " \t\n\r\f\v" *)

(** [scanner_init]: [chrdev_err] and [cdev_err] are the results of
    [alloc_chrdev_region] and [cdev_add]. *)
Definition scanner_init (kmalloc_ok : bool) (chrdev_err cdev_err : Z)
  : option (kernel * Z) :=
  let '(p, h1) := kmalloc kmalloc_ok 7 empty_heap in
  match p with
  | NULL => Some (mkKernel h1 (mkDevice NULL NULL) ∅, - ENOMEM)
  | _ =>
      h2 ← store h1 p (default_separators ++ [NUL]);
      if chrdev_err <? 0 then
        h3 ← kfree p h2;
        Some (mkKernel h3 (mkDevice p NULL) ∅, chrdev_err)
      else if negb (cdev_err =? 0) then
        h3 ← kfree p h2;
        Some (mkKernel h3 (mkDevice p NULL) ∅, cdev_err)
      else Some (mkKernel h2 (mkDevice p NULL) ∅, 0)
  end.

(** [scanner_open]; [file_ok] and [sep_ok] say whether the two [kmalloc]
    calls succeed, [filp] is the file being opened.  The [ScannerFile]
    structure that the first [kmalloc] returns is kept by value, as the
    entry of [files] at [filp]; the heap holds the character blocks. *)
Definition scanner_open (file_ok sep_ok : bool) (st : kernel) (filp : nat)
  : option (kernel * Z) :=
  if negb file_ok then Some (st, - ENOMEM)
  else
    s ← cstring (mem st) (dev_separators (scanner_device st));
    let '(p, h1) := kmalloc sep_ok (Z.of_nat (length s) + 1) (mem st) in
    match p with
    | NULL => Some (st, - ENOMEM)
    | _ =>
        h2 ← store h1 p (s ++ [NUL]);           (* strcpy *)
        Some (mkKernel h2 (scanner_device st)
                (<[filp := mkFile NULL (data (scanner_device st)) p]>
                   (files st)),
              0)
    end.

(** [scanner_release]: the separators of the file are freed, then its
    [ScannerFile] structure, whose entry leaves [files]. *)
Definition scanner_release (st : kernel) (filp : nat) : option (kernel * Z) :=
  match files st !! filp with
  | Some sf =>
      h1 ← kfree (separators sf) (mem st);
      Some (mkKernel h1 (scanner_device st) (delete filp (files st)), 0)
  | None => Some (st, 0)
  end.

(** [*p] for [p] at offset [i] of a block holding [d].  Both loops below
    only read offsets below [data_end], which lies inside the block. *)
Definition deref (d : list ascii) (i : nat) : ascii := default NUL (d !! i).

(** [while (token_start < data_end && strchr(separators, *token_start))
       token_start++;] *)
Fixpoint skip_loop (fuel : nat) (d seps : list ascii)
    (data_end token_start : nat) : nat :=
  match fuel with
  | O => token_start
  | S fuel' =>
      if (token_start <? data_end)%nat
         && found (strchr seps (deref d token_start))
      then skip_loop fuel' d seps data_end (S token_start)
      else token_start
  end.

Definition skip_separators (d seps : list ascii) (data_end token_start : nat)
  : nat :=
  skip_loop (data_end - token_start) d seps data_end token_start.

(** [while (token_end < data_end && !strchr(separators, *token_end))
       token_end++;] *)
Fixpoint token_loop (fuel : nat) (d seps : list ascii)
    (data_end token_end : nat) : nat :=
  match fuel with
  | O => token_end
  | S fuel' =>
      if (token_end <? data_end)%nat
         && negb (found (strchr seps (deref d token_end)))
      then token_loop fuel' d seps data_end (S token_end)
      else token_end
  end.

Definition scan_token (d seps : list ascii) (data_end token_end : nat) : nat :=
  token_loop (data_end - token_end) d seps data_end token_end.

(** [copy_to_user(buf, from, n)]: the user buffer accepts [writable]
    bytes.  [Fault] stands for a non-zero result; the bytes that the
    buffer accepted before the copy stopped have been stored in it. *)
Inductive copied : Type :=
  | Copied (out : list ascii)
  | Fault (out : list ascii).

Definition copy_to_user (writable : Z) (d : list ascii) (from : nat) (n : Z)
  : option copied :=
  if n <=? writable then
    if Z.of_nat from + n <=? Z.of_nat (length d)
    then Some (Copied (take (Z.to_nat n) (drop from d)))
    else None
  else Some (Fault (take (Z.to_nat writable) (drop from d))).

Definition set_current_token (sf : ScannerFile) (p : ptr) : ScannerFile :=
  mkFile p (next_char sf) (separators sf).

Definition set_separators (sf : ScannerFile) (p : ptr) : ScannerFile :=
  mkFile (current_token sf) (next_char sf) p.

(** [scanner_read(filp, buf, count, f_pos)]; the result carries the bytes
    delivered to [buf]. *)
Definition scanner_read (st : kernel) (filp : nat) (count writable : Z)
  : option (kernel * Z * list ascii) :=
  sf ← files st !! filp;
  len ← strlen (mem st) (data (scanner_device st));
  match data (scanner_device st), current_token sf with
  | Ptr db doff, Ptr tb toff =>
      if negb (tb =? db)%nat then None
      else
        let data_end := (doff + len)%nat in
        if (data_end <=? toff)%nat then Some (st, 0, [])
        else
          seps ← cstring (mem st) (separators sf);
          d ← cells (mem st) !! db;
          let token_start := skip_separators d seps data_end toff in
          let token_end := scan_token d seps data_end token_start in
          let token_len :=
            Z.min (to_int (Z.of_nat token_end - Z.of_nat token_start))
                  (to_int count) in
          c ← copy_to_user writable d token_start (to_ulong token_len);
          match c with
          | Fault out => Some (st, - EFAULT, out)
          | Copied out =>
              Some (mkKernel (mem st) (scanner_device st)
                      (<[filp := set_current_token sf (Ptr db token_end)]>
                         (files st)),
                    token_len, out)
          end
  | _, _ => None
  end.

(** User memory seen from a user address: the bytes that can be read
    starting there.  [copy_from_user(to, from, n)] returns 0 exactly when
    [n] bytes are readable. *)
Definition copy_from_user_ok (ubuf : list ascii) (n : Z) : bool :=
  n <=? Z.of_nat (length ubuf).

(** [scanner_write(filp, buf, count, f_pos)]; [ubuf] is user memory at
    [buf]. *)
Definition scanner_write (kmalloc_ok : bool) (st : kernel) (filp : nat)
    (ubuf : list ascii) (count : Z) : option (kernel * Z) :=
  sf ← files st !! filp;
  h1 ← kfree (data (scanner_device st)) (mem st);
  let dev0 := mkDevice (dev_separators (scanner_device st)) NULL in
  let '(p, h2) := kmalloc kmalloc_ok (to_ulong (count + 1)) h1 in
  match p with
  | NULL => Some (mkKernel h2 dev0 (files st), - ENOMEM)
  | _ =>
      if copy_from_user_ok ubuf count then
        h3 ← store h2 p (take (Z.to_nat count) ubuf);
        h4 ← store h3 (padd p (Z.to_nat count)) [NUL];
        Some (mkKernel h4 (mkDevice (dev_separators (scanner_device st)) p)
                (<[filp := set_current_token sf p]> (files st)),
              count)
      else
        h3 ← store h2 p ubuf;
        h4 ← kfree p h3;
        Some (mkKernel h4 dev0 (files st), - EFAULT)
  end.

(** The request encoding of [<linux/ioctl.h>]. *)
Definition _IOC_NR (cmd : Z) : Z := Z.land cmd 255.
Definition _IOC_TYPE (cmd : Z) : Z := Z.land (Z.shiftr cmd 8) 255.
Definition _IOW (type nr size : Z) : Z :=
  Z.lor (Z.lor (Z.lor (Z.shiftl 1 30) (Z.shiftl type 8)) nr)
        (Z.shiftl size 16).

Definition SCANNER_MAGIC : Z := 113.   (* 'q' *)

(** [NewScanner.h] is not part of the sources; the request code is the one
    [TestScanner.c] defines, [_IOW(SCANNER_MAGIC, 1, char * )], with 8-byte
    pointers. *)
Definition SCANNER_SET_SEPARATORS : Z := _IOW SCANNER_MAGIC 1 8.

(** [scanner_ioctl(filp, cmd, arg)].  The driver uses [arg] both as the
    user address of the new separators and as their length; [ubuf] is user
    memory at address [arg]. *)
Definition scanner_ioctl (kmalloc_ok : bool) (st : kernel) (filp : nat)
    (cmd arg : Z) (ubuf : list ascii) : option (kernel * Z) :=
  sf ← files st !! filp;
  if negb (_IOC_TYPE cmd =? SCANNER_MAGIC) then Some (st, - ENOTTY)
  else if 1 <? _IOC_NR cmd then Some (st, - ENOTTY)
  else if cmd =? SCANNER_SET_SEPARATORS then
    let '(p, h1) := kmalloc kmalloc_ok (to_ulong (arg + 1)) (mem st) in
    match p with
    | NULL => Some (st, - ENOMEM)
    | _ =>
        if copy_from_user_ok ubuf arg then
          h2 ← store h1 p (take (Z.to_nat arg) ubuf);
          h3 ← store h2 (padd p (Z.to_nat arg)) [NUL];
          h4 ← kfree (separators sf) h3;
          Some (mkKernel h4 (scanner_device st)
                  (<[filp := set_separators sf p]> (files st)),
                0)
        else
          h2 ← store h1 p ubuf;
          h3 ← kfree p h2;
          Some (mkKernel h3 (scanner_device st) (files st), - EFAULT)
    end
  else Some (st, - ENOTTY).


End NewScanner.

(** ** hw5/Scanner.c: the earlier driver, one buffer per open file *)

Module Scanner.
Import Mem CString CInt.

(** [struct scanner_device], the [private_data] of one open file.  Its
    buffer is reached through this structure only, so it is kept by value:
    [None] is the null [data_buffer]. *)
Record ScannerDevice : Type := mkDev {
  data_buffer : option (list ascii);
  buffer_size : nat;
  buffer_position : nat;
  separators : list ascii            (* char separators[10] *)
}.

Definition ERESTARTSYS : Z := 512.

(** [dev_open]: [memset] of the array, then [strcpy(dev->separators, " ")]. *)
Definition dev_open (kmalloc_ok : bool) : option ScannerDevice * Z :=
  if kmalloc_ok
  then (Some (mkDev None 0 0 (" "%char :: replicate 9 NUL)), 0)
  else (None, - ENOMEM).

(** The characters of the separator array as [strchr] walks them; an array
    without terminator is read as a whole. *)
Definition array_string (a : list ascii) : list ascii :=
  default a (until_nul a).

Definition deref (d : list ascii) (i : nat) : ascii := default NUL (d !! i).

(** What the loop of [dev_read] has stored in the user buffer when it
    ends: [Fault] when a [copy_to_user] returned non-zero, after the bytes
    before it had been stored. *)
Inductive copied : Type :=
  | Copied (out : list ascii)
  | Fault (out : list ascii).

Definition delivered (c : copied) : list ascii :=
  match c with
  | Copied out => out
  | Fault out => out
  end.

(** The loop of [dev_read].  [out] are the bytes copied so far
    ([bytes_read = length out]); the result is the final position and the
    bytes copied. *)
Fixpoint read_loop (fuel : nat) (buf seps : list ascii) (size : nat)
    (len writable : Z) (pos : nat) (out : list ascii)
  : nat * copied :=
  match fuel with
  | O => (pos, Copied out)
  | S fuel' =>
      if (pos <? size)%nat && (Z.of_nat (length out) <? len) then
        let current_char := deref buf pos in
        if found (strchr seps current_char) then
          if (0 <? length out)%nat then (S pos, Copied out)
          else read_loop fuel' buf seps size len writable (S pos) out
        else if Z.of_nat (length out) <? writable then
          read_loop fuel' buf seps size len writable (S pos)
                    (out ++ [current_char])
        else (pos, Fault out)
      else (pos, Copied out)
  end.

Definition set_position (dev : ScannerDevice) (pos : nat) : ScannerDevice :=
  mkDev (data_buffer dev) (buffer_size dev) pos (separators dev).

(** [dev_read]; [interrupted] is a non-zero result of
    [mutex_lock_interruptible]. *)
Definition dev_read (interrupted : bool) (dev : ScannerDevice)
    (len writable : Z) : ScannerDevice * Z * list ascii :=
  if interrupted then (dev, - ERESTARTSYS, [])
  else
    match data_buffer dev with
    | None => (dev, 0, [])
    | Some buf =>
        if (buffer_size dev <=? buffer_position dev)%nat then (dev, 0, [])
        else
          match read_loop (buffer_size dev - buffer_position dev) buf
                  (array_string (separators dev)) (buffer_size dev)
                  len writable (buffer_position dev) [] with
          | (pos, Copied out) =>
              (set_position dev pos, Z.of_nat (length out), out)
          | (pos, Fault out) => (set_position dev pos, - EFAULT, out)
          end
    end.

(** [dev_write]; [ubuf] is user memory at [buffer]. *)
Definition dev_write (interrupted kmalloc_ok : bool) (dev : ScannerDevice)
    (ubuf : list ascii) (len : Z) : ScannerDevice * Z :=
  if interrupted then (dev, - ERESTARTSYS)
  else
    let dev1 :=
      match data_buffer dev with
      | Some _ => mkDev None 0 0 (separators dev)
      | None => dev
      end in
    if negb kmalloc_ok then (dev1, - ENOMEM)
    else if negb (len <=? Z.of_nat (length ubuf)) then (dev1, - EFAULT)
    else
      (mkDev (Some (take (Z.to_nat len) ubuf)) (Z.to_nat len) 0
             (separators dev1),
       len).

End Scanner.

(** ** hw5/TestScanner.c: the user program, run against the driver *)

Module TestScanner.
Import Mem CString CInt NewScanner.

(** What the program meets when it runs: the [struct file] its [open]
    creates, the results of the allocations in the driver, the address of
    the string literal passed to [set_separators], and the user memory
    that can be read behind the two string literals. *)
Record world : Type := mkWorld {
  filp : nat;
  open_file_ok : bool;
  open_sep_ok : bool;
  ioctl_kmalloc_ok : bool;
  write_kmalloc_ok : bool;
  sep_addr : Z;
  sep_after : list ascii;
  text_after : list ascii
}.

Definition EXIT_SUCCESS : Z := 0.
Definition EXIT_FAILURE : Z := 1.

Definition separators_literal : list ascii :=
  [" "; "009"; "010"]%char.                             (* " \t\n" *)

Definition text_literal : list ascii :=
  list_ascii_of_string "This is a test.".

(** User memory at a string literal: its characters, its terminator, and
    what can be read behind it. *)
Definition literal_memory (s after : list ascii) : list ascii :=
  s ++ NUL :: after.

(** What [printf("%s")] shows of [read_buf] once [read_buf[bytes_read]]
    has been set to 0. *)
Definition printed (out : list ascii) : list ascii :=
  match until_nul (out ++ [NUL]) with
  | Some s => s
  | None => out
  end.

(** [read_token(fd, read_buf, sizeof(read_buf) - 1)] on the 1024 bytes of
    [read_buf]. *)
Definition read_token (st : kernel) (fd : nat)
  : option (kernel * Z * list ascii) :=
  scanner_read st fd 1023 1024.

(** The [while] loop: the state it ends in, the last [bytes_read], and the
    tokens printed.  [None] when a read is undefined or the loop has not
    ended after [fuel] reads. *)
Fixpoint print_tokens (fuel : nat) (st : kernel) (fd : nat)
  : option (kernel * Z * list (list ascii)) :=
  match fuel with
  | O => None
  | S fuel' =>
      match read_token st fd with
      | Some (st', bytes_read, out) =>
          if 0 <? bytes_read then
            match print_tokens fuel' st' fd with
            | Some (st'', last, toks) => Some (st'', last, printed out :: toks)
            | None => None
            end
          else Some (st', bytes_read, [])
      | None => None
      end
  end.

(** [close(fd)] and the exit status. *)
Definition close_and_exit (st : kernel) (fd : nat) (status : Z)
    (toks : list (list ascii)) : option (kernel * Z * list (list ascii)) :=
  match scanner_release st fd with
  | Some (st', _) => Some (st', status, toks)
  | None => None
  end.

(** [main]: the final state of the driver, the exit status, and the
    tokens printed on standard output. *)
Definition main (w : world) (fuel : nat) (st : kernel)
  : option (kernel * Z * list (list ascii)) :=
  match scanner_open (open_file_ok w) (open_sep_ok w) st (filp w) with
  | None => None
  | Some (st1, r1) =>
      if r1 <? 0 then Some (st1, EXIT_FAILURE, [])
      else
        match scanner_ioctl (ioctl_kmalloc_ok w) st1 (filp w)
                SCANNER_SET_SEPARATORS (sep_addr w)
                (literal_memory separators_literal (sep_after w)) with
        | None => None
        | Some (st2, r2) =>
            if negb (r2 =? 0) then close_and_exit st2 (filp w) EXIT_FAILURE []
            else
              match scanner_write (write_kmalloc_ok w) st2 (filp w)
                      (literal_memory text_literal (text_after w)) 15 with
              | None => None
              | Some (st3, r3) =>
                  if r3 <? 0
                  then close_and_exit st3 (filp w) EXIT_FAILURE []
                  else
                    match print_tokens fuel st3 (filp w) with
                    | None => None
                    | Some (st4, last, toks) =>
                        if last <? 0
                        then close_and_exit st4 (filp w) EXIT_FAILURE toks
                        else close_and_exit st4 (filp w) EXIT_SUCCESS toks
                    end
              end
        end
  end.

End TestScanner.

(** ** Runs of the driver, its invariant, and observation of reads *)

Import Mem CString CInt NewScanner.

(** The calls the kernel makes into the driver, with what the environment
    decides in each (allocator results, user memory). *)
Inductive call : Type :=
  | Open (file_ok sep_ok : bool) (filp : nat)
  | Release (filp : nat)
  | Read (filp : nat) (count writable : Z)
  | Write (kmalloc_ok : bool) (filp : nat) (ubuf : list ascii) (count : Z)
  | Ioctl (kmalloc_ok : bool) (filp : nat) (cmd arg : Z) (ubuf : list ascii).

Definition exec (st : kernel) (c : call) : option (kernel * Z) :=
  match c with
  | Open file_ok sep_ok filp => scanner_open file_ok sep_ok st filp
  | Release filp => scanner_release st filp
  | Read filp count writable =>
      match scanner_read st filp count writable with
      | Some (st', r, _) => Some (st', r)
      | None => None
      end
  | Write kmalloc_ok filp ubuf count =>
      scanner_write kmalloc_ok st filp ubuf count
  | Ioctl kmalloc_ok filp cmd arg ubuf =>
      scanner_ioctl kmalloc_ok st filp cmd arg ubuf
  end.

(** States of a loaded module: a successful [scanner_init] followed by
    calls with a defined result. *)
Inductive reachable : kernel -> Prop :=
  | reach_init st :
      scanner_init true 0 0 = Some (st, 0) -> reachable st
  | reach_step st c st' r :
      reachable st -> exec st c = Some (st', r) -> reachable st'.

(** [p] is the start of a live block that holds a terminated string. *)
Definition string_at (h : heap) (p : ptr) : Prop :=
  exists b, p = Ptr b 0 /\ is_Some (cstring h p).

Record wf (st : kernel) : Prop := mk_wf {
  wf_fresh : forall b,
    is_Some (cells (mem st) !! b) -> (b < next_block (mem st))%nat;
  wf_dev : string_at (mem st) (dev_separators (scanner_device st));
  wf_data :
    data (scanner_device st) = NULL
    \/ string_at (mem st) (data (scanner_device st));
  wf_data_dev :
    data (scanner_device st) <> dev_separators (scanner_device st);
  wf_seps : forall f sf,
    files st !! f = Some sf ->
    string_at (mem st) (separators sf)
    /\ separators sf <> data (scanner_device st)
    /\ separators sf <> dev_separators (scanner_device st);
  wf_seps_inj : forall f g sf sg,
    files st !! f = Some sf -> files st !! g = Some sg ->
    separators sf = separators sg -> f = g;
  wf_cursor : forall f sf b o,
    files st !! f = Some sf -> current_token sf = Ptr b o ->
    (b < next_block (mem st))%nat
    /\ forall text,
         data (scanner_device st) = Ptr b 0 ->
         cstring (mem st) (Ptr b 0) = Some text ->
         (o <= length text)%nat
}.

(** The text a reader walks: the string at [scanner_device.data]. *)
Definition buffer_text (st : kernel) : option (list ascii) :=
  cstring (mem st) (data (scanner_device st)).

(** The separator string of an open file. *)
Definition separators_of (st : kernel) (filp : nat) : option (list ascii) :=
  sf ← files st !! filp; cstring (mem st) (separators sf).

(** The offset of an open file's cursor. *)
Definition position (st : kernel) (filp : nat) : option nat :=
  sf ← files st !! filp;
  match current_token sf with
  | Ptr _ o => Some o
  | NULL => None
  end.

Definition slice (l : list ascii) (i j : nat) : list ascii :=
  take (j - i) (drop i l).

(** [n] reads in a row: the value and the bytes each one returned. *)
Fixpoint reads (n : nat) (st : kernel) (filp : nat) (count writable : Z)
  : option (list (Z * list ascii)) :=
  match n with
  | O => Some []
  | S n' =>
      match scanner_read st filp count writable with
      | Some (st', r, out) =>
          match reads n' st' filp count writable with
          | Some l => Some ((r, out) :: l)
          | None => None
          end
      | None => None
      end
  end.

(** Reading until a read returns 0.  Each read contributes the bytes its
    cursor passed over without returning them and the bytes it returned.
    [None] when a read is undefined or [fuel] reads did not reach the
    end. *)
Fixpoint read_pieces (fuel : nat) (st : kernel) (filp : nat)
    (count writable : Z) : option (list (list ascii * list ascii)) :=
  match fuel with
  | O => None
  | S fuel' =>
      match scanner_read st filp count writable,
            buffer_text st, position st filp with
      | Some (st', r, out), Some text, Some o =>
          match position st' filp with
          | Some o' =>
              let piece := (slice text o (o' - length out), out) in
              if r <=? 0 then Some [piece]
              else
                match read_pieces fuel' st' filp count writable with
                | Some l => Some (piece :: l)
                | None => None
                end
          | None => None
          end
      | _, _, _ => None
      end
  end.

(** The state after [filp]'s cursor moved to [p]. *)
Definition advance (st : kernel) (filp : nat) (sf : ScannerFile) (p : ptr)
  : kernel :=
  mkKernel (mem st) (scanner_device st)
           (<[filp := set_current_token sf p]> (files st)).

(** [filp] is open with its cursor at offset [o] of the current buffer,
    which holds [text]; [seps] are its separators. *)
Record at_cursor (st : kernel) (filp : nat) (sf : ScannerFile) (b : block)
    (o : nat) (d text seps : list ascii) : Prop := mk_at_cursor {
  ac_file : files st !! filp = Some sf;
  ac_data : data (scanner_device st) = Ptr b 0;
  ac_cursor : current_token sf = Ptr b o;
  ac_block : cells (mem st) !! b = Some d;
  ac_text : until_nul d = Some text;
  ac_seps : cstring (mem st) (separators sf) = Some seps;
  ac_pos : (o <= length text)%nat
}.

(** The live blocks once [p] has been released. *)
Definition released (p : ptr) (c : gmap block (list ascii))
  : gmap block (list ascii) :=
  match p with
  | Ptr b _ => delete b c
  | NULL => c
  end.

(** The state a successful [scanner_init] leaves. *)
Definition boot : kernel :=
  mkKernel (Heap (<[0%nat := default_separators ++ [NUL]]> ∅) 1%nat)
           (mkDevice (Ptr 0%nat 0) NULL) ∅.

(** A sequence of calls, as long as each has a defined result. *)
Fixpoint run (st : kernel) (cs : list call) : option kernel :=
  match cs with
  | [] => Some st
  | c :: cs' =>
      match exec st c with
      | Some (st', _) => run st' cs'
      | None => None
      end
  end.

(** States used as examples: file 3 opened after [scanner_init], then the
    15 bytes of [TestScanner.c] written through it. *)
Definition sample_text : list ascii :=
  list_ascii_of_string "This is a test.".

Definition opened : kernel :=
  mkKernel
    (Heap (<[1%nat := default_separators ++ [NUL]]>
             (<[0%nat := default_separators ++ [NUL]]> ∅)) 2%nat)
    (mkDevice (Ptr 0%nat 0) NULL)
    (<[3%nat := mkFile NULL NULL (Ptr 1%nat 0)]> ∅).

Definition written : kernel :=
  mkKernel
    (Heap (<[2%nat := sample_text ++ [NUL]]>
             (<[1%nat := default_separators ++ [NUL]]>
                (<[0%nat := default_separators ++ [NUL]]> ∅))) 3%nat)
    (mkDevice (Ptr 0%nat 0) (Ptr 2%nat 0))
    (<[3%nat := mkFile (Ptr 2%nat 0) NULL (Ptr 1%nat 0)]> ∅).

(** Two open files: 4 wrote "x y" and read its first token, then 3 wrote
    "a,b,c".  The cursor of 4 still refers to block 3, the buffer that the
    second write released. *)
Definition two_files_calls : list call :=
  [Open true true 3%nat; Open true true 4%nat;
   Write true 4%nat (list_ascii_of_string "x y") 3;
   Read 4%nat 1023 1023;
   Write true 3%nat (list_ascii_of_string "a,b,c") 5].

Definition two_files : kernel :=
  mkKernel
    (Heap (<[4%nat := list_ascii_of_string "a,b,c" ++ [NUL]]>
             (<[2%nat := default_separators ++ [NUL]]>
                (<[1%nat := default_separators ++ [NUL]]>
                   (<[0%nat := default_separators ++ [NUL]]> ∅)))) 5%nat)
    (mkDevice (Ptr 0%nat 0) (Ptr 4%nat 0))
    (<[4%nat := mkFile (Ptr 3%nat 1) NULL (Ptr 2%nat 0)]>
       (<[3%nat := mkFile (Ptr 4%nat 0) NULL (Ptr 1%nat 0)]> ∅)).

(** [two_files] after file 3 set its separators to ",". *)
Definition two_files_comma : kernel :=
  mkKernel
    (Heap (<[5%nat := list_ascii_of_string "," ++ [NUL]]>
             (<[4%nat := list_ascii_of_string "a,b,c" ++ [NUL]]>
                (<[2%nat := default_separators ++ [NUL]]>
                   (<[0%nat := default_separators ++ [NUL]]> ∅)))) 6%nat)
    (mkDevice (Ptr 0%nat 0) (Ptr 4%nat 0))
    (<[4%nat := mkFile (Ptr 3%nat 1) NULL (Ptr 2%nat 0)]>
       (<[3%nat := mkFile (Ptr 4%nat 0) NULL (Ptr 5%nat 0)]> ∅)).

Definition is_write (c : call) : bool :=
  match c with
  | Write _ _ _ _ => true
  | _ => false
  end.

(** [c] opens, that is creates, the file [g]. *)
Definition opens (c : call) (g : nat) : bool :=
  match c with
  | Open _ _ f => (f =? g)%nat
  | _ => false
  end.

(** [q] is in the same block as [p], at the same offset or further. *)
Definition cursor_le (p q : ptr) : Prop :=
  match p, q with
  | NULL, NULL => True
  | Ptr b o, Ptr b' o' => b = b' /\ (o <= o')%nat
  | _, _ => False
  end.

Definition glue (pieces : list (list ascii * list ascii)) : list ascii :=
  concat (map (fun p => p.1 ++ p.2) pieces).

Definition bytes (s : string) : list ascii := list_ascii_of_string s.

(** The kernel opens a file on a [struct file] of its own: one that is not
    open already. *)
Definition open_is_fresh (st : kernel) (c : call) : bool :=
  match c with
  | Open _ _ f =>
      match files st !! f with
      | None => true
      | Some _ => false
      end
  | _ => true
  end.

(** States of a loaded module under that discipline. *)
Inductive loaded : kernel -> Prop :=
  | loaded_init st :
      scanner_init true 0 0 = Some (st, 0) -> loaded st
  | loaded_step st c st' r :
      loaded st -> open_is_fresh st c = true ->
      exec st c = Some (st', r) -> loaded st'.



(** Calls whose arguments the kernel can pass: the file is open and the
    sizes are those of a [size_t] whose successor does not wrap.  Reads
    are left out; they are treated on their own. *)
Definition in_range (st : kernel) (c : call) : Prop :=
  match c with
  | Open _ _ _ => True
  | Release _ => True
  | Read _ _ _ => False
  | Write _ f _ count => is_Some (files st !! f) /\ 0 <= count < 2 ^ 64 - 1
  | Ioctl _ f _ arg _ => is_Some (files st !! f) /\ 0 <= arg < 2 ^ 64 - 1
  end.


(** [written] after file 3 has read all four tokens. *)
Definition all_read : kernel :=
  mkKernel
    (Heap (<[2%nat := sample_text ++ [NUL]]>
             (<[1%nat := default_separators ++ [NUL]]>
                (<[0%nat := default_separators ++ [NUL]]> ∅))) 3%nat)
    (mkDevice (Ptr 0%nat 0) (Ptr 2%nat 0))
    (<[3%nat := mkFile (Ptr 2%nat 15) NULL (Ptr 1%nat 0)]> ∅).

(** The calls into the earlier driver, [Scanner.c], on one open file. *)
Inductive dev_call : Type :=
  | DevRead (interrupted : bool) (len writable : Z)
  | DevWrite (interrupted kmalloc_ok : bool) (ubuf : list ascii) (len : Z).

Definition dev_exec (dev : Scanner.ScannerDevice) (c : dev_call)
  : Scanner.ScannerDevice :=
  match c with
  | DevRead i len writable => (Scanner.dev_read i dev len writable).1.1
  | DevWrite i ok ubuf len => (Scanner.dev_write i ok dev ubuf len).1
  end.

Definition dev_run (dev : Scanner.ScannerDevice) (cs : list dev_call)
  : Scanner.ScannerDevice :=
  fold_left dev_exec cs dev.

(** The position is inside the buffer, and [buffer_size] is the size of
    the buffer that is there. *)
Definition dev_wf (dev : Scanner.ScannerDevice) : Prop :=
  (Scanner.buffer_position dev <= Scanner.buffer_size dev)%nat
  /\ match Scanner.data_buffer dev with
     | Some buf => Scanner.buffer_size dev = length buf
     | None => Scanner.buffer_size dev = 0%nat
     end.




(** [x ∉ l] for a list given in full. *)
Ltac not_in_list :=
  let H := fresh in
  intros H;
  repeat (apply elem_of_cons in H as [H|H]; [discriminate|]);
  inversion H.

(** ** C strings: basic facts *)

Lemma until_nul_inv (l s : list ascii) :
  until_nul l = Some s -> exists tl, l = s ++ NUL :: tl /\ NUL ∉ s.
Proof.
  revert s. induction l as [|c l IH]; intros s H; simpl in H; [discriminate|].
  destruct (Ascii.eqb c NUL) eqn:E.
  - apply Ascii.eqb_eq in E. subst c. inversion H; subst.
    exists l. split; [reflexivity | apply not_elem_of_nil].
  - destruct (until_nul l) as [s'|] eqn:E'; [|discriminate].
    inversion H; subst. destruct (IH s' eq_refl) as (tl & -> & Hs').
    exists tl. split; [reflexivity|].
    apply Ascii.eqb_neq in E. rewrite elem_of_cons. intros [Hc|?]; [congruence | tauto].
Qed.

Lemma until_nul_app (s tl : list ascii) :
  NUL ∉ s -> until_nul (s ++ NUL :: tl) = Some s.
Proof.
  induction s as [|c s IH]; intros Hs; simpl.
  - reflexivity.
  - rewrite not_elem_of_cons in Hs. destruct Hs as [Hc Hs].
    destruct (Ascii.eqb c NUL) eqn:E.
    + apply Ascii.eqb_eq in E. congruence.
    + rewrite IH by assumption. reflexivity.
Qed.

(** A block with a NUL somewhere holds a terminated string. *)
Lemma until_nul_total (l1 l2 : list ascii) :
  is_Some (until_nul (l1 ++ NUL :: l2)).
Proof.
  induction l1 as [|c l1 IH]; simpl.
  - eexists; reflexivity.
  - destruct (Ascii.eqb c NUL); [eexists; reflexivity|].
    destruct IH as [s ->]. eexists; reflexivity.
Qed.

Lemma strchr_from_found (i : nat) (s : list ascii) (c : ascii) :
  found (strchr_from i s c) = true <-> c ∈ s \/ c = NUL.
Proof.
  revert i. induction s as [|x s IH]; intros i; simpl.
  - destruct (Ascii.eqb c NUL) eqn:E; simpl.
    + apply Ascii.eqb_eq in E. tauto.
    + apply Ascii.eqb_neq in E. split; [discriminate|].
      intros [H|H]; [inversion H | contradiction].
  - destruct (Ascii.eqb x c) eqn:E; simpl.
    + apply Ascii.eqb_eq in E. subst. split; [|reflexivity].
      intros _. left. apply elem_of_cons. left. reflexivity.
    + apply Ascii.eqb_neq in E. rewrite IH, elem_of_cons.
      split; [tauto|]. intros [[Hx|H]|H]; [congruence | tauto | tauto].
Qed.

(** [strchr] answers membership for every character but NUL. *)
Lemma strchr_found (s : list ascii) (c : ascii) :
  found (strchr s c) = true <-> c ∈ s \/ c = NUL.
Proof. apply strchr_from_found. Qed.

Lemma strchr_member (s : list ascii) (c : ascii) :
  c <> NUL -> (found (strchr s c) = true <-> c ∈ s).
Proof. intros Hc. rewrite strchr_found. tauto. Qed.

Lemma strchr_not_member (s : list ascii) (c : ascii) :
  c <> NUL -> (found (strchr s c) = false <-> c ∉ s).
Proof.
  intros Hc. rewrite <- (strchr_member s c Hc).
  destruct (found (strchr s c)); split; congruence.
Qed.

(** ** The two loops of [scanner_read] *)

Section Loops.
Variables (d seps : list ascii) (data_end : nat).

Local Abbreviation is_sep i := (found (strchr seps (deref d i))).

Lemma skip_loop_spec (fuel ts : nat) :
  (data_end - ts <= fuel)%nat ->
  (ts <= skip_loop fuel d seps data_end ts)%nat
  /\ ((ts <= data_end)%nat ->
      (skip_loop fuel d seps data_end ts <= data_end)%nat)
  /\ (forall i, (ts <= i < skip_loop fuel d seps data_end ts)%nat ->
                is_sep i = true)
  /\ ((skip_loop fuel d seps data_end ts < data_end)%nat ->
      is_sep (skip_loop fuel d seps data_end ts) = false).
Proof.
  revert ts. induction fuel as [|fuel IH]; intros ts Hf; simpl.
  - repeat split; intros; lia.
  - destruct (ts <? data_end)%nat eqn:Hlt; simpl.
    + apply Nat.ltb_lt in Hlt.
      destruct (is_sep ts) eqn:Hs.
      * destruct (IH (S ts)) as (H1 & H2 & H3 & H4); [lia|].
        repeat split; [lia | intros; apply H2; lia | | exact H4].
        intros i Hi. destruct (decide (i = ts)) as [->|Hne];
          [exact Hs | apply H3; lia].
      * repeat split; intros; (lia || assumption).
    + apply Nat.ltb_ge in Hlt. repeat split; intros; lia.
Qed.

Lemma token_loop_spec (fuel te : nat) :
  (data_end - te <= fuel)%nat ->
  (te <= token_loop fuel d seps data_end te)%nat
  /\ ((te <= data_end)%nat ->
      (token_loop fuel d seps data_end te <= data_end)%nat)
  /\ (forall i, (te <= i < token_loop fuel d seps data_end te)%nat ->
                is_sep i = false)
  /\ ((token_loop fuel d seps data_end te < data_end)%nat ->
      is_sep (token_loop fuel d seps data_end te) = true).
Proof.
  revert te. induction fuel as [|fuel IH]; intros te Hf; simpl.
  - repeat split; intros; lia.
  - destruct (te <? data_end)%nat eqn:Hlt; simpl.
    + apply Nat.ltb_lt in Hlt.
      destruct (is_sep te) eqn:Hs; simpl.
      * repeat split; intros; (lia || assumption).
      * destruct (IH (S te)) as (H1 & H2 & H3 & H4); [lia|].
        repeat split; [lia | intros; apply H2; lia | | exact H4].
        intros i Hi. destruct (decide (i = te)) as [->|Hne];
          [exact Hs | apply H3; lia].
    + apply Nat.ltb_ge in Hlt. repeat split; intros; lia.
Qed.

(** Both loops leave by their condition, never for lack of fuel. *)
Lemma skip_separators_spec (pos : nat) :
  (pos <= data_end)%nat ->
  (pos <= skip_separators d seps data_end pos <= data_end)%nat
  /\ (forall i, (pos <= i < skip_separators d seps data_end pos)%nat ->
                is_sep i = true)
  /\ ((skip_separators d seps data_end pos < data_end)%nat ->
      is_sep (skip_separators d seps data_end pos) = false).
Proof.
  intros Hp. unfold skip_separators.
  destruct (skip_loop_spec (data_end - pos) pos) as (H1 & H2 & H3 & H4);
    [lia|]. repeat split; auto.
Qed.

Lemma scan_token_spec (ts : nat) :
  (ts <= data_end)%nat ->
  (ts <= scan_token d seps data_end ts <= data_end)%nat
  /\ (forall i, (ts <= i < scan_token d seps data_end ts)%nat ->
                is_sep i = false)
  /\ ((scan_token d seps data_end ts < data_end)%nat ->
      is_sep (scan_token d seps data_end ts) = true).
Proof.
  intros Hp. unfold scan_token.
  destruct (token_loop_spec (data_end - ts) ts) as (H1 & H2 & H3 & H4);
    [lia|]. repeat split; auto.
Qed.

End Loops.

(** ** Token boundaries in terms of the buffer text *)

Lemma slice_lookup (l : list ascii) (i j k : nat) (c : ascii) :
  slice l i j !! k = Some c -> (i + k < j)%nat /\ l !! (i + k)%nat = Some c.
Proof.
  unfold slice. intros H. apply lookup_take_Some in H as [H Hk].
  rewrite lookup_drop in H. split; [lia | exact H].
Qed.

Lemma slice_split (l : list ascii) (i j k : nat) :
  (i <= j <= k)%nat -> slice l i k = slice l i j ++ slice l j k.
Proof.
  intros H. unfold slice.
  replace (k - i)%nat with ((j - i) + (k - j))%nat by lia.
  rewrite <- take_take_drop, drop_drop.
  replace (i + (j - i))%nat with j by lia. reflexivity.
Qed.

Lemma slice_to_end (l : list ascii) (i : nat) :
  slice l i (length l) = drop i l.
Proof. unfold slice. apply take_ge. rewrite length_drop. lia. Qed.

Lemma slice_empty (l : list ascii) (i : nat) : slice l i i = [].
Proof. unfold slice. rewrite Nat.sub_diag. reflexivity. Qed.

Lemma length_slice (l : list ascii) (i j : nat) :
  (i <= j <= length l)%nat -> length (slice l i j) = (j - i)%nat.
Proof. intros H. unfold slice. rewrite length_take, length_drop. lia. Qed.

Lemma slice_prefix (text tl : list ascii) (i j : nat) :
  (j <= length text)%nat -> slice (text ++ tl) i j = slice text i j.
Proof.
  intros H. unfold slice. rewrite drop_app, take_app, length_drop.
  replace (j - i - (length text - i))%nat with 0%nat by lia.
  rewrite take_0, app_nil_r. reflexivity.
Qed.

Lemma deref_text (text tl : list ascii) (i : nat) (c : ascii) :
  text !! i = Some c -> deref (text ++ tl) i = c.
Proof.
  intros H. unfold deref. rewrite (lookup_app_l_Some _ _ _ _ H). reflexivity.
Qed.

Lemma text_char_not_nul (text : list ascii) (i : nat) (c : ascii) :
  NUL ∉ text -> text !! i = Some c -> c <> NUL.
Proof.
  intros Hn H ->. apply Hn. apply list_elem_of_lookup. eauto.
Qed.

(** What the two loops compute on a buffer holding [text]: the separators
    from the cursor on are passed over, the token is the longest run of
    other bytes after them. *)
Lemma token_bounds (d text seps : list ascii) (o : nat) :
  until_nul d = Some text ->
  (o <= length text)%nat ->
  let ts := skip_separators d seps (length text) o in
  let te := scan_token d seps (length text) ts in
  (o <= ts <= te)%nat /\ (te <= length text)%nat
  /\ Forall (fun c => c ∈ seps) (slice text o ts)
  /\ Forall (fun c => c ∉ seps) (slice text ts te)
  /\ (forall c, text !! te = Some c -> c ∈ seps)
  /\ ((ts < length text)%nat -> (ts < te)%nat).
Proof.
  intros Hd Ho ts te.
  destruct (until_nul_inv _ _ Hd) as (tl & -> & Hnul).
  destruct (skip_separators_spec (text ++ NUL :: tl) seps (length text) o Ho)
    as (Hs1 & Hs2 & Hs3).
  fold ts in Hs1, Hs2, Hs3.
  destruct (scan_token_spec (text ++ NUL :: tl) seps (length text) ts
              ltac:(lia)) as (Ht1 & Ht2 & Ht3).
  fold te in Ht1, Ht2, Ht3.
  assert (Hchar : forall i c, text !! i = Some c ->
            deref (text ++ NUL :: tl) i = c /\ c <> NUL).
  { intros i c Hi. split; [eapply deref_text | eapply text_char_not_nul];
      eauto. }
  split; [lia|]. split; [lia|]. repeat split.
  - apply Forall_lookup. intros k c Hk.
    apply slice_lookup in Hk as [Hk1 Hk2].
    destruct (Hchar _ _ Hk2) as [Hde Hc].
    apply (strchr_member seps c Hc). rewrite <- Hde. apply Hs2. lia.
  - apply Forall_lookup. intros k c Hk.
    apply slice_lookup in Hk as [Hk1 Hk2].
    destruct (Hchar _ _ Hk2) as [Hde Hc].
    apply (strchr_not_member seps c Hc). rewrite <- Hde. apply Ht2. lia.
  - intros c Hc. destruct (Hchar _ _ Hc) as [Hde Hn].
    apply (strchr_member seps c Hn). rewrite <- Hde. apply Ht3.
    apply lookup_lt_Some in Hc. exact Hc.
  - intros Hlt. destruct (decide (te = ts)) as [E|]; [|lia].
    specialize (Hs3 Hlt). rewrite E in Ht3. rewrite Ht3 in Hs3; [|lia].
    discriminate.
Qed.

(** ** One read *)

Lemma to_int_small (z : Z) : - 2 ^ 31 <= z < 2 ^ 31 -> to_int z = z.
Proof.
  intros H. unfold to_int. rewrite Z.mod_small; lia.
Qed.

Lemma to_ulong_small (z : Z) : 0 <= z < 2 ^ 64 -> to_ulong z = z.
Proof. intros H. unfold to_ulong, size_max. apply Z.mod_small. lia. Qed.

Lemma advance_same (st : kernel) (f : nat) (sf : ScannerFile) :
  files st !! f = Some sf -> advance st f sf (current_token sf) = st.
Proof.
  intros H. unfold advance, set_current_token. destruct st as [m dv fs].
  destruct sf as [c n s]. simpl in *. rewrite insert_id by exact H.
  reflexivity.
Qed.

(** [scanner_read] with its loads resolved. *)
Lemma scanner_read_unfold st f sf b o d text seps count writable :
  at_cursor st f sf b o d text seps ->
  scanner_read st f count writable =
    if (length text <=? o)%nat then Some (st, 0, [])
    else
      let ts := skip_separators d seps (length text) o in
      let te := scan_token d seps (length text) ts in
      let token_len :=
        Z.min (to_int (Z.of_nat te - Z.of_nat ts)) (to_int count) in
      match copy_to_user writable d ts (to_ulong token_len) with
      | Some (Fault out) => Some (st, - EFAULT, out)
      | Some (Copied out) => Some (advance st f sf (Ptr b te), token_len, out)
      | None => None
      end.
Proof.
  intros [Hf Hd Hc Hb Ht Hs Ho]. unfold scanner_read, strlen.
  rewrite Hf. simpl. rewrite Hd. simpl. rewrite Hb. simpl.
  rewrite drop_0, Ht. simpl. rewrite Hc. rewrite Nat.eqb_refl. simpl.
  destruct (length text <=? o)%nat; [reflexivity|].
  rewrite Hs. simpl.
  destruct (copy_to_user _ _ _ _) as [[out|out]|]; reflexivity.
Qed.

(** A read that is given room returns the bytes of the token, cut to
    [count], and leaves the cursor at the end of the token. *)
Lemma scanner_read_token st f sf b o d text seps count writable :
  at_cursor st f sf b o d text seps ->
  Z.of_nat (length text) < 2 ^ 31 ->
  0 <= count < 2 ^ 31 ->
  let ts := skip_separators d seps (length text) o in
  let te := scan_token d seps (length text) ts in
  let n := Z.min (Z.of_nat (te - ts)) count in
  n <= writable ->
  scanner_read st f count writable =
    Some (advance st f sf (Ptr b te), n,
          take (Z.to_nat n) (slice text ts te)).
Proof.
  intros Hac Hlen Hcount ts te n Hw.
  rewrite (scanner_read_unfold _ _ _ _ _ _ _ _ _ _ Hac).
  destruct Hac as [Hf Hd Hc Hb Ht Hs Ho].
  destruct (token_bounds d text seps o Ht Ho) as (B1 & B2 & _).
  fold ts in B1, B2. fold te in B1, B2.
  destruct (until_nul_inv _ _ Ht) as (tl & Hdt & _).
  destruct (length text <=? o)%nat eqn:E.
  - apply Nat.leb_le in E.
    assert (te = o /\ ts = o) as [Ete Ets] by lia.
    unfold n. rewrite Ete, Ets, Nat.sub_diag, slice_empty, take_nil.
    rewrite Z.min_l by lia. rewrite <- Hc. rewrite advance_same by exact Hf.
    reflexivity.
  - cbv zeta. fold ts. fold te.
    rewrite !to_int_small by lia.
    replace (Z.of_nat te - Z.of_nat ts) with (Z.of_nat (te - ts)) by lia.
    fold n. rewrite to_ulong_small by lia.
    unfold copy_to_user.
    destruct (n <=? writable) eqn:E1; [|lia].
    assert (Hd_len : length d = S (length text + length tl)).
    { rewrite Hdt, length_app. simpl. lia. }
    destruct (Z.of_nat ts + n <=? Z.of_nat (length d)) eqn:E2; [|lia].
    f_equal. f_equal.
    rewrite <- (slice_prefix text (NUL :: tl) ts te B2), <- Hdt.
    unfold slice. rewrite take_take. f_equal. lia.
Qed.

Lemma at_cursor_advance st f sf b o d text seps te :
  at_cursor st f sf b o d text seps ->
  (te <= length text)%nat ->
  at_cursor (advance st f sf (Ptr b te)) f (set_current_token sf (Ptr b te))
            b te d text seps.
Proof.
  intros [Hf Hd Hc Hb Ht Hs Ho] Hte.
  constructor; simpl; try assumption.
  - apply lookup_insert_eq.
  - reflexivity.
Qed.

(** ** Heap operations: what a defined result says *)

Lemma kfree_inv (p : ptr) (h h' : heap) :
  kfree p h = Some h' ->
  (p = NULL /\ h' = h)
  \/ exists b, p = Ptr b 0 /\ is_Some (cells h !! b)
               /\ h' = Heap (delete b (cells h)) (next_block h).
Proof.
  destruct p as [|b off]; simpl.
  - intros [= <-]. left. split; reflexivity.
  - destruct (cells h !! b) as [l|] eqn:E; [|discriminate].
    destruct off; [|discriminate]. intros [= <-]. right.
    exists b. rewrite E. repeat split. eexists; reflexivity.
Qed.

Lemma store_inv (h h' : heap) (p : ptr) (bs : list ascii) :
  store h p bs = Some h' ->
  exists b off l,
    p = Ptr b off /\ cells h !! b = Some l
    /\ (off + length bs <= length l)%nat
    /\ h' = Heap (<[b := take off l ++ bs ++ drop (off + length bs) l]>
                    (cells h)) (next_block h).
Proof.
  destruct p as [|b off]; simpl; [discriminate|].
  destruct (cells h !! b) as [l|] eqn:E; [|discriminate].
  destruct (off + length bs <=? length l)%nat eqn:E'; [|discriminate].
  intros [= <-]. apply Nat.leb_le in E'. exists b, off, l. auto.
Qed.

(** A string only depends on its own block. *)
Lemma cstring_frame (h h' : heap) (b : block) (off : nat) :
  cells h' !! b = cells h !! b ->
  cstring h' (Ptr b off) = cstring h (Ptr b off).
Proof. intros H. simpl. rewrite H. reflexivity. Qed.

Lemma string_at_frame (h h' : heap) (p : ptr) :
  string_at h p ->
  (forall b, p = Ptr b 0 -> cells h' !! b = cells h !! b) ->
  string_at h' p.
Proof.
  intros (b & -> & Hs) Hfr. exists b. split; [reflexivity|].
  rewrite (cstring_frame h h' b 0); [exact Hs | apply Hfr; reflexivity].
Qed.

Lemma string_at_live (h : heap) (b : block) (off : nat) :
  is_Some (cstring h (Ptr b off)) -> is_Some (cells h !! b).
Proof.
  simpl. destruct (cells h !! b); [eauto | intros [? ?]; discriminate].
Qed.

Lemma string_at_block (h : heap) (p : ptr) :
  string_at h p -> exists b, p = Ptr b 0 /\ is_Some (cells h !! b).
Proof.
  intros (b & -> & Hs). exists b. split; [reflexivity|].
  eapply string_at_live; eauto.
Qed.

(** Allocate, fill with [bs], terminate: the block ends up holding [bs],
    a NUL, and whatever lies behind it. *)
Lemma alloc_fill (h h3 : heap) (size : Z) (bs : list ascii) :
  (h2 ← store (kmalloc true size h).2 (Ptr (next_block h) 0) bs;
   store h2 (Ptr (next_block h) (length bs)) [NUL]) = Some h3 ->
  exists tail,
    h3 = Heap (<[next_block h := bs ++ NUL :: tail]> (cells h))
              (S (next_block h)).
Proof.
  simpl. rewrite lookup_insert_eq.
  destruct (length bs <=? _)%nat eqn:E1; [|discriminate]. simpl.
  rewrite lookup_insert_eq.
  destruct (length bs + 1 <=? _)%nat eqn:E2; [|discriminate]. simpl.
  intros [= <-]. rewrite !insert_insert_eq.
  rewrite ?take_app_length. eexists. reflexivity.
Qed.

(** Allocate, fill, release again: only the block counter moves. *)
Lemma alloc_drop (h h3 : heap) (size : Z) (bs : list ascii) :
  cells h !! next_block h = None ->
  (h2 ← store (kmalloc true size h).2 (Ptr (next_block h) 0) bs;
   kfree (Ptr (next_block h) 0) h2) = Some h3 ->
  h3 = Heap (cells h) (S (next_block h)).
Proof.
  intros Hfresh. simpl. rewrite lookup_insert_eq.
  destruct (length bs <=? _)%nat eqn:E1; [|discriminate]. simpl.
  rewrite lookup_insert_eq. intros [= <-].
  rewrite !insert_insert_eq, delete_insert_eq, delete_id by exact Hfresh.
  reflexivity.
Qed.

(** ** The outcomes of [scanner_write] *)

Lemma kfree_released (p : ptr) (h h' : heap) :
  kfree p h = Some h' ->
  h' = Heap (released p (cells h)) (next_block h)
  /\ (p = NULL \/ exists b, p = Ptr b 0 /\ is_Some (cells h !! b)).
Proof.
  intros H. destruct (kfree_inv _ _ _ H) as [[-> ->]|(b & -> & Hl & ->)].
  - split; [destruct h; reflexivity | left; reflexivity].
  - split; [reflexivity | right; eauto].
Qed.

Lemma released_fresh (p : ptr) (c : gmap block (list ascii)) (b : block) :
  c !! b = None -> released p c !! b = None.
Proof.
  intros H. destruct p as [|b' o]; simpl; [exact H|].
  destruct (decide (b' = b)) as [->|Hne].
  - apply lookup_delete_eq.
  - rewrite lookup_delete_ne by exact Hne. exact H.
Qed.

Lemma wf_next_free (st : kernel) :
  wf st -> cells (mem st) !! next_block (mem st) = None.
Proof.
  intros Hwf. destruct (cells (mem st) !! next_block (mem st)) eqn:E;
    [|reflexivity].
  pose proof (wf_fresh st Hwf (next_block (mem st)) ltac:(eauto)). lia.
Qed.

Lemma copy_ok_length (ubuf : list ascii) (n : Z) :
  copy_from_user_ok ubuf n = true ->
  length (take (Z.to_nat n) ubuf) = Z.to_nat n.
Proof.
  unfold copy_from_user_ok. intros H. apply Z.leb_le in H.
  rewrite length_take. lia.
Qed.

Lemma scanner_write_inv ok st f ubuf count st' r :
  wf st ->
  scanner_write ok st f ubuf count = Some (st', r) ->
  exists sf,
    files st !! f = Some sf
    /\ let c0 := released (data (scanner_device st)) (cells (mem st)) in
       let nb := next_block (mem st) in
       let seps := dev_separators (scanner_device st) in
       (ok = false /\ r = - ENOMEM
        /\ st' = mkKernel (Heap c0 nb) (mkDevice seps NULL) (files st))
       \/ (ok = true /\ copy_from_user_ok ubuf count = false
           /\ r = - EFAULT
           /\ st' = mkKernel (Heap c0 (S nb)) (mkDevice seps NULL) (files st))
       \/ (ok = true /\ copy_from_user_ok ubuf count = true /\ r = count
           /\ exists tail,
                st' = mkKernel
                        (Heap (<[nb := take (Z.to_nat count) ubuf
                                        ++ NUL :: tail]> c0) (S nb))
                        (mkDevice seps (Ptr nb 0))
                        (<[f := set_current_token sf (Ptr nb 0)]>
                           (files st))).
Proof.
  intros Hwf. unfold scanner_write.
  destruct (files st !! f) as [sf|] eqn:Hf; [|discriminate]. simpl.
  destruct (kfree _ (mem st)) as [h1|] eqn:Hk; [|discriminate]. simpl.
  apply kfree_released in Hk as [-> _].
  intros H. exists sf. split; [reflexivity|]. cbv zeta.
  set (c0 := released _ _) in *.
  set (h1 := Heap c0 (next_block (mem st))) in *.
  assert (Hfresh : cells h1 !! next_block h1 = None)
    by (apply released_fresh, wf_next_free, Hwf).
  destruct ok; cbn [kmalloc] in H.
  - right.
    change (Ptr (next_block h1) 0, ?h) with (Ptr (next_block h1) 0, h) in H.
    destruct (copy_from_user_ok ubuf count) eqn:Hc.
    + right. pose proof (copy_ok_length _ _ Hc) as Hlen.
      destruct (store _ _ (take _ ubuf)) as [h3|] eqn:E1; [|discriminate].
      cbn [mbind option_bind padd] in H.
      destruct (store h3 _ [NUL]) as [h4|] eqn:E2; [|discriminate].
      cbn [mbind option_bind] in H. injection H as <- <-.
      destruct (alloc_fill h1 h4 (to_ulong (count + 1))
                  (take (Z.to_nat count) ubuf)) as [tail ->].
      { cbn [kmalloc snd]. fold h1 in E1. rewrite E1.
        cbn [mbind option_bind]. rewrite Hlen. exact E2. }
      repeat split. exists tail. reflexivity.
    + left.
      destruct (store _ _ ubuf) as [h3|] eqn:E1; [|discriminate].
      cbn [mbind option_bind] in H.
      destruct (kfree _ h3) as [h4|] eqn:E2; [|discriminate].
      cbn [mbind option_bind] in H. injection H as <- <-.
      rewrite (alloc_drop h1 h4 (to_ulong (count + 1)) ubuf Hfresh).
      { repeat split. }
      cbn [kmalloc snd]. rewrite E1. exact E2.
  - left. injection H as <- <-. repeat split.
Qed.

(** ** The outcomes of [scanner_ioctl], [scanner_open], [scanner_release] *)

Lemma scanner_ioctl_inv ok st f cmd arg ubuf st' r :
  wf st ->
  scanner_ioctl ok st f cmd arg ubuf = Some (st', r) ->
  exists sf,
    files st !! f = Some sf
    /\ let nb := next_block (mem st) in
       (st' = st /\ (r = - ENOTTY \/ r = - ENOMEM))
       \/ (copy_from_user_ok ubuf arg = false /\ r = - EFAULT
           /\ st' = mkKernel (Heap (cells (mem st)) (S nb))
                      (scanner_device st) (files st))
       \/ (copy_from_user_ok ubuf arg = true /\ r = 0
           /\ exists tail,
                st' = mkKernel
                        (Heap (released (separators sf)
                                 (<[nb := take (Z.to_nat arg) ubuf
                                          ++ NUL :: tail]> (cells (mem st))))
                              (S nb))
                        (scanner_device st)
                        (<[f := set_separators sf (Ptr nb 0)]> (files st))).
Proof.
  intros Hwf. unfold scanner_ioctl.
  destruct (files st !! f) as [sf|] eqn:Hf; [|discriminate]. simpl.
  intros H. exists sf. split; [reflexivity|]. cbv zeta.
  destruct (negb (_IOC_TYPE cmd =? SCANNER_MAGIC));
    [injection H as <- <-; left; auto|].
  destruct (1 <? _IOC_NR cmd); [injection H as <- <-; left; auto|].
  destruct (cmd =? SCANNER_SET_SEPARATORS);
    [|injection H as <- <-; left; auto].
  pose proof (wf_next_free st Hwf) as Hfresh.
  destruct ok; cbn [kmalloc] in H.
  - right.
    destruct (copy_from_user_ok ubuf arg) eqn:Hc.
    + right. pose proof (copy_ok_length _ _ Hc) as Hlen.
      destruct (store _ _ (take _ ubuf)) as [h3|] eqn:E1; [|discriminate].
      cbn [mbind option_bind padd] in H.
      destruct (store h3 _ [NUL]) as [h4|] eqn:E2; [|discriminate].
      cbn [mbind option_bind] in H.
      destruct (kfree _ h4) as [h5|] eqn:E3; [|discriminate].
      cbn [mbind option_bind] in H. injection H as <- <-.
      destruct (alloc_fill (mem st) h4 (to_ulong (arg + 1))
                  (take (Z.to_nat arg) ubuf)) as [tail ->].
      { cbn [kmalloc snd]. rewrite E1.
        cbn [mbind option_bind]. rewrite Hlen. exact E2. }
      apply kfree_released in E3 as [-> _].
      repeat split. exists tail. reflexivity.
    + left.
      destruct (store _ _ ubuf) as [h3|] eqn:E1; [|discriminate].
      cbn [mbind option_bind] in H.
      destruct (kfree _ h3) as [h4|] eqn:E2; [|discriminate].
      cbn [mbind option_bind] in H. injection H as <- <-.
      rewrite (alloc_drop (mem st) h4 (to_ulong (arg + 1)) ubuf Hfresh).
      { repeat split. }
      cbn [kmalloc snd]. rewrite E1. exact E2.
  - left. injection H as <- <-. auto.
Qed.

Lemma scanner_open_inv file_ok sep_ok st f st' r :
  scanner_open file_ok sep_ok st f = Some (st', r) ->
  (st' = st /\ r = - ENOMEM /\ (file_ok = false \/ sep_ok = false))
  \/ (file_ok = true /\ sep_ok = true /\ r = 0
      /\ exists s,
           cstring (mem st) (dev_separators (scanner_device st)) = Some s
           /\ st' = mkKernel
                      (Heap (<[next_block (mem st) := s ++ [NUL]]>
                               (cells (mem st)))
                            (S (next_block (mem st))))
                      (scanner_device st)
                      (<[f := mkFile NULL (data (scanner_device st))
                                     (Ptr (next_block (mem st)) 0)]>
                         (files st))).
Proof.
  unfold scanner_open. destruct file_ok; simpl;
    [|intros [= <- <-]; left; auto].
  destruct (cstring _ _) as [s|] eqn:Hs; [|discriminate]. simpl.
  destruct sep_ok; simpl; [|intros [= <- <-]; left; auto].
  rewrite lookup_insert_eq, length_replicate, length_app. simpl.
  destruct (_ <=? _)%nat eqn:E; [|discriminate]. simpl.
  intros [= <- <-]. right. repeat split. exists s. split; [reflexivity|].
  rewrite insert_insert_eq, drop_ge, app_nil_r;
    [reflexivity | rewrite length_replicate; lia].
Qed.

Lemma scanner_release_inv st f st' r :
  scanner_release st f = Some (st', r) ->
  r = 0
  /\ ((files st !! f = None /\ st' = st)
      \/ exists sf,
           files st !! f = Some sf
           /\ st' = mkKernel
                      (Heap (released (separators sf) (cells (mem st)))
                            (next_block (mem st)))
                      (scanner_device st) (delete f (files st))).
Proof.
  unfold scanner_release. destruct (files st !! f) as [sf|] eqn:Hf.
  - destruct (kfree _ _) as [h1|] eqn:Hk; [|discriminate]. simpl.
    intros [= <- <-]. apply kfree_released in Hk as [-> _].
    split; [reflexivity|]. right. exists sf. auto.
  - intros [= <- <-]. auto.
Qed.

(** ** The invariant is kept by every call *)

Lemma string_at_lt st p b off :
  wf st -> string_at (mem st) p -> p = Ptr b off ->
  off = 0%nat /\ (b < next_block (mem st))%nat
  /\ is_Some (cells (mem st) !! b).
Proof.
  intros Hwf Hs ->. destruct (string_at_block _ _ Hs) as (b' & [= -> ->] & Hl).
  split; [reflexivity|]. split; [apply (wf_fresh st Hwf), Hl | exact Hl].
Qed.

Lemma string_at_new (c : gmap block (list ascii)) (n nb : block)
    (pre tail : list ascii) :
  c !! nb = Some (pre ++ NUL :: tail) -> string_at (Heap c n) (Ptr nb 0).
Proof.
  intros H. exists nb. split; [reflexivity|]. simpl. rewrite H, drop_0.
  apply until_nul_total.
Qed.

Lemma wf_data_cases st :
  wf st ->
  data (scanner_device st) = NULL
  \/ exists b, data (scanner_device st) = Ptr b 0
               /\ (b < next_block (mem st))%nat
               /\ is_Some (cells (mem st) !! b).
Proof.
  intros Hwf. destruct (wf_data st Hwf) as [H|H]; [left; exact H|right].
  destruct (string_at_block _ _ H) as (b & Hb & Hl).
  exists b. split; [exact Hb|]. split; [apply (wf_fresh st Hwf), Hl|exact Hl].
Qed.

Lemma wf_open st f s :
  wf st ->
  cstring (mem st) (dev_separators (scanner_device st)) = Some s ->
  wf (mkKernel
        (Heap (<[next_block (mem st) := s ++ [NUL]]> (cells (mem st)))
              (S (next_block (mem st))))
        (scanner_device st)
        (<[f := mkFile NULL (data (scanner_device st))
                       (Ptr (next_block (mem st)) 0)]> (files st))).
Proof.
  intros Hwf Hs. set (nb := next_block (mem st)).
  assert (Hold : forall p, string_at (mem st) p ->
            string_at (Heap (<[nb := s ++ [NUL]]> (cells (mem st))) (S nb)) p
            /\ p <> Ptr nb 0).
  { intros p Hp. split.
    - apply (string_at_frame (mem st)); [exact Hp|]. intros b ->.
      simpl. apply lookup_insert_ne.
      destruct (string_at_lt st _ b 0 Hwf Hp eq_refl) as (_ & Hlt & _).
      unfold nb. lia.
    - intros ->.
      destruct (string_at_lt st _ nb 0 Hwf Hp eq_refl) as (_ & Hlt & _).
      unfold nb in Hlt. lia. }
  constructor; simpl.
  - intros b Hb. destruct (decide (b = nb)) as [->|Hne]; [lia|].
    rewrite lookup_insert_ne in Hb by congruence.
    pose proof (wf_fresh st Hwf b Hb). fold nb in H. lia.
  - apply Hold, (wf_dev st Hwf).
  - destruct (wf_data st Hwf) as [H|H]; [left; exact H|right].
    apply Hold, H.
  - apply (wf_data_dev st Hwf).
  - intros g sg Hg. destruct (decide (g = f)) as [->|Hne].
    + rewrite lookup_insert_eq in Hg. injection Hg as <-. simpl.
      split; [|split].
      * eapply string_at_new. apply lookup_insert_eq.
      * destruct (wf_data st Hwf) as [H|H]; [rewrite H; discriminate|].
        intros E. apply (Hold _ H). symmetry. exact E.
      * intros E. apply (Hold _ (wf_dev st Hwf)). symmetry. exact E.
    + rewrite lookup_insert_ne in Hg by congruence.
      destruct (wf_seps st Hwf g sg Hg) as (H1 & H2 & H3).
      split; [apply Hold, H1 | auto].
  - intros g1 g2 s1 s2 H1 H2 E.
    destruct (decide (g1 = f)) as [->|Hn1];
      destruct (decide (g2 = f)) as [->|Hn2]; [reflexivity | | |].
    + rewrite lookup_insert_eq in H1. injection H1 as <-.
      rewrite lookup_insert_ne in H2 by congruence. simpl in E.
      destruct (wf_seps st Hwf g2 s2 H2) as (Hs2 & _).
      exfalso. apply (Hold _ Hs2). symmetry. exact E.
    + rewrite lookup_insert_eq in H2. injection H2 as <-.
      rewrite lookup_insert_ne in H1 by congruence. simpl in E.
      destruct (wf_seps st Hwf g1 s1 H1) as (Hs1 & _).
      exfalso. apply (Hold _ Hs1). exact E.
    + rewrite lookup_insert_ne in H1, H2 by congruence.
      eapply (wf_seps_inj st Hwf); eauto.
  - intros g sg b o Hg Hc. destruct (decide (g = f)) as [->|Hne].
    + rewrite lookup_insert_eq in Hg. injection Hg as <-. discriminate.
    + rewrite lookup_insert_ne in Hg by congruence.
      destruct (wf_cursor st Hwf g sg b o Hg Hc) as [Hlt Hpos].
      fold nb in Hlt. split; [lia|]. intros text Hd Ht. apply Hpos; [exact Hd|].
      rewrite lookup_insert_ne in Ht by lia. exact Ht.
Qed.

(** Releasing a block nothing refers to. *)
Lemma wf_drop_block st bs :
  wf st ->
  dev_separators (scanner_device st) <> Ptr bs 0 ->
  data (scanner_device st) <> Ptr bs 0 ->
  (forall g sg, files st !! g = Some sg -> separators sg <> Ptr bs 0) ->
  wf (mkKernel (Heap (delete bs (cells (mem st))) (next_block (mem st)))
               (scanner_device st) (files st)).
Proof.
  intros Hwf Hdev Hdata Hfiles.
  assert (Hold : forall p, string_at (mem st) p -> p <> Ptr bs 0 ->
            string_at (Heap (delete bs (cells (mem st)))
                            (next_block (mem st))) p).
  { intros p Hp Hne. apply (string_at_frame (mem st)); [exact Hp|].
    intros b ->. simpl. apply lookup_delete_ne. congruence. }
  constructor; simpl.
  - intros b Hb. destruct (decide (b = bs)) as [->|Hne].
    + rewrite lookup_delete_eq in Hb. destruct Hb; discriminate.
    + rewrite lookup_delete_ne in Hb by congruence.
      apply (wf_fresh st Hwf b Hb).
  - apply Hold; [apply (wf_dev st Hwf) | exact Hdev].
  - destruct (wf_data st Hwf) as [H|H]; [left; exact H|right].
    apply Hold; assumption.
  - apply (wf_data_dev st Hwf).
  - intros g sg Hg. destruct (wf_seps st Hwf g sg Hg) as (H1 & H2 & H3).
    split; [apply Hold; eauto | auto].
  - apply (wf_seps_inj st Hwf).
  - intros g sg b o Hg Hc.
    destruct (wf_cursor st Hwf g sg b o Hg Hc) as [Hlt Hpos].
    split; [exact Hlt|]. intros text Hd Ht. apply Hpos; [exact Hd|].
    rewrite lookup_delete_ne in Ht by congruence. exact Ht.
Qed.

Lemma wf_eta st :
  wf st ->
  wf (mkKernel (Heap (cells (mem st)) (next_block (mem st)))
               (scanner_device st) (files st)).
Proof. destruct st as [[c n] dv fs]. trivial. Qed.

(** Handing out block numbers without keeping the blocks. *)
Lemma wf_bump st n :
  wf st -> (next_block (mem st) <= n)%nat ->
  wf (mkKernel (Heap (cells (mem st)) n) (scanner_device st) (files st)).
Proof.
  intros Hwf Hn. constructor; simpl; try apply Hwf.
  - intros b Hb. pose proof (wf_fresh st Hwf b Hb). lia.
  - intros g sg b o Hg Hc.
    destruct (wf_cursor st Hwf g sg b o Hg Hc) as [Hlt Hpos].
    split; [lia | exact Hpos].
Qed.

Lemma wf_remove_file st f :
  wf st -> wf (mkKernel (mem st) (scanner_device st) (delete f (files st))).
Proof.
  intros Hwf. constructor; simpl; try apply Hwf.
  - intros g sg Hg. apply lookup_delete_Some in Hg as [_ Hg].
    apply (wf_seps st Hwf g sg Hg).
  - intros g1 g2 s1 s2 H1 H2. apply lookup_delete_Some in H1 as [_ H1].
    apply lookup_delete_Some in H2 as [_ H2].
    apply (wf_seps_inj st Hwf g1 g2 s1 s2 H1 H2).
  - intros g sg b o Hg. apply lookup_delete_Some in Hg as [_ Hg].
    apply (wf_cursor st Hwf g sg b o Hg).
Qed.

Lemma wf_forget_data st :
  wf st ->
  wf (mkKernel (mem st)
        (mkDevice (dev_separators (scanner_device st)) NULL) (files st)).
Proof.
  intros Hwf. constructor; simpl; try apply Hwf.
  - left. reflexivity.
  - destruct (wf_dev st Hwf) as (b & -> & _). discriminate.
  - intros g sg Hg. destruct (wf_seps st Hwf g sg Hg) as (H1 & H2 & H3).
    split; [exact H1|]. split; [|exact H3].
    destruct H1 as (b & -> & _). discriminate.
  - intros g sg b o Hg Hc.
    destruct (wf_cursor st Hwf g sg b o Hg Hc) as [Hlt Hpos].
    split; [exact Hlt | discriminate].
Qed.

Lemma wf_advance st f sf b o d text seps te :
  wf st -> at_cursor st f sf b o d text seps -> (te <= length text)%nat ->
  wf (advance st f sf (Ptr b te)).
Proof.
  intros Hwf [Hf Hd Hc Hb Ht Hs Ho] Hte. unfold advance.
  constructor; simpl; try apply Hwf.
  - intros g sg Hg. destruct (decide (g = f)) as [->|Hne].
    + rewrite lookup_insert_eq in Hg. injection Hg as <-. simpl.
      apply (wf_seps st Hwf f sf Hf).
    + rewrite lookup_insert_ne in Hg by congruence.
      apply (wf_seps st Hwf g sg Hg).
  - intros g1 g2 s1 s2 H1 H2 E.
    assert (Hsep : forall g sg, <[f:=set_current_token sf (Ptr b te)]>
                     (files st) !! g = Some sg ->
              exists sg', files st !! g = Some sg'
                          /\ separators sg' = separators sg).
    { intros g sg Hg. destruct (decide (g = f)) as [->|Hne].
      - rewrite lookup_insert_eq in Hg. injection Hg as <-. eauto.
      - rewrite lookup_insert_ne in Hg by congruence. eauto. }
    destruct (Hsep _ _ H1) as (s1' & H1' & E1).
    destruct (Hsep _ _ H2) as (s2' & H2' & E2).
    apply (wf_seps_inj st Hwf g1 g2 s1' s2' H1' H2'). congruence.
  - intros g sg b' o' Hg Hc'. destruct (decide (g = f)) as [->|Hne].
    + rewrite lookup_insert_eq in Hg. injection Hg as <-. simpl in Hc'.
      injection Hc' as <- <-.
      split; [apply (wf_cursor st Hwf f sf b o Hf Hc)|].
      intros text' _ Ht'. rewrite Hb, drop_0, Ht in Ht'.
      injection Ht' as <-. exact Hte.
    + rewrite lookup_insert_ne in Hg by congruence.
      apply (wf_cursor st Hwf g sg b' o' Hg Hc').
Qed.

Lemma string_at_alloc st p l n :
  wf st -> string_at (mem st) p ->
  string_at (Heap (<[next_block (mem st) := l]> (cells (mem st))) n) p
  /\ p <> Ptr (next_block (mem st)) 0.
Proof.
  intros Hwf Hp.
  assert (Hne : forall b, p = Ptr b 0 -> b <> next_block (mem st)).
  { intros b Hb. destruct (string_at_lt st _ b 0 Hwf Hp Hb) as (_ & Hlt & _).
    lia. }
  split.
  - apply (string_at_frame (mem st)); [exact Hp|]. intros b Hb.
    simpl. apply lookup_insert_ne. specialize (Hne b Hb). congruence.
  - intros ->. apply (Hne _ eq_refl). reflexivity.
Qed.

(** A new buffer, with the writer's cursor at its start. *)
Lemma wf_new_data st f sf pre tail :
  wf st -> files st !! f = Some sf ->
  wf (mkKernel
        (Heap (<[next_block (mem st) := pre ++ NUL :: tail]> (cells (mem st)))
              (S (next_block (mem st))))
        (mkDevice (dev_separators (scanner_device st))
                  (Ptr (next_block (mem st)) 0))
        (<[f := set_current_token sf (Ptr (next_block (mem st)) 0)]>
           (files st))).
Proof.
  intros Hwf Hf. set (nb := next_block (mem st)).
  pose proof (fun p => string_at_alloc st p (pre ++ NUL :: tail) (S nb) Hwf)
    as Hold. fold nb in Hold.
  assert (Hfile : forall g sg,
            <[f:=set_current_token sf (Ptr nb 0)]> (files st) !! g = Some sg ->
            exists sg', files st !! g = Some sg'
                        /\ separators sg' = separators sg
                        /\ (g <> f -> sg' = sg)).
  { intros g sg Hg. destruct (decide (g = f)) as [->|Hne].
    - rewrite lookup_insert_eq in Hg. injection Hg as <-.
      exists sf. split; [exact Hf|]. split; [reflexivity | congruence].
    - rewrite lookup_insert_ne in Hg by congruence. eauto. }
  constructor; simpl.
  - intros b Hb. destruct (decide (b = nb)) as [->|Hne]; [lia|].
    rewrite lookup_insert_ne in Hb by congruence.
    pose proof (wf_fresh st Hwf b Hb). fold nb in H. lia.
  - apply Hold, (wf_dev st Hwf).
  - right. eapply string_at_new. apply lookup_insert_eq.
  - intros E. apply (Hold _ (wf_dev st Hwf)). symmetry. exact E.
  - intros g sg Hg. destruct (Hfile g sg Hg) as (sg' & Hg' & <- & _).
    destruct (wf_seps st Hwf g sg' Hg') as (H1 & H2 & H3).
    split; [apply Hold, H1|]. split; [apply Hold, H1 | exact H3].
  - intros g1 g2 s1 s2 H1 H2 E.
    destruct (Hfile _ _ H1) as (s1' & H1' & E1 & _).
    destruct (Hfile _ _ H2) as (s2' & H2' & E2 & _).
    apply (wf_seps_inj st Hwf g1 g2 s1' s2' H1' H2'). congruence.
  - intros g sg b o Hg Hc. destruct (decide (g = f)) as [->|Hne].
    + rewrite lookup_insert_eq in Hg. injection Hg as <-. simpl in Hc.
      injection Hc as <- <-. split; [lia|]. intros; lia.
    + rewrite lookup_insert_ne in Hg by congruence.
      destruct (wf_cursor st Hwf g sg b o Hg Hc) as [Hlt _].
      fold nb in Hlt. split; [lia|]. intros text [= ->]. lia.
Qed.

(** New separators for one open file; its old ones are still allocated. *)
Lemma wf_new_seps st f sf pre tail :
  wf st -> files st !! f = Some sf ->
  wf (mkKernel
        (Heap (<[next_block (mem st) := pre ++ NUL :: tail]> (cells (mem st)))
              (S (next_block (mem st))))
        (scanner_device st)
        (<[f := set_separators sf (Ptr (next_block (mem st)) 0)]>
           (files st))).
Proof.
  intros Hwf Hf. set (nb := next_block (mem st)).
  pose proof (fun p => string_at_alloc st p (pre ++ NUL :: tail) (S nb) Hwf)
    as Hold. fold nb in Hold.
  constructor; simpl.
  - intros b Hb. destruct (decide (b = nb)) as [->|Hne]; [lia|].
    rewrite lookup_insert_ne in Hb by congruence.
    pose proof (wf_fresh st Hwf b Hb). fold nb in H. lia.
  - apply Hold, (wf_dev st Hwf).
  - destruct (wf_data st Hwf) as [H|H]; [left; exact H|right].
    apply Hold, H.
  - apply (wf_data_dev st Hwf).
  - intros g sg Hg. destruct (decide (g = f)) as [->|Hne].
    + rewrite lookup_insert_eq in Hg. injection Hg as <-. simpl.
      split; [|split].
      * eapply string_at_new. apply lookup_insert_eq.
      * destruct (wf_data st Hwf) as [H|H]; [rewrite H; discriminate|].
        intros E. apply (Hold _ H). symmetry. exact E.
      * intros E. apply (Hold _ (wf_dev st Hwf)). symmetry. exact E.
    + rewrite lookup_insert_ne in Hg by congruence.
      destruct (wf_seps st Hwf g sg Hg) as (H1 & H2 & H3).
      split; [apply Hold, H1 | auto].
  - intros g1 g2 s1 s2 H1 H2 E.
    destruct (decide (g1 = f)) as [->|Hn1];
      destruct (decide (g2 = f)) as [->|Hn2]; [reflexivity | | |].
    + rewrite lookup_insert_eq in H1. injection H1 as <-.
      rewrite lookup_insert_ne in H2 by congruence. simpl in E.
      destruct (wf_seps st Hwf g2 s2 H2) as (Hs2 & _).
      exfalso. apply (Hold _ Hs2). symmetry. exact E.
    + rewrite lookup_insert_eq in H2. injection H2 as <-.
      rewrite lookup_insert_ne in H1 by congruence. simpl in E.
      destruct (wf_seps st Hwf g1 s1 H1) as (Hs1 & _).
      exfalso. apply (Hold _ Hs1). exact E.
    + rewrite lookup_insert_ne in H1, H2 by congruence.
      eapply (wf_seps_inj st Hwf); eauto.
  - intros g sg b o Hg Hc.
    assert (exists sg', files st !! g = Some sg' /\ current_token sg' = Ptr b o)
      as (sg' & Hg' & Hc').
    { destruct (decide (g = f)) as [->|Hne].
      - rewrite lookup_insert_eq in Hg. injection Hg as <-. eauto.
      - rewrite lookup_insert_ne in Hg by congruence. eauto. }
    destruct (wf_cursor st Hwf g sg' b o Hg' Hc') as [Hlt Hpos].
    fold nb in Hlt. split; [lia|]. intros text Hd Ht. apply Hpos; [exact Hd|].
    rewrite lookup_insert_ne in Ht by lia. exact Ht.
Qed.

Lemma wf_free_data st :
  wf st ->
  wf (mkKernel
        (Heap (released (data (scanner_device st)) (cells (mem st)))
              (next_block (mem st)))
        (mkDevice (dev_separators (scanner_device st)) NULL) (files st)).
Proof.
  intros Hwf. pose proof (wf_forget_data st Hwf) as Hwf1.
  destruct (wf_data_cases st Hwf) as [E|(b & E & _ & _)]; rewrite E; simpl.
  - apply (wf_eta _ Hwf1).
  - apply (wf_drop_block _ b Hwf1); simpl.
    + rewrite <- E. intros E'. apply (wf_data_dev st Hwf). congruence.
    + discriminate.
    + intros g sg Hg. rewrite <- E.
      apply (wf_seps st Hwf g sg Hg).
Qed.

Lemma wf_scanner_write ok st f ubuf count st' r :
  wf st -> scanner_write ok st f ubuf count = Some (st', r) -> wf st'.
Proof.
  intros Hwf H.
  destruct (scanner_write_inv _ _ _ _ _ _ _ Hwf H) as (sf & Hf & Hcases).
  pose proof (wf_free_data st Hwf) as Hwf1.
  destruct Hcases as [(_ & _ & ->)|[(_ & _ & _ & ->)|(_ & _ & _ & tail & ->)]].
  - exact Hwf1.
  - apply (wf_bump _ _ Hwf1). simpl. lia.
  - apply (wf_new_data _ f sf _ tail Hwf1). exact Hf.
Qed.

Lemma wf_scanner_ioctl ok st f cmd arg ubuf st' r :
  wf st -> scanner_ioctl ok st f cmd arg ubuf = Some (st', r) -> wf st'.
Proof.
  intros Hwf H.
  destruct (scanner_ioctl_inv _ _ _ _ _ _ _ _ Hwf H) as (sf & Hf & Hcases).
  destruct Hcases as [(-> & _)|[(_ & _ & ->)|(_ & _ & tail & ->)]].
  - exact Hwf.
  - apply (wf_bump _ _ Hwf). lia.
  - pose proof (wf_new_seps st f sf (take (Z.to_nat arg) ubuf) tail Hwf Hf)
      as Hwf2.
    destruct (wf_seps st Hwf f sf Hf) as (Hs & Hd & Hv).
    destruct Hs as (bs & Ebs & Hbs). rewrite Ebs in *. simpl.
    destruct (string_at_lt st (Ptr bs 0) bs 0 Hwf) as (_ & Hlt & _);
      [exists bs; auto | reflexivity |].
    apply (wf_drop_block _ bs Hwf2); simpl.
    + congruence.
    + congruence.
    + intros g sg Hg. destruct (decide (g = f)) as [->|Hne].
      * rewrite lookup_insert_eq in Hg. injection Hg as <-. simpl.
        intros [= E]. lia.
      * rewrite lookup_insert_ne in Hg by congruence. intros E.
        apply Hne. apply (wf_seps_inj st Hwf g f sg sf Hg Hf). congruence.
Qed.

Lemma wf_scanner_open file_ok sep_ok st f st' r :
  wf st -> scanner_open file_ok sep_ok st f = Some (st', r) -> wf st'.
Proof.
  intros Hwf H.
  destruct (scanner_open_inv _ _ _ _ _ _ H)
    as [(-> & _)|(_ & _ & _ & s & Hs & ->)].
  - exact Hwf.
  - apply wf_open; assumption.
Qed.

Lemma wf_scanner_release st f st' r :
  wf st -> scanner_release st f = Some (st', r) -> wf st'.
Proof.
  intros Hwf H.
  destruct (scanner_release_inv _ _ _ _ H) as (_ & [[_ ->]|(sf & Hf & ->)]).
  - exact Hwf.
  - pose proof (wf_remove_file st f Hwf) as Hwf1.
    destruct (wf_seps st Hwf f sf Hf) as ((bs & Ebs & Hbs) & Hd & Hv).
    rewrite Ebs in *. simpl.
    apply (wf_drop_block _ bs Hwf1); simpl.
    + congruence.
    + congruence.
    + intros g sg Hg E. apply lookup_delete_Some in Hg as [Hne Hg].
      apply Hne. symmetry.
      apply (wf_seps_inj st Hwf g f sg sf Hg Hf). congruence.
Qed.

(** A read with a defined result was made through a cursor into the
    current buffer, and either left the state alone or moved that cursor
    to the end of the token. *)
Lemma scanner_read_inv st f count writable st' r out :
  wf st ->
  scanner_read st f count writable = Some (st', r, out) ->
  exists sf b o d text seps,
    at_cursor st f sf b o d text seps
    /\ (st' = st
        \/ st' = advance st f sf
                   (Ptr b (scan_token d seps (length text)
                             (skip_separators d seps (length text) o)))).
Proof.
  intros Hwf H.
  assert (Hac : exists sf b o d text seps, at_cursor st f sf b o d text seps).
  { unfold scanner_read, strlen in H.
    destruct (files st !! f) as [sf|] eqn:Hf; [|discriminate]. simpl in H.
    destruct (cstring (mem st) (data (scanner_device st))) as [text|] eqn:Ht;
      [|discriminate].
    destruct (wf_data st Hwf) as [E|(b & E & _)];
      [rewrite E in Ht; simpl in Ht; discriminate|].
    rewrite E in H, Ht. simpl in H, Ht.
    destruct (cells (mem st) !! b) as [d|] eqn:Hb; [|discriminate].
    rewrite ?drop_0 in H, Ht. rewrite ?Ht in H. simpl in H.
    destruct (current_token sf) as [|tb toff] eqn:Hc; [discriminate|].
    destruct (tb =? b)%nat eqn:Etb; [|discriminate].
    apply Nat.eqb_eq in Etb. subst tb.
    destruct (wf_seps st Hwf f sf Hf) as ((bs & Ebs & [seps Hs]) & _).
    exists sf, b, toff, d, text, seps. constructor; try assumption.
    destruct (wf_cursor st Hwf f sf b toff Hf Hc) as [_ Hpos].
    apply Hpos; [exact E|]. simpl. rewrite Hb, drop_0. exact Ht. }
  destruct Hac as (sf & b & o & d & text & seps & Hac).
  exists sf, b, o, d, text, seps. split; [exact Hac|].
  rewrite (scanner_read_unfold _ _ _ _ _ _ _ _ _ _ Hac) in H.
  destruct (length text <=? o)%nat; [injection H as <- _ _; left; reflexivity|].
  cbv zeta in H. destruct (copy_to_user _ _ _ _) as [[out'|]|];
    [ injection H as <- _ _; right; reflexivity
    | injection H as <- _ _; left; reflexivity
    | discriminate ].
Qed.

Lemma wf_scanner_read st f count writable st' r out :
  wf st -> scanner_read st f count writable = Some (st', r, out) -> wf st'.
Proof.
  intros Hwf H.
  destruct (scanner_read_inv _ _ _ _ _ _ _ Hwf H)
    as (sf & b & o & d & text & seps & Hac & [->| ->]); [exact Hwf|].
  apply (wf_advance st f sf b o d text seps _ Hwf Hac).
  destruct (token_bounds d text seps o (ac_text _ _ _ _ _ _ _ _ Hac)
              (ac_pos _ _ _ _ _ _ _ _ Hac)) as (_ & H2 & _).
  exact H2.
Qed.

Lemma wf_exec st c st' r :
  wf st -> exec st c = Some (st', r) -> wf st'.
Proof.
  intros Hwf. destruct c; simpl.
  - apply wf_scanner_open, Hwf.
  - apply wf_scanner_release, Hwf.
  - destruct (scanner_read st filp count writable) as [[[st1 r1] out]|] eqn:E;
      [|discriminate].
    intros [= <- <-]. eapply wf_scanner_read; eauto.
  - apply wf_scanner_write, Hwf.
  - apply wf_scanner_ioctl, Hwf.
Qed.

Lemma scanner_init_boot : scanner_init true 0 0 = Some (boot, 0).
Proof.
  unfold scanner_init. cbn [kmalloc empty_heap]. unfold store, boot.
  cbn [cells next_block]. rewrite lookup_insert_eq. simpl.
  rewrite insert_insert_eq. reflexivity.
Qed.

Lemma wf_init st : scanner_init true 0 0 = Some (st, 0) -> wf st.
Proof.
  rewrite scanner_init_boot. intros [= <-]. unfold boot.
  constructor; simpl.
  - intros b Hb. destruct (decide (b = 0%nat)) as [->|Hne]; [lia|].
    rewrite !lookup_insert_ne in Hb by congruence.
    rewrite lookup_empty in Hb. destruct Hb; discriminate.
  - exists 0%nat. split; [reflexivity|]. eexists. reflexivity.
  - left. reflexivity.
  - discriminate.
  - intros f sf Hf. rewrite lookup_empty in Hf. discriminate.
  - intros f g sf sg Hf. rewrite lookup_empty in Hf. discriminate.
  - intros f sf b o Hf. rewrite lookup_empty in Hf. discriminate.
Qed.

(** Every state of a loaded module satisfies the invariant. *)
Lemma reachable_wf st : reachable st -> wf st.
Proof.
  induction 1 as [st H|st c st' r _ IH H].
  - apply wf_init, H.
  - eapply wf_exec; eauto.
Qed.

(** ** Tokens *)

Lemma drop_slices (text : list ascii) (o ts te : nat) :
  (o <= ts <= te)%nat -> (te <= length text)%nat ->
  drop o text = slice text o ts ++ slice text ts te ++ drop te text.
Proof.
  intros H1 H2. rewrite <- (slice_to_end text te), <- !slice_split by lia.
  symmetry. apply slice_to_end.
Qed.

(** C4.  When [scanner_read] is called with the cursor at offset [o] of the
    buffer, the rest of the buffer splits as [skipped ++ token ++ rest]:
    [skipped] consists of separators only, [token] of other bytes only, and
    [token] is followed by a separator or by the end of the buffer.  The
    token is empty only when the skipped separators reach the end of the
    buffer, and then the read returns 0 (end of stream); so runs of
    separators never yield an empty token.  With no separators at all the
    token is the whole rest of the buffer.  A read with room for the token
    returns exactly [token] and leaves the cursor behind it. *)
Theorem scanner_read_next_token st f sf b o d text seps :
  at_cursor st f sf b o d text seps ->
  Z.of_nat (length text) < 2 ^ 31 ->
  exists skipped token rest,
    drop o text = skipped ++ token ++ rest
    /\ Forall (fun c => c ∈ seps) skipped
    /\ Forall (fun c => c ∉ seps) token
    /\ (forall c, head rest = Some c -> c ∈ seps)
    /\ (token = [] -> rest = [])
    /\ (seps = [] -> skipped = [] /\ token = drop o text)
    /\ forall count writable,
         Z.of_nat (length token) <= count < 2 ^ 31 ->
         Z.of_nat (length token) <= writable ->
         scanner_read st f count writable =
           Some (advance st f sf
                   (Ptr b (o + length skipped + length token)),
                 Z.of_nat (length token), token)
         /\ (token = [] ->
             scanner_read st f count writable
             = Some (advance st f sf (Ptr b (length text)), 0, [])).
Proof.
  intros Hac Hlen.
  pose proof (ac_text _ _ _ _ _ _ _ _ Hac) as Ht.
  pose proof (ac_pos _ _ _ _ _ _ _ _ Hac) as Ho.
  destruct (token_bounds d text seps o Ht Ho) as (B1 & B2 & B3 & B4 & B5 & B6).
  remember (skip_separators d seps (length text) o) as ts eqn:Ets.
  remember (scan_token d seps (length text) ts) as te eqn:Ete.
  assert (Hlt : length (slice text ts te) = (te - ts)%nat)
    by (apply length_slice; lia).
  assert (Hls : length (slice text o ts) = (ts - o)%nat)
    by (apply length_slice; lia).
  assert (Hend : slice text ts te = [] -> te = length text).
  { intros E. rewrite E in Hlt. simpl in Hlt.
    destruct (decide (ts < length text)%nat) as [Hts|Hts]; [|lia].
    specialize (B6 Hts). lia. }
  exists (slice text o ts), (slice text ts te), (drop te text).
  split; [apply drop_slices; lia|]. split; [exact B3|]. split; [exact B4|].
  split; [|split; [|split]].
  - intros c Hc. apply B5. rewrite head_lookup, lookup_drop in Hc.
    rewrite Nat.add_0_r in Hc. exact Hc.
  - intros E. rewrite (Hend E). apply drop_all.
  - intros ->.
    assert (Hts : ts = o).
    { destruct (slice text o ts) as [|c l] eqn:E.
      - simpl in Hls. lia.
      - apply Forall_cons in B3 as [B3 _]. inversion B3. }
    assert (Hte : te = length text).
    { destruct (decide (te < length text)%nat) as [H|H]; [|lia].
      destruct (lookup_lt_is_Some_2 text te H) as [c Hc].
      specialize (B5 c Hc). inversion B5. }
    rewrite Hts, Hte.
    split; [apply slice_empty | apply slice_to_end].
  - intros count writable Hc Hw. rewrite Hlt, Hls in *.
    pose proof (scanner_read_token st f sf b o d text seps count writable
                  Hac Hlen ltac:(lia)) as Hr.
    cbv zeta in Hr. rewrite <- Ets, <- Ete in Hr.
    rewrite Z.min_l in Hr by lia.
    rewrite Nat2Z.id in Hr.
    replace (take (te - ts) (slice text ts te)) with (slice text ts te) in Hr
      by (symmetry; apply take_ge; lia).
    replace (o + (ts - o) + (te - ts))%nat with te by lia.
    split; [apply Hr; lia|].
    intros E. rewrite Hr by lia. rewrite E. rewrite E in Hlt. simpl in Hlt.
    replace (te - ts)%nat with 0%nat by lia. rewrite (Hend E). reflexivity.
Qed.

Lemma reachable_run st cs st' :
  reachable st -> run st cs = Some st' -> reachable st'.
Proof.
  revert st. induction cs as [|c cs IH]; intros st Hr; simpl.
  - intros [= <-]. exact Hr.
  - destruct (exec st c) as [[st1 r]|] eqn:E; [|discriminate].
    apply IH. eapply reach_step; eauto.
Qed.

Lemma reachable_boot : reachable boot.
Proof. apply reach_init, scanner_init_boot. Qed.

Lemma run_opened : run boot [Open true true 3%nat] = Some opened.
Proof. vm_compute. reflexivity. Qed.

Lemma run_written :
  run opened [Write true 3%nat sample_text 15] = Some written.
Proof. vm_compute. reflexivity. Qed.

Lemma reachable_written : reachable written.
Proof.
  eapply reachable_run; [|apply run_written].
  eapply reachable_run; [apply reachable_boot | apply run_opened].
Qed.

Lemma scanner_read_next_token_witness :
  at_cursor written 3%nat (mkFile (Ptr 2%nat 0) NULL (Ptr 1%nat 0)) 2%nat 0
            (sample_text ++ [NUL]) sample_text default_separators
  /\ exists skipped token rest,
       drop 0 sample_text = skipped ++ token ++ rest
       /\ Forall (fun c => c ∈ default_separators) skipped
       /\ Forall (fun c => c ∉ default_separators) token
       /\ (forall c, head rest = Some c -> c ∈ default_separators)
       /\ (token = [] -> rest = [])
       /\ (default_separators = [] ->
           skipped = [] /\ token = drop 0 sample_text)
       /\ forall count writable,
            Z.of_nat (length token) <= count < 2 ^ 31 ->
            Z.of_nat (length token) <= writable ->
            scanner_read written 3%nat count writable =
              Some (advance written 3%nat
                      (mkFile (Ptr 2%nat 0) NULL (Ptr 1%nat 0))
                      (Ptr 2%nat (0 + length skipped + length token)),
                    Z.of_nat (length token), token)
            /\ (token = [] ->
                scanner_read written 3%nat count writable
                = Some (advance written 3%nat
                          (mkFile (Ptr 2%nat 0) NULL (Ptr 1%nat 0))
                          (Ptr 2%nat (length sample_text)), 0, [])).
Proof.
  assert (Hac : at_cursor written 3%nat
                  (mkFile (Ptr 2%nat 0) NULL (Ptr 1%nat 0)) 2%nat 0
                  (sample_text ++ [NUL]) sample_text default_separators).
  { constructor; [reflexivity .. | simpl; lia]. }
  split; [exact Hac|].
  apply (scanner_read_next_token written 3%nat _ 2%nat 0%nat
           (sample_text ++ [NUL]) sample_text default_separators Hac).
  simpl. lia.
Defined.

(** ** Reading a buffer to its end *)

Lemma until_nul_tail (pre tail : list ascii) :
  until_nul (pre ++ NUL :: tail) = until_nul (pre ++ [NUL]).
Proof.
  induction pre as [|c pre IH]; simpl; [reflexivity|].
  destruct (Ascii.eqb c NUL); [reflexivity|]. rewrite IH. reflexivity.
Qed.

Lemma at_cursor_text st f sf b o d text seps :
  at_cursor st f sf b o d text seps ->
  buffer_text st = Some text /\ position st f = Some o.
Proof.
  intros [Hf Hd Hc Hb Ht Hs Ho]. unfold buffer_text, position.
  rewrite Hd, Hf. simpl. rewrite Hb, drop_0, Hc. auto.
Qed.

Lemma read_pieces_glue b d text seps f cnt wr fuel :
  Z.of_nat (length text) < 2 ^ 31 ->
  Z.of_nat (length text) <= cnt < 2 ^ 31 ->
  Z.of_nat (length text) <= wr ->
  forall st sf o,
    at_cursor st f sf b o d text seps ->
    (length text - o < fuel)%nat ->
    exists ps, read_pieces fuel st f cnt wr = Some ps
               /\ glue ps = drop o text
               /\ Forall (fun p => Forall (fun c => c ∈ seps) p.1
                                   /\ Forall (fun c => c ∉ seps) p.2) ps.
Proof.
  intros Hlen Hcnt Hwr. induction fuel as [|fuel IH]; intros st sf o Hac Hfuel;
    [lia|].
  pose proof (ac_text _ _ _ _ _ _ _ _ Hac) as Ht.
  pose proof (ac_pos _ _ _ _ _ _ _ _ Hac) as Ho.
  destruct (token_bounds d text seps o Ht Ho) as (B1 & B2 & B3 & B4 & _ & B6).
  remember (skip_separators d seps (length text) o) as ts eqn:Ets.
  remember (scan_token d seps (length text) ts) as te eqn:Ete.
  pose proof (scanner_read_token st f sf b o d text seps cnt wr Hac Hlen
                ltac:(lia)) as Hr.
  cbv zeta in Hr. rewrite <- Ets, <- Ete in Hr.
  rewrite Z.min_l, Nat2Z.id in Hr by lia.
  replace (take (te - ts) (slice text ts te)) with (slice text ts te) in Hr
    by (symmetry; apply take_ge; rewrite length_slice; lia).
  specialize (Hr ltac:(lia)).
  destruct (at_cursor_text _ _ _ _ _ _ _ _ Hac) as [Hbt Hpos].
  pose proof (at_cursor_advance _ _ _ _ _ _ _ _ te Hac B2) as Hac'.
  destruct (at_cursor_text _ _ _ _ _ _ _ _ Hac') as [_ Hpos'].
  cbn [read_pieces]. rewrite Hr, Hbt, Hpos, Hpos'.
  rewrite length_slice by lia.
  replace (te - (te - ts))%nat with ts by lia.
  destruct (Z.of_nat (te - ts) <=? 0) eqn:E.
  - apply Z.leb_le in E. assert (te = ts) by lia.
    assert (ts = length text).
    { destruct (decide (ts < length text)%nat) as [H1|H1]; [|lia].
      specialize (B6 H1). lia. }
    eexists. split; [reflexivity|]. split.
    + unfold glue. cbn [map concat fst snd].
      rewrite H, slice_empty, !app_nil_r.
      rewrite H0. apply slice_to_end.
    + apply Forall_cons. split; [split; assumption | apply Forall_nil_2].
  - apply Z.leb_gt in E.
    destruct (IH _ _ te Hac' ltac:(lia)) as (ps & Hps & Hg & Hall).
    rewrite Hps. eexists. split; [reflexivity|]. split.
    + unfold glue in *. cbn [map concat fst snd].
      rewrite Hg, <- app_assoc. symmetry. apply drop_slices; lia.
    + apply Forall_cons. split; [split; assumption | exact Hall].
Qed.

(** A successful write, spelled out. *)
Lemma scanner_write_ok st f ubuf count st' :
  wf st -> 0 <= count ->
  scanner_write true st f ubuf count = Some (st', count) ->
  exists sf tail seps,
    files st !! f = Some sf
    /\ st' = mkKernel
               (Heap (<[next_block (mem st) :=
                          take (Z.to_nat count) ubuf ++ NUL :: tail]>
                        (released (data (scanner_device st))
                                  (cells (mem st))))
                     (S (next_block (mem st))))
               (mkDevice (dev_separators (scanner_device st))
                         (Ptr (next_block (mem st)) 0))
               (<[f := set_current_token sf (Ptr (next_block (mem st)) 0)]>
                  (files st))
    /\ forall text,
         until_nul (take (Z.to_nat count) ubuf ++ [NUL]) = Some text ->
         at_cursor st' f (set_current_token sf (Ptr (next_block (mem st)) 0))
                   (next_block (mem st)) 0
                   (take (Z.to_nat count) ubuf ++ NUL :: tail) text seps.
Proof.
  intros Hwf Hcount H.
  pose proof (wf_scanner_write _ _ _ _ _ _ _ Hwf H) as Hwf'.
  destruct (scanner_write_inv _ _ _ _ _ _ _ Hwf H) as (sf & Hf & Hcases).
  destruct Hcases as [(E & _)|[(_ & _ & E & _)|(_ & _ & _ & tail & Est)]];
    [discriminate | unfold EFAULT in E; lia |].
  assert (Hf' : files st' !! f
                = Some (set_current_token sf (Ptr (next_block (mem st)) 0)))
    by (rewrite Est; apply lookup_insert_eq).
  destruct (wf_seps st' Hwf' f _ Hf') as ((bs & Ebs & [seps Hs]) & _).
  exists sf, tail, seps. split; [exact Hf|]. split; [exact Est|].
  intros text Ht. constructor.
  - exact Hf'.
  - rewrite Est. reflexivity.
  - reflexivity.
  - rewrite Est. apply lookup_insert_eq.
  - rewrite until_nul_tail. exact Ht.
  - exact Hs.
  - lia.
Qed.

Lemma wf_opened : wf opened.
Proof.
  apply reachable_wf.
  eapply reachable_run; [apply reachable_boot | apply run_opened].
Qed.

(** C5, amended.  Let [B] be a byte sequence without NUL, written to the
    device through an open file.  Reading then to the end of the stream,
    with room for every token, the separator runs the cursor passes over
    and the tokens returned, concatenated in order, are exactly [B]; every
    run passed over consists of separators and every token of
    non-separators. *)
Theorem read_pieces_reconstruct st f B st' cnt wr fuel :
  wf st ->
  NUL ∉ B ->
  Z.of_nat (length B) < 2 ^ 31 ->
  scanner_write true st f B (Z.of_nat (length B))
    = Some (st', Z.of_nat (length B)) ->
  Z.of_nat (length B) <= cnt < 2 ^ 31 ->
  Z.of_nat (length B) <= wr ->
  (length B < fuel)%nat ->
  exists ps seps,
    separators_of st' f = Some seps
    /\ read_pieces fuel st' f cnt wr = Some ps
    /\ glue ps = B
    /\ Forall (fun p => Forall (fun c => c ∈ seps) p.1
                        /\ Forall (fun c => c ∉ seps) p.2) ps.
Proof.
  intros Hwf Hnul Hlen Hw Hcnt Hwr Hfuel.
  destruct (scanner_write_ok st f B (Z.of_nat (length B)) st' Hwf
              ltac:(lia) Hw) as (sf & tail & seps & Hf & Est & Hac).
  rewrite Nat2Z.id, take_ge in Hac by lia.
  specialize (Hac B (until_nul_app B [] Hnul)).
  destruct (read_pieces_glue _ _ B seps f cnt wr fuel Hlen Hcnt Hwr
              _ _ 0%nat Hac ltac:(lia)) as (ps & Hps & Hg & Hall).
  exists ps, seps. split; [|auto].
  unfold separators_of. rewrite (ac_file _ _ _ _ _ _ _ _ Hac). simpl.
  apply (ac_seps _ _ _ _ _ _ _ _ Hac).
Qed.

Lemma read_pieces_reconstruct_witness :
  exists ps seps,
    separators_of written 3%nat = Some seps
    /\ read_pieces 16 written 3%nat 1023 1023 = Some ps
    /\ glue ps = sample_text
    /\ Forall (fun p => Forall (fun c => c ∈ seps) p.1
                        /\ Forall (fun c => c ∉ seps) p.2) ps.
Proof.
  apply (read_pieces_reconstruct opened 3%nat sample_text written 1023 1023
           16 wf_opened).
  - unfold sample_text. simpl. not_in_list.
  - simpl. lia.
  - vm_compute. reflexivity.
  - simpl. lia.
  - simpl. lia.
  - simpl. lia.
Defined.

(** C5 as stated fails for a byte sequence that contains a NUL: of the
    three bytes written, reading to the end of the stream yields the
    first only. *)
Lemma read_pieces_stop_at_nul :
  let B := ["a"; NUL; "b"]%char in
  exists st',
    scanner_write true opened 3%nat B 3 = Some (st', 3)
    /\ read_pieces 3 st' 3%nat 1023 1023
       = Some [([], ["a"%char]); ([], [])]
    /\ glue [([], ["a"%char]); ([], [])] <> B.
Proof.
  eexists. split; [vm_compute; reflexivity|].
  split; [vm_compute; reflexivity | discriminate].
Qed.

(** ** Separators are private to each open file *)

Lemma released_lookup_ne (p : ptr) (c : gmap block (list ascii)) (b : block) :
  (forall o, p <> Ptr b o) -> released p c !! b = c !! b.
Proof.
  intros H. destruct p as [|b' o]; simpl; [reflexivity|].
  apply lookup_delete_ne. intros ->. apply (H o). reflexivity.
Qed.

(** The separators of [g], read in a heap that agrees with the old one on
    the block that holds them. *)
Lemma separators_of_frame st st' g sg :
  wf st -> files st !! g = Some sg -> files st' !! g = Some sg ->
  (forall b, separators sg = Ptr b 0 ->
             cells (mem st') !! b = cells (mem st) !! b) ->
  separators_of st' g = separators_of st g.
Proof.
  intros Hwf Hg Hg' Hfr. unfold separators_of. rewrite Hg, Hg'. simpl.
  destruct (wf_seps st Hwf g sg Hg) as ((b & Eb & _) & _).
  rewrite Eb. apply cstring_frame, Hfr, Eb.
Qed.

Lemma scanner_write_separators ok st f ubuf count st' r g :
  wf st ->
  scanner_write ok st f ubuf count = Some (st', r) ->
  separators_of st' g = separators_of st g.
Proof.
  intros Hwf H.
  destruct (scanner_write_inv _ _ _ _ _ _ _ Hwf H) as (sf & Hf & Hcases).
  destruct (files st !! g) as [sg|] eqn:Hg.
  - assert (Hblock : forall b, separators sg = Ptr b 0 ->
              released (data (scanner_device st)) (cells (mem st)) !! b
              = cells (mem st) !! b
              /\ b <> next_block (mem st)).
    { intros b Eb. destruct (wf_seps st Hwf g sg Hg) as (Hs & Hd & _).
      split.
      - apply released_lookup_ne. intros o Eo. rewrite Eb in Hd.
        destruct (wf_data_cases st Hwf) as [E|(b' & E & _)]; congruence.
      - destruct (string_at_lt st _ b 0 Hwf Hs Eb) as (_ & Hlt & _). lia. }
    destruct Hcases
      as [(_ & _ & ->)|[(_ & _ & _ & ->)|(_ & _ & _ & tail & ->)]].
    + apply (separators_of_frame st _ g sg Hwf Hg); [exact Hg|].
      intros b Eb. apply (Hblock b Eb).
    + apply (separators_of_frame st _ g sg Hwf Hg); [exact Hg|].
      intros b Eb. apply (Hblock b Eb).
    + destruct (decide (g = f)) as [->|Hne].
      * assert (sg = sf) as -> by congruence.
        unfold separators_of. simpl. rewrite lookup_insert_eq, Hg. simpl.
        destruct (wf_seps st Hwf f sf Hg) as ((b & Eb & _) & _).
        rewrite Eb. apply cstring_frame. simpl.
        destruct (Hblock b Eb) as [H1 H2].
        rewrite lookup_insert_ne by congruence. exact H1.
      * apply (separators_of_frame st _ g sg Hwf Hg).
        { simpl. rewrite lookup_insert_ne by congruence. exact Hg. }
        intros b Eb. simpl. destruct (Hblock b Eb) as [H1 H2].
        rewrite lookup_insert_ne by congruence. exact H1.
  - assert (Hg' : files st' !! g = None).
    { destruct Hcases
        as [(_ & _ & ->)|[(_ & _ & _ & ->)|(_ & _ & _ & tail & ->)]];
        simpl; try exact Hg.
      rewrite lookup_insert_ne; [exact Hg | congruence]. }
    unfold separators_of. rewrite Hg, Hg'. reflexivity.
Qed.

(** One read, with the token boundaries given. *)
Lemma read_step st f sf b o d text seps count writable ts te :
  at_cursor st f sf b o d text seps ->
  Z.of_nat (length text) < 2 ^ 31 ->
  0 <= count < 2 ^ 31 ->
  skip_separators d seps (length text) o = ts ->
  scan_token d seps (length text) ts = te ->
  Z.of_nat (te - ts) <= count ->
  Z.of_nat (te - ts) <= writable ->
  scanner_read st f count writable
    = Some (advance st f sf (Ptr b te), Z.of_nat (te - ts),
            slice text ts te)
  /\ at_cursor (advance st f sf (Ptr b te)) f
               (set_current_token sf (Ptr b te)) b te d text seps.
Proof.
  intros Hac Hlen Hcount Ets Ete Hc Hw.
  destruct (token_bounds d text seps o (ac_text _ _ _ _ _ _ _ _ Hac)
              (ac_pos _ _ _ _ _ _ _ _ Hac)) as (B1 & B2 & _).
  rewrite Ets in B1, B2. rewrite Ete in B1, B2.
  pose proof (scanner_read_token st f sf b o d text seps count writable
                Hac Hlen Hcount) as Hr.
  cbv zeta in Hr. rewrite Ets, Ete in Hr.
  rewrite Z.min_l, Nat2Z.id in Hr by lia.
  replace (take (te - ts) (slice text ts te)) with (slice text ts te) in Hr
    by (symmetry; apply take_ge; rewrite length_slice; lia).
  split; [apply Hr; lia | apply (at_cursor_advance _ _ _ _ o); assumption].
Qed.

(** C6.  After the 15 bytes "This is a test." are written through an open
    file that has the default separators, five reads in a row through
    that file return "This", "is", "a", "test." and then 0 bytes (end of
    stream). *)
Theorem reads_this_is_a_test st f st' count writable :
  wf st ->
  separators_of st f = Some default_separators ->
  scanner_write true st f sample_text 15 = Some (st', 15) ->
  5 <= count < 2 ^ 31 ->
  5 <= writable ->
  reads 5 st' f count writable
  = Some [(4, bytes "This"); (2, bytes "is"); (1, bytes "a");
          (5, bytes "test."); (0, [])].
Proof.
  intros Hwf Hseps Hw Hcount Hwr.
  destruct (scanner_write_ok st f sample_text 15 st' Hwf ltac:(lia) Hw)
    as (sf & tail & seps & Hf & Est & Hac).
  specialize (Hac sample_text eq_refl).
  assert (seps = default_separators) as ->.
  { pose proof (scanner_write_separators _ _ _ _ _ _ _ f Hwf Hw) as E.
    rewrite Hseps in E. unfold separators_of in E.
    rewrite (ac_file _ _ _ _ _ _ _ _ Hac) in E. cbn [mbind option_bind] in E.
    rewrite (ac_seps _ _ _ _ _ _ _ _ Hac) in E. congruence. }
  change (take (Z.to_nat 15) sample_text) with sample_text in Hac.
  assert (Hlen : Z.of_nat (length sample_text) < 2 ^ 31) by (simpl; lia).
  destruct (read_step _ _ _ _ _ _ _ _ count writable 0%nat 4%nat Hac Hlen)
    as [R1 Hac1]; [lia | reflexivity | reflexivity | simpl; lia ..|].
  destruct (read_step _ _ _ _ _ _ _ _ count writable 5%nat 7%nat Hac1 Hlen)
    as [R2 Hac2]; [lia | reflexivity | reflexivity | simpl; lia ..|].
  destruct (read_step _ _ _ _ _ _ _ _ count writable 8%nat 9%nat Hac2 Hlen)
    as [R3 Hac3]; [lia | reflexivity | reflexivity | simpl; lia ..|].
  destruct (read_step _ _ _ _ _ _ _ _ count writable 10%nat 15%nat Hac3 Hlen)
    as [R4 Hac4]; [lia | reflexivity | reflexivity | simpl; lia ..|].
  destruct (read_step _ _ _ _ _ _ _ _ count writable 15%nat 15%nat Hac4 Hlen)
    as [R5 _]; [lia | reflexivity | reflexivity | simpl; lia ..|].
  cbn [reads]. rewrite R1, R2, R3, R4, R5. reflexivity.
Qed.

Lemma reads_this_is_a_test_witness :
  reads 5 written 3%nat 1023 1023
  = Some [(4, bytes "This"); (2, bytes "is"); (1, bytes "a");
          (5, bytes "test."); (0, [])].
Proof.
  apply (reads_this_is_a_test opened 3%nat written 1023 1023 wf_opened).
  - vm_compute. reflexivity.
  - vm_compute. reflexivity.
  - lia.
  - lia.
Defined.

(** C7.  [scanner_ioctl] on file [f] leaves every other open file as it
    was, cursor and separators, and leaves the buffer and the cursor of
    [f] alone.  When the new separators cannot be copied in completely the
    call fails, and after any failed call [f] still has the separators it
    had.  After a successful call the separators of [f] are the bytes that
    were copied in. *)
Theorem scanner_ioctl_separators ok st f cmd arg ubuf st' r :
  wf st ->
  scanner_ioctl ok st f cmd arg ubuf = Some (st', r) ->
  (forall g, g <> f ->
     files st' !! g = files st !! g
     /\ separators_of st' g = separators_of st g)
  /\ (exists sf sf', files st !! f = Some sf /\ files st' !! f = Some sf'
                     /\ current_token sf' = current_token sf)
  /\ scanner_device st' = scanner_device st
  /\ buffer_text st' = buffer_text st
  /\ (copy_from_user_ok ubuf arg = false -> r <> 0)
  /\ (r <> 0 ->
      files st' !! f = files st !! f
      /\ separators_of st' f = separators_of st f)
  /\ (r = 0 ->
      separators_of st' f = until_nul (take (Z.to_nat arg) ubuf ++ [NUL])).
Proof.
  intros Hwf H.
  destruct (scanner_ioctl_inv _ _ _ _ _ _ _ _ Hwf H) as (sf & Hf & Hcases).
  assert (Hsame : forall st1,
            files st1 = files st -> scanner_device st1 = scanner_device st ->
            cells (mem st1) = cells (mem st) ->
            (forall g, separators_of st1 g = separators_of st g)
            /\ buffer_text st1 = buffer_text st).
  { intros st1 E1 E2 E3. unfold separators_of, buffer_text, cstring.
    rewrite E1, E2, E3. split; reflexivity. }
  destruct Hcases as [(-> & Hr)|[(Hc & -> & ->)|(Hc & -> & tail & ->)]].
  - repeat split; auto.
    + exists sf, sf. auto.
    + destruct Hr as [-> | ->]; discriminate.
    + intros ->. destruct Hr; discriminate.
  - destruct (Hsame (mkKernel (Heap (cells (mem st)) (S (next_block (mem st))))
                       (scanner_device st) (files st))
                eq_refl eq_refl eq_refl) as [Hs Hb].
    repeat split; auto.
    + exists sf, sf. auto.
    + discriminate.
  - set (nb := next_block (mem st)).
    set (new := take (Z.to_nat arg) ubuf ++ NUL :: tail).
    destruct (wf_seps st Hwf f sf Hf) as (Hs & Hd & Hv).
    pose proof Hs as (bs & Ebs & Hbs).
    destruct (string_at_lt st _ bs 0 Hwf Hs Ebs) as (_ & Hlt & _).
    fold nb in Hlt.
    rewrite Ebs. cbn [released].
    assert (Hcell : forall b, b <> bs -> b <> nb ->
              delete bs (<[nb:=new]> (cells (mem st))) !! b
              = cells (mem st) !! b).
    { intros b H1 H2. rewrite lookup_delete_ne, lookup_insert_ne; congruence. }
    split; [|split; [|split; [|split; [|split; [|split]]]]].
    + intros g Hne. cbn [files]. rewrite lookup_insert_ne by congruence.
      split; [reflexivity|].
      destruct (files st !! g) as [sg|] eqn:Hg.
      * apply (separators_of_frame st _ g sg Hwf Hg).
        { cbn [files]. rewrite lookup_insert_ne by congruence. exact Hg. }
        intros b Eb. cbn [mem cells].
        destruct (wf_seps st Hwf g sg Hg) as (Hsg & _).
        destruct (string_at_lt st _ b 0 Hwf Hsg Eb) as (_ & Hb & _).
        apply Hcell; [|unfold nb; lia].
        intros ->. apply Hne.
        apply (wf_seps_inj st Hwf g f sg sf Hg Hf). congruence.
      * unfold separators_of. cbn [files].
        rewrite lookup_insert_ne, Hg by congruence. reflexivity.
    + exists sf, (set_separators sf (Ptr nb 0)).
      split; [exact Hf|]. split; [apply lookup_insert_eq | reflexivity].
    + reflexivity.
    + unfold buffer_text. cbn [scanner_device mem].
      destruct (wf_data_cases st Hwf) as [E|(b & E & Hb & _)]; rewrite E;
        [reflexivity|].
      apply cstring_frame. cbn [cells]. apply Hcell; [|unfold nb; lia].
      intros ->. rewrite Ebs in Hd. congruence.
    + rewrite Hc. discriminate.
    + intros Hr. exfalso. apply Hr. reflexivity.
    + intros _. unfold separators_of. cbn [files mem].
      rewrite lookup_insert_eq. cbn [mbind option_bind set_separators separators].
      unfold cstring. cbn [cells].
      rewrite lookup_delete_ne, lookup_insert_eq by lia.
      rewrite drop_0. apply until_nul_tail.
Qed.

Lemma run_two_files : run boot two_files_calls = Some two_files.
Proof. vm_compute. reflexivity. Qed.

Lemma wf_two_files : wf two_files.
Proof.
  apply reachable_wf.
  eapply reachable_run; [apply reachable_boot | apply run_two_files].
Qed.

Lemma scanner_ioctl_separators_witness :
  scanner_ioctl true two_files 3%nat SCANNER_SET_SEPARATORS 1 (bytes ",")
    = Some (two_files_comma, 0)
  /\ files two_files_comma !! 4%nat = files two_files !! 4%nat
  /\ separators_of two_files_comma 4%nat = Some default_separators
  /\ separators_of two_files_comma 3%nat = Some (bytes ",").
Proof.
  assert (E : scanner_ioctl true two_files 3%nat SCANNER_SET_SEPARATORS 1
                (bytes ",") = Some (two_files_comma, 0))
    by (vm_compute; reflexivity).
  destruct (scanner_ioctl_separators true two_files 3%nat
              SCANNER_SET_SEPARATORS 1 (bytes ",") two_files_comma 0
              wf_two_files E) as (Hother & _ & _ & _ & _ & _ & Hnew).
  split; [exact E|].
  destruct (Hother 4%nat ltac:(discriminate)) as [H1 H2].
  split; [exact H1|]. split; [rewrite H2; reflexivity|].
  rewrite (Hnew eq_refl). reflexivity.
Defined.

(** ** Cursors only move forward *)

Lemma cursor_le_refl (p : ptr) : cursor_le p p.
Proof. destruct p; simpl; auto. Qed.

(** C10.  Along any call other than a write, whoever makes it, the cursor
    of an open file stays in the same block and does not move backwards
    (a read through the file itself is the only call that moves it), and a
    cursor into the current buffer is never beyond the end of the text. *)
Theorem cursor_monotone_between_writes st c st' r g sf sf' :
  wf st ->
  exec st c = Some (st', r) ->
  is_write c = false ->
  opens c g = false ->
  files st !! g = Some sf ->
  files st' !! g = Some sf' ->
  cursor_le (current_token sf) (current_token sf')
  /\ forall b o text,
       data (scanner_device st') = Ptr b 0 ->
       current_token sf' = Ptr b o ->
       buffer_text st' = Some text ->
       (o <= length text)%nat.
Proof.
  intros Hwf He Hw Ho Hg Hg'.
  pose proof (wf_exec _ _ _ _ Hwf He) as Hwf'.
  split.
  2:{ intros b o text Hd Hc Ht. unfold buffer_text in Ht. rewrite Hd in Ht.
      apply (wf_cursor st' Hwf' g sf' b o Hg' Hc); assumption. }
  assert (Hrefl : sf' = sf -> cursor_le (current_token sf) (current_token sf'))
    by (intros ->; apply cursor_le_refl).
  destruct c as [fo so f|f|f count writable|k f ubuf count|k f cmd arg ubuf];
    simpl in He, Hw, Ho; [| | | discriminate |].
  - apply Nat.eqb_neq in Ho.
    destruct (scanner_open_inv _ _ _ _ _ _ He)
      as [(-> & _)|(_ & _ & _ & s & _ & ->)]; apply Hrefl.
    + congruence.
    + cbn [files] in Hg'. rewrite lookup_insert_ne in Hg' by congruence.
      congruence.
  - destruct (scanner_release_inv _ _ _ _ He)
      as (_ & [[_ ->]|(sf0 & _ & ->)]); apply Hrefl.
    + congruence.
    + cbn [files] in Hg'. apply lookup_delete_Some in Hg' as [_ Hg'].
      congruence.
  - destruct (scanner_read st f count writable) as [[[st1 r1] out]|] eqn:E;
      [|discriminate].
    injection He as -> ->.
    destruct (scanner_read_inv _ _ _ _ _ _ _ Hwf E)
      as (sf0 & b & o & d & text & seps & Hac & [->| ->]);
      [apply Hrefl; congruence|].
    unfold advance in Hg'. cbn [files] in Hg'.
    destruct (decide (g = f)) as [->|Hne].
    + rewrite lookup_insert_eq in Hg'. injection Hg' as <-.
      rewrite (ac_file _ _ _ _ _ _ _ _ Hac) in Hg. injection Hg as <-.
      rewrite (ac_cursor _ _ _ _ _ _ _ _ Hac). simpl.
      split; [reflexivity|].
      destruct (token_bounds d text seps o (ac_text _ _ _ _ _ _ _ _ Hac)
                  (ac_pos _ _ _ _ _ _ _ _ Hac)) as (B1 & _).
      lia.
    + rewrite lookup_insert_ne in Hg' by congruence.
      apply Hrefl. congruence.
  - destruct (scanner_ioctl_inv _ _ _ _ _ _ _ _ Hwf He) as (sf0 & Hf & Hcases).
    destruct Hcases as [(-> & _)|[(_ & _ & ->)|(_ & _ & tail & ->)]].
    + apply Hrefl. congruence.
    + apply Hrefl. cbn [files] in Hg'. congruence.
    + cbn [files] in Hg'. destruct (decide (g = f)) as [->|Hne].
      * rewrite lookup_insert_eq in Hg'. injection Hg' as <-.
        assert (sf0 = sf) as -> by congruence. simpl. apply cursor_le_refl.
      * rewrite lookup_insert_ne in Hg' by congruence.
        apply Hrefl. congruence.
Qed.

Lemma cursor_monotone_between_writes_witness :
  exec written (Read 3%nat 1023 1023)
    = Some (advance written 3%nat (mkFile (Ptr 2%nat 0) NULL (Ptr 1%nat 0))
              (Ptr 2%nat 4), 4)
  /\ cursor_le (Ptr 2%nat 0) (Ptr 2%nat 4)
  /\ forall b o text,
       Ptr 2%nat 0 = Ptr b 0 ->
       Ptr 2%nat 4 = Ptr b o ->
       Some sample_text = Some text ->
       (o <= length text)%nat.
Proof.
  assert (E : exec written (Read 3%nat 1023 1023)
              = Some (advance written 3%nat
                        (mkFile (Ptr 2%nat 0) NULL (Ptr 1%nat 0))
                        (Ptr 2%nat 4), 4))
    by (vm_compute; reflexivity).
  split; [exact E|].
  apply (cursor_monotone_between_writes written (Read 3%nat 1023 1023) _ 4
           3%nat (mkFile (Ptr 2%nat 0) NULL (Ptr 1%nat 0))
           (mkFile (Ptr 2%nat 4) NULL (Ptr 1%nat 0))
           (reachable_wf _ reachable_written) E);
    reflexivity.
Defined.

(** ** Writes and the cursors of other files *)

(** C1, amended.  The driver keeps no generation counter.  A successful
    write through file [f] releases the old buffer, installs the new text
    in a block of its own, puts the cursor of [f], and only that one, at
    offset 0 of the new buffer, and leaves the cursor of every other open
    file and the separators of every open file as they were.  The next
    read through [f] then returns the first token of the new text: the
    text splits as [skipped ++ token ++ rest] with [skipped] separators
    only, [token] other bytes only and followed by a separator or the end
    of the text; the token is empty only when no byte is left behind the
    separators, and with no separators it is the whole text. *)
Theorem scanner_write_resets_writer st f ubuf count st' :
  wf st -> 0 <= count ->
  scanner_write true st f ubuf count = Some (st', count) ->
  let nb := next_block (mem st) in
  data (scanner_device st') = Ptr nb 0
  /\ cells (mem st) !! nb = None
  /\ (forall b, data (scanner_device st) = Ptr b 0 ->
                cells (mem st') !! b = None)
  /\ (exists sf', files st' !! f = Some sf' /\ current_token sf' = Ptr nb 0)
  /\ (forall g, g <> f -> files st' !! g = files st !! g)
  /\ (forall g, separators_of st' g = separators_of st g)
  /\ exists text seps,
       buffer_text st' = Some text
       /\ until_nul (take (Z.to_nat count) ubuf ++ [NUL]) = Some text
       /\ separators_of st' f = Some seps
       /\ (Z.of_nat (length text) < 2 ^ 31 ->
           exists skipped token rest,
             text = skipped ++ token ++ rest
             /\ Forall (fun c => c ∈ seps) skipped
             /\ Forall (fun c => c ∉ seps) token
             /\ (forall c, head rest = Some c -> c ∈ seps)
             /\ (token = [] -> rest = [])
             /\ (seps = [] -> skipped = [] /\ token = text)
             /\ forall cnt wr,
                  Z.of_nat (length token) <= cnt < 2 ^ 31 ->
                  Z.of_nat (length token) <= wr ->
                  exists st'',
                    scanner_read st' f cnt wr
                    = Some (st'', Z.of_nat (length token), token)).
Proof.
  intros Hwf Hcount Hw nb.
  destruct (scanner_write_ok st f ubuf count st' Hwf Hcount Hw)
    as (sf & tail & seps & Hf & Est & Hac).
  fold nb in Est, Hac.
  destruct (until_nul_total (take (Z.to_nat count) ubuf) []) as [text Ht].
  specialize (Hac text Ht).
  split; [rewrite Est; reflexivity|].
  split; [apply wf_next_free, Hwf|].
  split.
  { intros b Hb. rewrite Est. cbn [mem cells]. rewrite Hb. cbn [released].
    destruct (wf_data_cases st Hwf) as [E|(b' & E & Hlt & _)]; [congruence|].
    assert (b' = b) as -> by congruence.
    rewrite lookup_insert_ne by (unfold nb; lia). apply lookup_delete_eq. }
  split.
  { eexists. split; [apply (ac_file _ _ _ _ _ _ _ _ Hac) | reflexivity]. }
  split.
  { intros g Hne. rewrite Est. cbn [files].
    apply lookup_insert_ne. congruence. }
  split.
  { intros g. apply (scanner_write_separators _ _ _ _ _ _ _ g Hwf Hw). }
  exists text, seps.
  destruct (at_cursor_text _ _ _ _ _ _ _ _ Hac) as [Hbt _].
  split; [exact Hbt|]. split; [exact Ht|]. split.
  { unfold separators_of. rewrite (ac_file _ _ _ _ _ _ _ _ Hac).
    apply (ac_seps _ _ _ _ _ _ _ _ Hac). }
  intros Hlen.
  destruct (token_bounds _ text seps 0 (ac_text _ _ _ _ _ _ _ _ Hac)
              (ac_pos _ _ _ _ _ _ _ _ Hac)) as (B1 & B2 & B3 & B4 & B5 & B6).
  remember (skip_separators _ seps (length text) 0) as ts eqn:Ets.
  remember (scan_token _ seps (length text) ts) as te eqn:Ete.
  assert (Hlt : length (slice text ts te) = (te - ts)%nat)
    by (apply length_slice; lia).
  assert (Hls : length (slice text 0 ts) = (ts - 0)%nat)
    by (apply length_slice; lia).
  exists (slice text 0 ts), (slice text ts te), (drop te text).
  split; [rewrite <- (drop_0 text) at 1; apply drop_slices; lia|].
  split; [exact B3|]. split; [exact B4|].
  split.
  { intros c Hc. apply B5. rewrite head_lookup, lookup_drop in Hc.
    rewrite Nat.add_0_r in Hc. exact Hc. }
  split.
  { intros E. rewrite E in Hlt. simpl in Hlt.
    destruct (decide (ts < length text)%nat) as [Hts|Hts];
      [specialize (B6 Hts); lia|].
    apply drop_ge. lia. }
  split.
  { intros ->.
    assert (Hts : ts = 0%nat).
    { destruct (slice text 0 ts) as [|c l] eqn:E.
      - simpl in Hls. lia.
      - apply Forall_cons in B3 as [B3 _]. inversion B3. }
    assert (Hte : te = length text).
    { destruct (decide (te < length text)%nat) as [H|H]; [|lia].
      destruct (lookup_lt_is_Some_2 text te H) as [c Hc].
      specialize (B5 c Hc). inversion B5. }
    rewrite Hts, Hte.
    split; [apply slice_empty|].
    rewrite <- (drop_0 text) at 2. apply slice_to_end. }
  intros cnt wr Hcnt Hwr. rewrite length_slice in Hcnt, Hwr by lia.
  destruct (read_step _ _ _ _ _ _ _ _ cnt wr ts te Hac Hlen)
    as [Hr _]; [lia | congruence | congruence | lia | lia |].
  rewrite length_slice by lia. eexists. exact Hr.
Qed.

Lemma scanner_write_resets_writer_witness :
  data (scanner_device two_files) = Ptr 4%nat 0
  /\ (exists sf', files two_files !! 3%nat = Some sf'
                  /\ current_token sf' = Ptr 4%nat 0)
  /\ files two_files !! 4%nat
     = Some (mkFile (Ptr 3%nat 1) NULL (Ptr 2%nat 0)).
Proof.
  pose (before := mkKernel
          (Heap (<[3%nat := bytes "x y" ++ [NUL]]>
                   (<[2%nat := default_separators ++ [NUL]]>
                      (<[1%nat := default_separators ++ [NUL]]>
                         (<[0%nat := default_separators ++ [NUL]]> ∅))))
                4%nat)
          (mkDevice (Ptr 0%nat 0) (Ptr 3%nat 0))
          (<[4%nat := mkFile (Ptr 3%nat 1) NULL (Ptr 2%nat 0)]>
             (<[3%nat := mkFile NULL NULL (Ptr 1%nat 0)]> ∅))).
  assert (Hrun : run boot (take 4 two_files_calls) = Some before)
    by (vm_compute; reflexivity).
  assert (Hwf : wf before).
  { apply reachable_wf.
    eapply reachable_run; [apply reachable_boot | exact Hrun]. }
  assert (E : scanner_write true before 3%nat (bytes "a,b,c") 5
              = Some (two_files, 5)) by (vm_compute; reflexivity).
  destruct (scanner_write_resets_writer before 3%nat (bytes "a,b,c") 5
              two_files Hwf ltac:(lia) E)
    as (H1 & _ & _ & H4 & H5 & _ & _).
  split; [exact H1|]. split; [exact H4|].
  rewrite (H5 4%nat ltac:(discriminate)). reflexivity.
Defined.

(** C1 as stated fails: in [two_files] the cursor of file 4 refers to the
    buffer that the write through file 3 released, and the read through
    file 4 has no defined result; it is not resynchronised with the new
    buffer. *)
Lemma stale_cursor_read_undefined :
  run boot two_files_calls = Some two_files
  /\ data (scanner_device two_files) = Ptr 4%nat 0
  /\ files two_files !! 4%nat
     = Some (mkFile (Ptr 3%nat 1) NULL (Ptr 2%nat 0))
  /\ cells (mem two_files) !! 3%nat = None
  /\ scanner_read two_files 4%nat 1023 1023 = None.
Proof.
  split; [apply run_two_files|]. repeat split; vm_compute; reflexivity.
Qed.

(** ** Defects *)

(** X10.  [scanner_open] leaves [current_token] null, and [scanner_read] starts
    from [current_token]: a file that has not written cannot be read. *)
Lemma scanner_open_cursor_null file_ok sep_ok st f st' :
  scanner_open file_ok sep_ok st f = Some (st', 0) ->
  exists sf,
    files st' !! f = Some sf
    /\ current_token sf = NULL
    /\ next_char sf = data (scanner_device st)
    /\ forall count writable, scanner_read st' f count writable = None.
Proof.
  intros H.
  destruct (scanner_open_inv _ _ _ _ _ _ H)
    as [(_ & E & _)|(_ & _ & _ & s & _ & ->)]; [discriminate|].
  eexists. split; [apply lookup_insert_eq|]. split; [reflexivity|].
  split; [reflexivity|].
  intros count writable. unfold scanner_read. cbn [files].
  rewrite lookup_insert_eq. cbn [mbind option_bind current_token].
  destruct (strlen _ _); [|reflexivity]. cbn [mbind option_bind].
  destruct (data _); reflexivity.
Qed.

(** C8.  File 4 is opened while the buffer holds "This is a test.": it
    gets the six default separators and [next_char] at the start of the
    buffer, but its cursor [current_token] is null, and its first read has
    no defined result instead of returning "This". *)
Theorem first_read_of_opened_file_undefined :
  exists st',
    scanner_open true true written 4%nat = Some (st', 0)
    /\ files st' !! 4%nat = Some (mkFile NULL (Ptr 2%nat 0) (Ptr 3%nat 0))
    /\ separators_of st' 4%nat = Some default_separators
    /\ buffer_text st' = Some sample_text
    /\ scanner_read st' 4%nat 1023 1023 = None.
Proof.
  eexists. split; [vm_compute; reflexivity|].
  repeat split; vm_compute; reflexivity.
Qed.


(** C2.  With "hello world" in the buffer, reads of at most 2 bytes return
    "he" and then "wo": the rest of the first token, "llo", is never
    returned. *)
Theorem short_read_loses_rest_of_token :
  exists st',
    scanner_write true opened 3%nat (bytes "hello world") 11 = Some (st', 11)
    /\ reads 3 st' 3%nat 2 1023
       = Some [(2, bytes "he"); (2, bytes "wo"); (0, [])].
Proof.
  eexists. split; [vm_compute; reflexivity|].
  vm_compute. reflexivity.
Qed.

(** X16.  A failed write has already released the buffer. *)
Lemma failed_write_loses_buffer ok st f ubuf count st' r :
  wf st -> 0 <= count -> r < 0 ->
  scanner_write ok st f ubuf count = Some (st', r) ->
  data (scanner_device st') = NULL
  /\ buffer_text st' = None
  /\ files st' = files st
  /\ (forall b, data (scanner_device st) = Ptr b 0 ->
                cells (mem st') !! b = None)
  /\ forall g cnt wr, scanner_read st' g cnt wr = None.
Proof.
  intros Hwf Hcount Hr H.
  destruct (scanner_write_inv _ _ _ _ _ _ _ Hwf H) as (sf & Hf & Hcases).
  assert (Hgone : forall b n, data (scanner_device st) = Ptr b 0 ->
            cells (Heap (released (data (scanner_device st)) (cells (mem st)))
                        n) !! b = None).
  { intros b n ->. simpl. apply lookup_delete_eq. }
  assert (Hread : forall st1, data (scanner_device st1) = NULL ->
            forall g cnt wr, scanner_read st1 g cnt wr = None).
  { intros st1 E g cnt wr. unfold scanner_read, strlen. rewrite E.
    destruct (files st1 !! g); reflexivity. }
  destruct Hcases as [(_ & _ & ->)|[(_ & _ & _ & ->)|(_ & _ & E & _)]];
    [| |].
  - split; [reflexivity|]. split; [reflexivity|]. split; [reflexivity|].
    split; [intros b Hb; apply Hgone, Hb | apply Hread; reflexivity].
  - split; [reflexivity|]. split; [reflexivity|]. split; [reflexivity|].
    split; [intros b Hb; apply Hgone, Hb | apply Hread; reflexivity].
  - lia.
Qed.

(** C3.  With "This is a test." in the buffer, a write that fails, for
    lack of memory or because the payload cannot be copied in completely,
    leaves the device without buffer: the old text has been released and
    the cursor of the caller, unchanged, refers to the released block. *)
Theorem failed_write_destroys_buffer :
  buffer_text written = Some sample_text
  /\ (exists st',
        scanner_write false written 3%nat (bytes "new") 3
          = Some (st', - ENOMEM)
        /\ data (scanner_device st') = NULL
        /\ cells (mem st') !! 2%nat = None
        /\ files st' = files written
        /\ scanner_read st' 3%nat 1023 1023 = None)
  /\ (exists st',
        scanner_write true written 3%nat (bytes "ne") 3
          = Some (st', - EFAULT)
        /\ data (scanner_device st') = NULL
        /\ cells (mem st') !! 2%nat = None
        /\ files st' = files written
        /\ scanner_read st' 3%nat 1023 1023 = None).
Proof.
  split; [vm_compute; reflexivity|].
  split; eexists; (split; [vm_compute; reflexivity|]);
    repeat split; vm_compute; reflexivity.
Qed.

(** ** hw5/Scanner.c: reads shorter than the token *)

Section DevRead.
Variables (buf seps : list ascii) (len writable : Z).

Local Abbreviation sep c := (found (strchr seps c) = true).
Local Abbreviation loop fuel pos out :=
  (Scanner.read_loop fuel buf seps (length buf) len writable pos out).

Lemma dev_deref_head (pos : nat) (c : ascii) (l : list ascii) :
  drop pos buf = c :: l ->
  Scanner.deref buf pos = c /\ (pos < length buf)%nat
  /\ drop (S pos) buf = l.
Proof.
  intros H. assert (Hc : buf !! pos = Some c).
  { rewrite <- (Nat.add_0_r pos), <- lookup_drop, H. reflexivity. }
  split; [unfold Scanner.deref; rewrite Hc; reflexivity|].
  split; [apply lookup_lt_Some in Hc; exact Hc|].
  replace (S pos) with (pos + 1)%nat by lia.
  rewrite <- drop_drop, H. reflexivity.
Qed.

(** Separators in front of a token are passed over without output. *)
Lemma read_loop_skip (skipped more : list ascii) :
  Forall (fun c => sep c) skipped ->
  0 < len ->
  forall fuel pos,
    drop pos buf = skipped ++ more ->
    (length skipped <= fuel)%nat ->
    loop fuel pos [] = loop (fuel - length skipped) (pos + length skipped) [].
Proof.
  intros Hs Hlen. induction Hs as [|c skipped Hc _ IH]; intros fuel pos Hd Hf.
  - simpl. rewrite Nat.sub_0_r, Nat.add_0_r. reflexivity.
  - simpl in Hd, Hf. destruct fuel as [|fuel]; [lia|].
    destruct (dev_deref_head pos c _ Hd) as (Hde & Hlt & Hd').
    cbn [Scanner.read_loop]. rewrite Hde, Hc.
    apply Nat.ltb_lt in Hlt. rewrite Hlt.
    replace (Z.of_nat (length (@nil ascii)) <? len) with true
      by (symmetry; apply Z.ltb_lt; simpl; lia).
    cbn [andb length Nat.ltb Nat.leb].
    rewrite (IH fuel (S pos) Hd') by lia.
    simpl. f_equal. lia.
Qed.

(** The bytes of a token are copied out as long as there is room. *)
Lemma read_loop_take (tok : list ascii) :
  Forall (fun c => ~ sep c) tok ->
  forall more fuel pos out,
    drop pos buf = tok ++ more ->
    (length tok <= fuel)%nat ->
    Z.of_nat (length out + length tok) <= len ->
    Z.of_nat (length out + length tok) <= writable ->
    loop fuel pos out
    = loop (fuel - length tok) (pos + length tok) (out ++ tok).
Proof.
  intros Ht. induction Ht as [|c tok Hc _ IH]; intros more fuel pos out Hd Hf
    Hl Hw.
  - simpl. rewrite Nat.sub_0_r, Nat.add_0_r, app_nil_r. reflexivity.
  - simpl in Hd, Hf, Hl, Hw. destruct fuel as [|fuel]; [lia|].
    destruct (dev_deref_head pos c _ Hd) as (Hde & Hlt & Hd').
    cbn [Scanner.read_loop]. rewrite Hde.
    apply Nat.ltb_lt in Hlt. rewrite Hlt.
    replace (Z.of_nat (length out) <? len) with true
      by (symmetry; apply Z.ltb_lt; lia).
    replace (Z.of_nat (length out) <? writable) with true
      by (symmetry; apply Z.ltb_lt; lia).
    destruct (found (strchr seps c)) eqn:E; [congruence|].
    cbn [andb].
    rewrite (IH more fuel (S pos) (out ++ [c]) Hd') by
      (rewrite ?length_app; simpl; lia).
    rewrite <- app_assoc. simpl. f_equal. lia.
Qed.

(** With [len] bytes delivered the loop stops where it is. *)
Lemma read_loop_full (fuel pos : nat) (out : list ascii) :
  len <= Z.of_nat (length out) ->
  loop fuel pos out = (pos, Scanner.Copied out).
Proof.
  intros H. destruct fuel as [|fuel]; [reflexivity|].
  cbn [Scanner.read_loop].
  replace (Z.of_nat (length out) <? len) with false
    by (symmetry; apply Z.ltb_ge; lia).
  rewrite andb_false_r. reflexivity.
Qed.

(** At the end of a token: the buffer ends, a separator follows and is
    consumed, or [len] bytes have been delivered. *)
Lemma read_loop_end (fuel pos : nat) (out rest : list ascii) :
  drop pos buf = rest ->
  (length rest <= fuel)%nat ->
  out <> [] ->
  (forall c, head rest = Some c -> sep c) ->
  exists pos', loop fuel pos out = (pos', Scanner.Copied out).
Proof.
  intros Hd Hf Hout Hrest. destruct fuel as [|fuel]; [eexists; reflexivity|].
  cbn [Scanner.read_loop].
  destruct ((pos <? length buf)%nat && (Z.of_nat (length out) <? len)) eqn:E;
    [|eexists; reflexivity].
  apply andb_true_iff in E as [E1 E2]. apply Nat.ltb_lt in E1.
  destruct rest as [|c rest].
  - apply (f_equal length) in Hd. rewrite length_drop in Hd. simpl in Hd. lia.
  - destruct (dev_deref_head pos c _ Hd) as (Hde & _ & _).
    rewrite Hde, (Hrest c eq_refl).
    destruct out as [|x out]; [congruence|]. eexists. reflexivity.
Qed.

End DevRead.

(** X20.  [dev_read] of [Scanner.c] does what C2 describes: a read that is given
    less room than the token needs returns a prefix of the token and
    leaves the position right behind that prefix, and the next read
    returns the rest of the same token. *)
Lemma dev_read_continues_token dev buf pos skipped token rest
    len writable len2 writable2 :
  Scanner.data_buffer dev = Some buf ->
  Scanner.buffer_size dev = length buf ->
  Scanner.buffer_position dev = pos ->
  drop pos buf = skipped ++ token ++ rest ->
  let seps := Scanner.array_string (Scanner.separators dev) in
  Forall (fun c => found (strchr seps c) = true) skipped ->
  Forall (fun c => found (strchr seps c) <> true) token ->
  (forall c, head rest = Some c -> found (strchr seps c) = true) ->
  0 < len < Z.of_nat (length token) ->
  len <= writable ->
  Z.of_nat (length token) - len <= len2 ->
  Z.of_nat (length token) - len <= writable2 ->
  exists dev1 dev2,
    Scanner.dev_read false dev len writable
      = (dev1, len, take (Z.to_nat len) token)
    /\ Scanner.buffer_position dev1
       = (pos + length skipped + Z.to_nat len)%nat
    /\ Scanner.dev_read false dev1 len2 writable2
       = (dev2, Z.of_nat (length token) - len, drop (Z.to_nat len) token).
Proof.
  intros Hbuf Hsize Hpos Hd seps Hskip Htok Hrest Hlen Hw Hlen2 Hw2.
  set (n := Z.to_nat len).
  assert (Hn : (0 < n < length token)%nat) by (unfold n; lia).
  assert (Htotal : (length buf - pos
                    = length skipped + length token + length rest)%nat).
  { apply (f_equal length) in Hd. rewrite length_drop, !length_app in Hd.
    lia. }
  assert (Hsplit : token = take n token ++ drop n token)
    by (symmetry; apply take_drop).
  assert (Hpre : Forall (fun c => found (strchr seps c) <> true)
                   (take n token)) by (apply Forall_take, Htok).
  assert (Hrem : Forall (fun c => found (strchr seps c) <> true)
                   (drop n token)) by (apply Forall_drop, Htok).
  assert (Hln : length (take n token) = n) by (rewrite length_take; lia).
  assert (Hlr : length (drop n token) = (length token - n)%nat)
    by apply length_drop.
  (* first read *)
  assert (R1 : Scanner.read_loop (length buf - pos) buf seps (length buf)
                 len writable pos []
               = ((pos + length skipped + n)%nat,
                  Scanner.Copied (take n token))).
  { rewrite (read_loop_skip buf seps len writable skipped (token ++ rest)
               Hskip ltac:(lia) _ _ Hd) by lia.
    assert (Hd1 : drop (pos + length skipped) buf
                  = take n token ++ (drop n token ++ rest)).
    { rewrite <- drop_drop, Hd, drop_app_length, app_assoc, <- Hsplit.
      reflexivity. }
    rewrite (read_loop_take buf seps len writable (take n token) Hpre
               _ _ _ [] Hd1) by (simpl; lia).
    rewrite Hln. apply read_loop_full. simpl. rewrite Hln. lia. }
  exists (Scanner.set_position dev (pos + length skipped + n)).
  assert (Hd2 : drop (pos + length skipped + n) buf = drop n token ++ rest).
  { rewrite <- !drop_drop, Hd, drop_app_length, drop_app_le by lia.
    reflexivity. }
  (* second read *)
  destruct (read_loop_end buf seps len2 writable2
              (length buf - (pos + length skipped + n) - length (drop n token))
              (pos + length skipped + n + length (drop n token))
              (drop n token) rest) as [pos2 R2].
  { rewrite <- drop_drop, Hd2, drop_app_length. reflexivity. }
  { lia. }
  { intros E. rewrite E in Hlr. simpl in Hlr. lia. }
  { exact Hrest. }
  exists (Scanner.set_position
            (Scanner.set_position dev (pos + length skipped + n)) pos2).
  split; [|split; [reflexivity|]].
  - unfold Scanner.dev_read. rewrite Hbuf, Hsize, Hpos. fold seps.
    replace (length buf <=? pos)%nat with false
      by (symmetry; apply Nat.leb_gt; lia).
    rewrite R1, Hln. unfold n. rewrite Z2Nat.id by lia. reflexivity.
  - unfold Scanner.dev_read. cbn [Scanner.set_position Scanner.data_buffer
      Scanner.buffer_size Scanner.buffer_position Scanner.separators].
    rewrite Hbuf, Hsize. fold seps.
    replace (length buf <=? pos + length skipped + n)%nat with false
      by (symmetry; apply Nat.leb_gt; lia).
    rewrite (read_loop_take buf seps len2 writable2 (drop n token) Hrem
               _ _ _ [] Hd2) by (simpl; lia).
    cbn [app]. rewrite R2, Hlr. f_equal. f_equal. unfold n. lia.
Qed.

(** On "hello world" with reads of at most 2 bytes, [dev_read] returns
    "he", "ll", "o", where [scanner_read] returned "he", "wo". *)
Lemma dev_read_hello_world :
  let dev0 := Scanner.mkDev (Some (bytes "hello world")) 11 0
                (" "%char :: replicate 9 NUL) in
  let '(dev1, r1, out1) := Scanner.dev_read false dev0 2 1023 in
  let '(dev2, r2, out2) := Scanner.dev_read false dev1 2 1023 in
  let '(dev3, r3, out3) := Scanner.dev_read false dev2 2 1023 in
  [out1; out2; out3] = [bytes "he"; bytes "ll"; bytes "o"].
Proof. vm_compute. reflexivity. Qed.

(** ** The default separators *)

(** No call touches the device's own separator string. *)
Lemma exec_device_separators st c st' r :
  wf st -> exec st c = Some (st', r) ->
  cstring (mem st') (dev_separators (scanner_device st'))
  = cstring (mem st) (dev_separators (scanner_device st)).
Proof.
  intros Hwf He.
  destruct (wf_dev st Hwf) as (bd & Ebd & Hbd).
  pose proof (string_at_lt st _ bd 0 Hwf (wf_dev st Hwf) Ebd)
    as (_ & Hlt & _).
  assert (Hrel : forall p, p <> Ptr bd 0 ->
            (p = NULL \/ exists b, p = Ptr b 0) ->
            released p (cells (mem st)) !! bd = cells (mem st) !! bd).
  { intros p Hne Hp. apply released_lookup_ne. intros o ->.
    destruct Hp as [?|(b & [= -> ->])]; congruence. }
  assert (Hdata : released (data (scanner_device st)) (cells (mem st)) !! bd
                  = cells (mem st) !! bd).
  { apply Hrel.
    - rewrite <- Ebd. apply (wf_data_dev st Hwf).
    - destruct (wf_data_cases st Hwf) as [E|(b & E & _)]; eauto. }
  assert (Hsep : forall f sf, files st !! f = Some sf ->
            forall c0, c0 !! bd = cells (mem st) !! bd ->
            released (separators sf) c0 !! bd = cells (mem st) !! bd).
  { intros f sf Hf c0 Hc0. rewrite <- Hc0. apply released_lookup_ne.
    intros o Eo. destruct (wf_seps st Hwf f sf Hf) as ((b & Eb & _) & _ & Hv).
    rewrite Eb in Eo. injection Eo as E1 E2. subst. congruence. }
  destruct c as [fo so f|f|f count writable|k f ubuf count|k f cmd arg ubuf];
    simpl in He.
  - destruct (scanner_open_inv _ _ _ _ _ _ He)
      as [(-> & _)|(_ & _ & _ & s & _ & ->)]; [reflexivity|].
    cbn [scanner_device mem]. rewrite Ebd. apply cstring_frame. cbn [cells].
    apply lookup_insert_ne. lia.
  - destruct (scanner_release_inv _ _ _ _ He)
      as (_ & [[_ ->]|(sf & Hf & ->)]); [reflexivity|].
    cbn [scanner_device mem]. rewrite Ebd. apply cstring_frame. cbn [cells].
    apply (Hsep f sf Hf). reflexivity.
  - destruct (scanner_read st f count writable) as [[[st1 r1] out]|] eqn:E;
      [|discriminate].
    injection He as -> ->.
    destruct (scanner_read_inv _ _ _ _ _ _ _ Hwf E)
      as (sf & b & o & d & text & seps & _ & [->| ->]); reflexivity.
  - destruct (scanner_write_inv _ _ _ _ _ _ _ Hwf He) as (sf & Hf & Hcases).
    destruct Hcases
      as [(_ & _ & ->)|[(_ & _ & _ & ->)|(_ & _ & _ & tail & ->)]];
      cbn [scanner_device mem dev_separators]; rewrite Ebd;
      apply cstring_frame; cbn [cells]; try exact Hdata.
    rewrite lookup_insert_ne by lia. exact Hdata.
  - destruct (scanner_ioctl_inv _ _ _ _ _ _ _ _ Hwf He) as (sf & Hf & Hcases).
    destruct Hcases as [(-> & _)|[(_ & _ & ->)|(_ & _ & tail & ->)]];
      [reflexivity | reflexivity |].
    cbn [scanner_device mem]. rewrite Ebd. apply cstring_frame. cbn [cells].
    apply (Hsep f sf Hf). apply lookup_insert_ne. lia.
Qed.

Lemma reachable_device_separators st :
  reachable st ->
  cstring (mem st) (dev_separators (scanner_device st))
  = Some default_separators.
Proof.
  induction 1 as [st H|st c st' r Hr IH H].
  - rewrite scanner_init_boot in H. injection H as <-. reflexivity.
  - rewrite (exec_device_separators st c st' r (reachable_wf st Hr) H).
    exact IH.
Qed.

(** Every file opened on a loaded module starts with the six default
    separators: space, tab, newline, carriage return, form feed,
    vertical tab. *)
Lemma scanner_open_default_separators file_ok sep_ok st f st' :
  reachable st ->
  scanner_open file_ok sep_ok st f = Some (st', 0) ->
  separators_of st' f = Some default_separators.
Proof.
  intros Hr H. pose proof (reachable_device_separators st Hr) as Hdev.
  destruct (scanner_open_inv _ _ _ _ _ _ H)
    as [(_ & E & _)|(_ & _ & _ & s & Hs & ->)]; [discriminate|].
  assert (s = default_separators) as -> by congruence.
  unfold separators_of. cbn [files mem]. rewrite lookup_insert_eq.
  cbn [mbind option_bind separators]. unfold cstring. cbn [cells].
  rewrite lookup_insert_eq. reflexivity.
Qed.

(** ** Loading and unloading the module *)

(** X1.  [scanner_init] returns 0 exactly when the allocation and both
    registrations succeed; otherwise it returns the error and leaves no
    block allocated. *)
Theorem scanner_init_outcome kmalloc_ok chrdev_err cdev_err :
  exists st r,
    scanner_init kmalloc_ok chrdev_err cdev_err = Some (st, r)
    /\ (r = 0 <-> kmalloc_ok = true /\ 0 <= chrdev_err /\ cdev_err = 0)
    /\ (r = 0 -> st = boot)
    /\ (r <> 0 -> cells (mem st) = ∅)
    /\ (kmalloc_ok = false -> r = - ENOMEM)
    /\ (kmalloc_ok = true -> chrdev_err < 0 -> r = chrdev_err)
    /\ (kmalloc_ok = true -> 0 <= chrdev_err -> r = cdev_err).
Proof.
  unfold scanner_init. destruct kmalloc_ok; cbn [kmalloc empty_heap].
  - unfold store. cbn [cells next_block]. rewrite lookup_insert_eq.
    cbn [length app default_separators replicate Z.to_nat Pos.to_nat
         Pos.iter_op Nat.add Nat.leb mbind option_bind].
    simpl. rewrite insert_insert_eq.
    destruct (chrdev_err <? 0) eqn:E1.
    + apply Z.ltb_lt in E1. rewrite lookup_insert_eq. simpl.
      eexists _, _. split; [reflexivity|]. simpl.
      rewrite delete_insert_eq, delete_empty.
      repeat split; intros; try lia; try congruence.
    + apply Z.ltb_ge in E1. destruct (cdev_err =? 0) eqn:E2; simpl.
      * apply Z.eqb_eq in E2. eexists _, _. split; [reflexivity|].
        repeat split; intros; try lia; try congruence.
      * apply Z.eqb_neq in E2. rewrite lookup_insert_eq. simpl.
        eexists _, _. split; [reflexivity|]. simpl.
        rewrite delete_insert_eq, delete_empty.
        repeat split; intros; try lia; try congruence.
  - eexists _, _. split; [reflexivity|]. simpl. unfold ENOMEM.
    repeat split; intros; try lia; try congruence.
Qed.

(** ** Calls with a defined result *)

Lemma kfree_live (h : heap) (b : block) :
  is_Some (cells h !! b) ->
  kfree (Ptr b 0) h = Some (Heap (delete b (cells h)) (next_block h)).
Proof. intros [l Hl]. simpl. rewrite Hl. reflexivity. Qed.

Lemma alloc_fill_defined (h : heap) (size : Z) (bs : list ascii) :
  (length bs + 1 <= Z.to_nat size)%nat ->
  is_Some (h2 ← store (kmalloc true size h).2 (Ptr (next_block h) 0) bs;
           store h2 (Ptr (next_block h) (length bs)) [NUL]).
Proof.
  intros H. simpl. rewrite lookup_insert_eq, length_replicate.
  replace (length bs <=? Z.to_nat size)%nat with true
    by (symmetry; apply Nat.leb_le; lia).
  simpl. rewrite lookup_insert_eq, length_app, length_drop, length_replicate.
  replace (length bs + 1 <=? length bs + (Z.to_nat size - length bs))%nat
    with true by (symmetry; apply Nat.leb_le; lia).
  eexists. reflexivity.
Qed.

Lemma alloc_drop_defined (h : heap) (size : Z) (bs : list ascii) :
  (length bs <= Z.to_nat size)%nat ->
  is_Some (h2 ← store (kmalloc true size h).2 (Ptr (next_block h) 0) bs;
           kfree (Ptr (next_block h) 0) h2).
Proof.
  intros H. simpl. rewrite lookup_insert_eq, length_replicate.
  replace (length bs <=? Z.to_nat size)%nat with true
    by (symmetry; apply Nat.leb_le; lia).
  simpl. rewrite lookup_insert_eq. eexists. reflexivity.
Qed.

Lemma kfree_data_defined st :
  wf st ->
  kfree (data (scanner_device st)) (mem st)
  = Some (Heap (released (data (scanner_device st)) (cells (mem st)))
               (next_block (mem st))).
Proof.
  intros Hwf. destruct (wf_data_cases st Hwf) as [E|(b & E & _ & Hl)];
    rewrite E.
  - destruct (mem st); reflexivity.
  - apply kfree_live, Hl.
Qed.

Lemma scanner_write_defined ok st f sf ubuf count :
  wf st -> files st !! f = Some sf -> 0 <= count < 2 ^ 64 - 1 ->
  is_Some (scanner_write ok st f ubuf count).
Proof.
  intros Hwf Hf Hc. unfold scanner_write. rewrite Hf.
  cbn [mbind option_bind]. rewrite (kfree_data_defined st Hwf).
  cbn [mbind option_bind].
  set (h1 := Heap _ _).
  rewrite to_ulong_small by lia.
  destruct ok; cbn [kmalloc]; [|eexists; reflexivity].
  change (next_block (mem st)) with (next_block h1).
  destruct (copy_from_user_ok ubuf count) eqn:Hcopy.
  - pose proof (copy_ok_length _ _ Hcopy) as Hlen.
    destruct (alloc_fill_defined h1 (count + 1) (take (Z.to_nat count) ubuf))
      as [h3 E]; [lia|].
    cbn [kmalloc snd] in E.
    destruct (store _ _ (take _ ubuf)) as [h2|]; [|discriminate].
    cbn [mbind option_bind padd] in *. rewrite Hlen in E.
    rewrite Nat.add_0_l, E. eexists. reflexivity.
  - unfold copy_from_user_ok in Hcopy. apply Z.leb_gt in Hcopy.
    destruct (alloc_drop_defined h1 (count + 1) ubuf) as [h3 E]; [lia|].
    cbn [kmalloc snd] in E.
    destruct (store _ _ ubuf) as [h2|]; [|discriminate].
    cbn [mbind option_bind] in *. rewrite E. eexists. reflexivity.
Qed.

Lemma scanner_ioctl_defined ok st f sf cmd arg ubuf :
  wf st -> files st !! f = Some sf -> 0 <= arg < 2 ^ 64 - 1 ->
  is_Some (scanner_ioctl ok st f cmd arg ubuf).
Proof.
  intros Hwf Hf Hc. unfold scanner_ioctl. rewrite Hf.
  cbn [mbind option_bind].
  destruct (negb _); [eexists; reflexivity|].
  destruct (1 <? _); [eexists; reflexivity|].
  destruct (cmd =? _); [|eexists; reflexivity].
  rewrite to_ulong_small by lia.
  destruct ok; cbn [kmalloc]; [|eexists; reflexivity].
  destruct (copy_from_user_ok ubuf arg) eqn:Hcopy.
  - pose proof (copy_ok_length _ _ Hcopy) as Hlen.
    destruct (alloc_fill_defined (mem st) (arg + 1)
                (take (Z.to_nat arg) ubuf)) as [h3 E]; [lia|].
    pose proof E as E'. apply alloc_fill in E' as [tail ->].
    cbn [kmalloc snd] in E.
    destruct (store _ _ (take _ ubuf)) as [h2|]; [|discriminate].
    cbn [mbind option_bind padd] in *. rewrite Hlen in E.
    rewrite Nat.add_0_l, E. cbn [mbind option_bind].
    destruct (wf_seps st Hwf f sf Hf) as (Hs & _).
    pose proof Hs as (bs & Ebs & _).
    destruct (string_at_lt st _ bs 0 Hwf Hs Ebs) as (_ & Hlt & Hl).
    rewrite Ebs, kfree_live; [eexists; reflexivity|].
    cbn [cells]. rewrite lookup_insert_ne by lia. exact Hl.
  - unfold copy_from_user_ok in Hcopy. apply Z.leb_gt in Hcopy.
    destruct (alloc_drop_defined (mem st) (arg + 1) ubuf) as [h3 E]; [lia|].
    cbn [kmalloc snd] in E.
    destruct (store _ _ ubuf) as [h2|]; [|discriminate].
    cbn [mbind option_bind] in *. rewrite E. eexists. reflexivity.
Qed.

Lemma scanner_open_defined file_ok sep_ok st f :
  wf st -> is_Some (scanner_open file_ok sep_ok st f).
Proof.
  intros Hwf. unfold scanner_open.
  destruct file_ok; simpl; [|eexists; reflexivity].
  destruct (wf_dev st Hwf) as (b & Eb & [s Hs]). rewrite Hs. simpl.
  destruct sep_ok; simpl; [|eexists; reflexivity].
  rewrite lookup_insert_eq, length_replicate, length_app. simpl.
  replace (length s + 1 <=? Z.to_nat (Z.of_nat (length s) + 1))%nat with true
    by (symmetry; apply Nat.leb_le; lia).
  eexists. reflexivity.
Qed.

Lemma scanner_release_defined st f :
  wf st -> is_Some (scanner_release st f).
Proof.
  intros Hwf. unfold scanner_release.
  destruct (files st !! f) as [sf|] eqn:Hf; [|eexists; reflexivity].
  destruct (wf_seps st Hwf f sf Hf) as (Hs & _).
  pose proof Hs as (bs & Ebs & _).
  destruct (string_at_lt st _ bs 0 Hwf Hs Ebs) as (_ & _ & Hl).
  rewrite Ebs, (kfree_live _ _ Hl). eexists. reflexivity.
Qed.

(** X4.  On a loaded module, opening, releasing, and writing or reconfiguring
    through an open file always have a defined result: these calls never
    release a block twice and never write outside a block. *)
Theorem calls_are_defined st c :
  reachable st -> in_range st c ->
  exists st' r, exec st c = Some (st', r).
Proof.
  intros Hr Hc. pose proof (reachable_wf st Hr) as Hwf.
  assert (Hsome : is_Some (exec st c)).
  { destruct c as [fo so f|f|f count writable|k f ubuf count|k f cmd arg ubuf];
      simpl in *.
    - apply scanner_open_defined, Hwf.
    - apply scanner_release_defined, Hwf.
    - destruct Hc.
    - destruct Hc as [[sf Hf] Hc]. eapply scanner_write_defined; eauto.
    - destruct Hc as [[sf Hf] Hc]. eapply scanner_ioctl_defined; eauto. }
  destruct Hsome as [[st' r] E]. eauto.
Qed.

Lemma calls_are_defined_witness :
  exists st' r, exec written (Write true 3%nat (bytes "abc") 3) = Some (st', r).
Proof.
  apply (calls_are_defined written (Write true 3%nat (bytes "abc") 3)
           reachable_written).
  split; [eexists; reflexivity | lia].
Defined.

(** ** When a read is defined *)

Lemma wf_at_cursor st f sf b o :
  wf st -> files st !! f = Some sf ->
  data (scanner_device st) = Ptr b 0 -> current_token sf = Ptr b o ->
  exists d text seps, at_cursor st f sf b o d text seps.
Proof.
  intros Hwf Hf Hd Hc.
  destruct (wf_data st Hwf) as [E|Hs]; [congruence|].
  rewrite Hd in Hs. destruct Hs as (b' & [= <-] & [text Ht]).
  destruct (string_at_live _ _ _ (ex_intro _ text Ht)) as [d Hb].
  destruct (wf_seps st Hwf f sf Hf) as ((bs & Ebs & [seps Hs]) & _).
  exists d, text, seps. constructor; try assumption.
  - unfold cstring in Ht. rewrite Hb, drop_0 in Ht. exact Ht.
  - destruct (wf_cursor st Hwf f sf b o Hf Hc) as [_ Hpos].
    apply Hpos; assumption.
Qed.

(** X5.  A read with arguments in range has a defined result exactly when the
    cursor of the file points into the current buffer. *)
Theorem scanner_read_defined_iff st f sf count writable :
  wf st -> files st !! f = Some sf ->
  0 <= count < 2 ^ 31 -> 0 <= writable ->
  (forall text, buffer_text st = Some text ->
                Z.of_nat (length text) < 2 ^ 31) ->
  (is_Some (scanner_read st f count writable)
   <-> exists b o, data (scanner_device st) = Ptr b 0
                   /\ current_token sf = Ptr b o).
Proof.
  intros Hwf Hf Hcount Hw Hlen. split.
  - intros [[[st' r] out] H].
    destruct (scanner_read_inv _ _ _ _ _ _ _ Hwf H)
      as (sf' & b & o & d & text & seps & Hac & _).
    exists b, o. split; [apply (ac_data _ _ _ _ _ _ _ _ Hac)|].
    rewrite (ac_file _ _ _ _ _ _ _ _ Hac) in Hf. injection Hf as <-.
    apply (ac_cursor _ _ _ _ _ _ _ _ Hac).
  - intros (b & o & Hd & Hc).
    destruct (wf_at_cursor st f sf b o Hwf Hf Hd Hc) as (d & text & seps & Hac).
    destruct (at_cursor_text _ _ _ _ _ _ _ _ Hac) as [Hbt _].
    specialize (Hlen text Hbt).
    set (n := Z.min (Z.of_nat
                       (scan_token d seps (length text)
                          (skip_separators d seps (length text) o)
                        - skip_separators d seps (length text) o)) count).
    destruct (decide (n <= writable)) as [Hn|Hn].
    + rewrite (scanner_read_token st f sf b o d text seps count writable
                 Hac Hlen Hcount Hn). eexists. reflexivity.
    + rewrite (scanner_read_unfold _ _ _ _ _ _ _ _ count writable Hac).
      destruct (length text <=? o)%nat; [eexists; reflexivity|].
      cbv zeta.
      destruct (token_bounds d text seps o (ac_text _ _ _ _ _ _ _ _ Hac)
                  (ac_pos _ _ _ _ _ _ _ _ Hac)) as (B1 & B2 & _).
      rewrite !to_int_small by lia.
      replace (Z.of_nat (scan_token d seps (length text)
                           (skip_separators d seps (length text) o))
               - Z.of_nat (skip_separators d seps (length text) o))
        with (Z.of_nat
                (scan_token d seps (length text)
                   (skip_separators d seps (length text) o)
                 - skip_separators d seps (length text) o)) by lia.
      fold n. rewrite to_ulong_small by (unfold n; lia).
      unfold copy_to_user.
      replace (n <=? writable) with false by (symmetry; apply Z.leb_gt; lia).
      eexists. reflexivity.
Qed.

Lemma scanner_read_defined_iff_witness :
  is_Some (scanner_read written 3%nat 1023 1023)
  <-> exists b o, data (scanner_device written) = Ptr b 0
                  /\ Ptr 2%nat 0 = Ptr b o.
Proof.
  apply (scanner_read_defined_iff written 3%nat
           (mkFile (Ptr 2%nat 0) NULL (Ptr 1%nat 0)) 1023 1023
           (reachable_wf _ reachable_written)).
  - reflexivity.
  - lia.
  - lia.
  - intros text H. vm_compute in H. injection H as <-. simpl. lia.
Defined.

(** ** No block is leaked *)

Lemma loaded_reachable st : loaded st -> reachable st.
Proof.
  induction 1 as [st H|st c st' r _ IH _ H].
  - apply reach_init, H.
  - eapply reach_step; eauto.
Qed.
















(** ** Opening and releasing a file *)

Lemma buffer_text_frame st st' :
  wf st ->
  scanner_device st' = scanner_device st ->
  (forall b, data (scanner_device st) = Ptr b 0 ->
             cells (mem st') !! b = cells (mem st) !! b) ->
  buffer_text st' = buffer_text st.
Proof.
  intros Hwf Hdev Hfr. unfold buffer_text. rewrite Hdev.
  destruct (wf_data_cases st Hwf) as [E|(b & E & _)]; rewrite E;
    [reflexivity|].
  apply cstring_frame, Hfr, E.
Qed.

(** X11.  Releasing an open file always succeeds.  It frees the separators of
    that file, removes the file, and leaves the buffer and every other
    open file, cursor and separators, as they were. *)
Theorem scanner_release_effect st f sf :
  wf st -> files st !! f = Some sf ->
  exists st',
    scanner_release st f = Some (st', 0)
    /\ files st' !! f = None
    /\ (forall b, separators sf = Ptr b 0 -> cells (mem st') !! b = None)
    /\ (forall g, g <> f ->
          files st' !! g = files st !! g
          /\ separators_of st' g = separators_of st g)
    /\ scanner_device st' = scanner_device st
    /\ buffer_text st' = buffer_text st.
Proof.
  intros Hwf Hf.
  destruct (scanner_release_defined st f Hwf) as [[st' r] H].
  destruct (scanner_release_inv _ _ _ _ H) as (-> & [[E _]|(sf' & Hf' & ->)]);
    [congruence|].
  assert (sf' = sf) as -> by congruence.
  destruct (wf_seps st Hwf f sf Hf) as (Hs & Hd & _).
  pose proof Hs as (bs & Ebs & _).
  exists (mkKernel
            (Heap (released (separators sf) (cells (mem st)))
                  (next_block (mem st)))
            (scanner_device st) (delete f (files st))).
  split; [exact H|]. split; [apply lookup_delete_eq|].
  rewrite Ebs. cbn [released].
  split; [intros b [= <-]; apply lookup_delete_eq|].
  split; [|split; [reflexivity|]].
  - intros g Hne. cbn [files]. rewrite lookup_delete_ne by congruence.
    split; [reflexivity|].
    destruct (files st !! g) as [sg|] eqn:Hg.
    + apply (separators_of_frame st _ g sg Hwf Hg).
      { cbn [files]. rewrite lookup_delete_ne by congruence. exact Hg. }
      intros b Eb. cbn [mem cells]. apply lookup_delete_ne. intros <-.
      apply Hne. apply (wf_seps_inj st Hwf g f sg sf Hg Hf). congruence.
    + unfold separators_of. cbn [files].
      rewrite lookup_delete_ne, Hg by congruence. reflexivity.
  - apply (buffer_text_frame st _ Hwf); [reflexivity|].
    intros b Eb. cbn [mem cells]. apply lookup_delete_ne. intros <-.
    congruence.
Qed.

Lemma scanner_release_effect_witness :
  exists st',
    scanner_release two_files 3%nat = Some (st', 0)
    /\ files st' !! 3%nat = None
    /\ files st' !! 4%nat = files two_files !! 4%nat
    /\ buffer_text st' = Some (bytes "a,b,c").
Proof.
  destruct (scanner_release_effect two_files 3%nat
              (mkFile (Ptr 4%nat 0) NULL (Ptr 1%nat 0)) wf_two_files eq_refl)
    as (st' & H1 & H2 & _ & H4 & _ & H6).
  exists st'. split; [exact H1|]. split; [exact H2|].
  split; [apply (H4 4%nat); discriminate|].
  rewrite H6. reflexivity.
Defined.

(** X9.  Opening a file on a loaded module always has a defined result.  It
    succeeds exactly when both allocations do; a failed open changes
    nothing, and a successful one gives the new file its own copy of the
    six default separators and leaves the buffer and every other open
    file as they were. *)
Theorem scanner_open_effect file_ok sep_ok st f :
  reachable st ->
  exists st' r,
    scanner_open file_ok sep_ok st f = Some (st', r)
    /\ (r = 0 <-> file_ok = true /\ sep_ok = true)
    /\ (r <> 0 -> st' = st /\ r = - ENOMEM)
    /\ (r = 0 ->
        separators_of st' f = Some default_separators
        /\ forall g sg sf,
             g <> f -> files st' !! g = Some sg -> files st' !! f = Some sf ->
             separators sg <> separators sf)
    /\ (forall g, g <> f ->
          files st' !! g = files st !! g
          /\ separators_of st' g = separators_of st g)
    /\ scanner_device st' = scanner_device st
    /\ buffer_text st' = buffer_text st.
Proof.
  intros Hr. pose proof (reachable_wf st Hr) as Hwf.
  destruct (scanner_open_defined file_ok sep_ok st f Hwf) as [[st' r] H].
  exists st', r. split; [exact H|].
  pose proof (wf_scanner_open _ _ _ _ _ _ Hwf H) as Hwf'.
  destruct (scanner_open_inv _ _ _ _ _ _ H)
    as [(-> & -> & Hfail)|(-> & -> & -> & s & Hs & Est)].
  - unfold ENOMEM.
    split; [split; [lia | intros [-> ->]; destruct Hfail; discriminate]|].
    split; [auto|]. split; [lia|]. auto.
  - split; [tauto|]. split; [congruence|].
    assert (Hother : forall g, g <> f -> files st' !! g = files st !! g).
    { intros g Hne. rewrite Est. cbn [files].
      apply lookup_insert_ne. congruence. }
    split; [|split; [|split]].
    + intros _. split.
      * apply (scanner_open_default_separators true true st f st' Hr H).
      * intros g sg sf Hne Hg Hf E. apply Hne.
        apply (wf_seps_inj st' Hwf' g f sg sf Hg Hf E).
    + intros g Hne. split; [apply Hother, Hne|].
      destruct (files st !! g) as [sg|] eqn:Hg.
      * apply (separators_of_frame st _ g sg Hwf Hg).
        { rewrite Hother by exact Hne. exact Hg. }
        intros b Eb. rewrite Est. cbn [mem cells].
        apply lookup_insert_ne.
        destruct (wf_seps st Hwf g sg Hg) as (Hsg & _).
        destruct (string_at_lt st _ b 0 Hwf Hsg Eb) as (_ & Hlt & _). lia.
      * unfold separators_of. rewrite (Hother g Hne), Hg. reflexivity.
    + rewrite Est. reflexivity.
    + apply (buffer_text_frame st _ Hwf); [rewrite Est; reflexivity|].
      intros b Eb. rewrite Est. cbn [mem cells]. apply lookup_insert_ne.
      destruct (wf_data_cases st Hwf) as [E|(b' & E & Hlt & _)];
        [congruence|].
      assert (b' = b) as -> by congruence. lia.
Qed.

Lemma scanner_open_effect_witness :
  exists st' r,
    scanner_open true true written 4%nat = Some (st', r)
    /\ (r = 0 <-> true = true /\ true = true)
    /\ buffer_text st' = Some sample_text.
Proof.
  destruct (scanner_open_effect true true written 4%nat reachable_written)
    as (st' & r & H1 & H2 & _ & _ & _ & _ & H7).
  exists st', r. split; [exact H1|]. split; [exact H2|].
  rewrite H7. reflexivity.
Defined.

(** ** What a read returns *)




(** X7.  Once a read that asked for at least one byte has returned 0, the
    cursor is at the end of the buffer: every further read through the
    same file returns 0 and changes nothing. *)
Theorem end_of_stream_is_final st f count writable st' out text :
  wf st ->
  buffer_text st = Some text ->
  Z.of_nat (length text) < 2 ^ 31 ->
  0 < count < 2 ^ 31 ->
  scanner_read st f count writable = Some (st', 0, out) ->
  position st' f = Some (length text)
  /\ forall count' writable',
       scanner_read st' f count' writable' = Some (st', 0, []).
Proof.
  intros Hwf Ht Hlen Hcount H.
  destruct (scanner_read_inv _ _ _ _ _ _ _ Hwf H)
    as (sf & b & o & d & text0 & seps & Hac & _).
  destruct (at_cursor_text _ _ _ _ _ _ _ _ Hac) as [Ht' _].
  assert (text0 = text) as -> by congruence.
  destruct (token_bounds d text seps o (ac_text _ _ _ _ _ _ _ _ Hac)
              (ac_pos _ _ _ _ _ _ _ _ Hac)) as (B1 & B2 & _ & _ & _ & B6).
  remember (skip_separators d seps (length text) o) as ts eqn:Ets.
  remember (scan_token d seps (length text) ts) as te eqn:Ete.
  assert (Hend : forall st1 sf1,
            at_cursor st1 f sf1 b (length text) d text seps ->
            position st1 f = Some (length text)
            /\ forall count' writable',
                 scanner_read st1 f count' writable' = Some (st1, 0, [])).
  { intros st1 sf1 Hac1. split; [apply (at_cursor_text _ _ _ _ _ _ _ _ Hac1)|].
    intros count' writable'.
    rewrite (scanner_read_unfold _ _ _ _ _ _ _ _ count' writable' Hac1).
    rewrite Nat.leb_refl. reflexivity. }
  rewrite (scanner_read_unfold _ _ _ _ _ _ _ _ count writable Hac) in H.
  destruct (length text <=? o)%nat eqn:E.
  - apply Nat.leb_le in E. injection H as <- _.
    assert (o = length text) as -> by (pose proof (ac_pos _ _ _ _ _ _ _ _ Hac);
                                       lia).
    apply (Hend st sf Hac).
  - cbv zeta in H. rewrite <- Ets, <- Ete in H.
    rewrite !to_int_small in H by lia.
    destruct (copy_to_user _ _ _ _) as [[out'|]|]; [| |discriminate].
    + injection H as <- Hr _.
      assert (E1 : te = ts) by lia.
      assert (E2 : te = length text).
      { destruct (decide (ts < length text)%nat) as [Hlt|Hlt]; [|lia].
        specialize (B6 Hlt). lia. }
      pose proof (at_cursor_advance _ _ _ _ _ _ _ _ te Hac B2) as Hac'.
      rewrite E2 in Hac'. rewrite E2. apply (Hend _ _ Hac').
    + injection H as _ Hr _. unfold EFAULT in Hr. lia.
Qed.

Lemma end_of_stream_is_final_witness :
  position all_read 3%nat = Some (length sample_text)
  /\ forall count' writable',
       scanner_read all_read 3%nat count' writable' = Some (all_read, 0, []).
Proof.
  apply (end_of_stream_is_final all_read 3%nat 1023 1023 all_read []
           sample_text).
  - apply reachable_wf.
    eapply reachable_run; [apply reachable_written|].
    instantiate (1 := [Read 3%nat 1023 1023; Read 3%nat 1023 1023;
                       Read 3%nat 1023 1023; Read 3%nat 1023 1023]).
    vm_compute. reflexivity.
  - reflexivity.
  - simpl. lia.
  - lia.
  - vm_compute. reflexivity.
Defined.

(** ** Edge cases of writing and reconfiguring *)

(** X12.  Writing zero bytes through an open file succeeds and leaves an empty
    buffer: from then on every read through that file returns 0. *)
Theorem empty_write_empties_buffer st f sf ubuf :
  wf st -> files st !! f = Some sf ->
  exists st',
    scanner_write true st f ubuf 0 = Some (st', 0)
    /\ buffer_text st' = Some []
    /\ forall count writable,
         scanner_read st' f count writable = Some (st', 0, []).
Proof.
  intros Hwf Hf.
  destruct (scanner_write_defined true st f sf ubuf 0 Hwf Hf ltac:(lia))
    as [[st' r] H].
  assert (r = 0) as ->.
  { destruct (scanner_write_inv _ _ _ _ _ _ _ Hwf H) as (sf' & _ & Hcases).
    destruct Hcases as [(E & _)|[(_ & E & _)|(_ & _ & E & _)]];
      [discriminate | | exact E].
    unfold copy_from_user_ok in E. apply Z.leb_gt in E. lia. }
  exists st'. split; [exact H|].
  destruct (scanner_write_ok st f ubuf 0 st' Hwf ltac:(lia) H)
    as (sf' & tail & seps & _ & _ & Hac).
  specialize (Hac [] eq_refl).
  split; [apply (at_cursor_text _ _ _ _ _ _ _ _ Hac)|].
  intros count writable.
  rewrite (scanner_read_unfold _ _ _ _ _ _ _ _ count writable Hac).
  reflexivity.
Qed.

Lemma empty_write_empties_buffer_witness :
  exists st',
    scanner_write true written 3%nat [] 0 = Some (st', 0)
    /\ buffer_text st' = Some []
    /\ forall count writable,
         scanner_read st' 3%nat count writable = Some (st', 0, []).
Proof.
  apply (empty_write_empties_buffer written 3%nat
           (mkFile (Ptr 2%nat 0) NULL (Ptr 1%nat 0)) []
           (reachable_wf _ reachable_written)).
  reflexivity.
Defined.

Lemma set_separators_passes_guards :
  _IOC_TYPE SCANNER_SET_SEPARATORS = SCANNER_MAGIC
  /\ _IOC_NR SCANNER_SET_SEPARATORS = 1.
Proof. split; reflexivity. Qed.

(** X13.  On an open file [scanner_ioctl] answers [-ENOTTY] exactly to the
    requests other than [SCANNER_SET_SEPARATORS], and such a request
    changes nothing. *)
Theorem scanner_ioctl_enotty ok st f sf cmd arg ubuf st' r :
  files st !! f = Some sf ->
  scanner_ioctl ok st f cmd arg ubuf = Some (st', r) ->
  (r = - ENOTTY <-> cmd <> SCANNER_SET_SEPARATORS)
  /\ (cmd <> SCANNER_SET_SEPARATORS -> st' = st).
Proof.
  intros Hf. unfold scanner_ioctl. rewrite Hf. cbn [mbind option_bind].
  destruct (cmd =? SCANNER_SET_SEPARATORS) eqn:E.
  - apply Z.eqb_eq in E. subst cmd.
    destruct set_separators_passes_guards as [-> ->].
    rewrite Z.eqb_refl. cbn [negb].
    change (1 <? 1) with false. cbv iota.
    intros H. split; [|congruence]. split; [|congruence].
    intros ->. exfalso. destruct ok; cbn [kmalloc] in H.
    + destruct (copy_from_user_ok ubuf arg).
      * destruct (store _ _ _); [|discriminate]. cbn [mbind option_bind] in H.
        destruct (store _ _ _); [|discriminate]. cbn [mbind option_bind] in H.
        destruct (kfree _ _); [|discriminate]. discriminate.
      * destruct (store _ _ _); [|discriminate]. cbn [mbind option_bind] in H.
        destruct (kfree _ _); discriminate.
    + discriminate.
  - apply Z.eqb_neq in E.
    destruct (negb _); [intros [= <- <-]; tauto|].
    destruct (1 <? _); intros [= <- <-]; tauto.
Qed.

Lemma scanner_ioctl_enotty_witness :
  (- ENOTTY = - ENOTTY <-> 0 <> SCANNER_SET_SEPARATORS)
  /\ (0 <> SCANNER_SET_SEPARATORS -> written = written).
Proof.
  apply (scanner_ioctl_enotty true written 3%nat
           (mkFile (Ptr 2%nat 0) NULL (Ptr 1%nat 0)) 0 0 [] written
           (- ENOTTY)).
  - reflexivity.
  - vm_compute. reflexivity.
Defined.

Lemma scanner_ioctl_set_ok st f sf arg ubuf :
  wf st -> files st !! f = Some sf -> 0 <= arg < 2 ^ 64 - 1 ->
  copy_from_user_ok ubuf arg = true ->
  exists st' tail,
    scanner_ioctl true st f SCANNER_SET_SEPARATORS arg ubuf = Some (st', 0)
    /\ st' = mkKernel
               (Heap (released (separators sf)
                        (<[next_block (mem st) :=
                             take (Z.to_nat arg) ubuf ++ NUL :: tail]>
                           (cells (mem st))))
                     (S (next_block (mem st))))
               (scanner_device st)
               (<[f := set_separators sf (Ptr (next_block (mem st)) 0)]>
                  (files st)).
Proof.
  intros Hwf Hf Harg Hcopy.
  destruct (scanner_ioctl_defined true st f sf SCANNER_SET_SEPARATORS arg ubuf
              Hwf Hf Harg) as [[st' r] H].
  destruct (scanner_ioctl_inv _ _ _ _ _ _ _ _ Hwf H) as (sf' & Hf' & Hcases).
  assert (sf' = sf) as -> by congruence.
  destruct Hcases as [(_ & Hr)|[(E & _)|(_ & -> & tail & ->)]].
  - exfalso. unfold scanner_ioctl in H. rewrite Hf in H.
    cbn [mbind option_bind] in H.
    destruct set_separators_passes_guards as [E1 E2]. rewrite E1, E2 in H.
    rewrite !Z.eqb_refl in H. cbn [negb] in H.
    change (1 <? 1) with false in H. cbv iota in H.
    cbn [kmalloc] in H. rewrite Hcopy in H.
    destruct (store _ _ _); [|discriminate]. cbn [mbind option_bind] in H.
    destruct (store _ _ _); [|discriminate]. cbn [mbind option_bind] in H.
    destruct (kfree _ _); [|discriminate].
    injection H as _ <-. destruct Hr; discriminate.
  - congruence.
  - eexists _, tail. split; [exact H | reflexivity].
Qed.

(** With no separators the rest of the buffer is one token. *)
Lemma read_without_separators st f sf b o d text count writable :
  at_cursor st f sf b o d text [] ->
  Z.of_nat (length text) < 2 ^ 31 ->
  Z.of_nat (length text - o) <= count < 2 ^ 31 ->
  Z.of_nat (length text - o) <= writable ->
  scanner_read st f count writable
  = Some (advance st f sf (Ptr b (length text)),
          Z.of_nat (length text - o), drop o text).
Proof.
  intros Hac Hlen Hcount Hw.
  destruct (token_bounds d text [] o (ac_text _ _ _ _ _ _ _ _ Hac)
              (ac_pos _ _ _ _ _ _ _ _ Hac)) as (B1 & B2 & B3 & _ & B5 & _).
  remember (skip_separators d [] (length text) o) as ts eqn:Ets.
  remember (scan_token d [] (length text) ts) as te eqn:Ete.
  assert (Hts : ts = o).
  { destruct (slice text o ts) as [|c l] eqn:E.
    - apply (f_equal length) in E. rewrite length_slice in E by lia.
      simpl in E. lia.
    - apply Forall_cons in B3 as [B3 _]. inversion B3. }
  assert (Hte : te = length text).
  { destruct (decide (te < length text)%nat) as [H|H]; [|lia].
    destruct (lookup_lt_is_Some_2 text te H) as [c Hc].
    specialize (B5 c Hc). inversion B5. }
  destruct (read_step st f sf b o d text [] count writable ts te Hac Hlen)
    as [Hr _]; [lia | congruence | congruence | lia | lia |].
  rewrite Hr, Hts, Hte, slice_to_end. reflexivity.
Qed.

(** X14.  Setting the separators with length 0 succeeds and leaves the file
    without separators; its next read then returns everything from its
    cursor to the end of the buffer as one token. *)
Theorem empty_separators_one_token st f sf b o d text seps ubuf :
  wf st -> at_cursor st f sf b o d text seps ->
  Z.of_nat (length text) < 2 ^ 31 ->
  exists st',
    scanner_ioctl true st f SCANNER_SET_SEPARATORS 0 ubuf = Some (st', 0)
    /\ separators_of st' f = Some []
    /\ forall count writable,
         Z.of_nat (length text - o) <= count < 2 ^ 31 ->
         Z.of_nat (length text - o) <= writable ->
         exists st'',
           scanner_read st' f count writable
           = Some (st'', Z.of_nat (length text - o), drop o text).
Proof.
  intros Hwf Hac Hlen.
  pose proof (ac_file _ _ _ _ _ _ _ _ Hac) as Hf.
  assert (Hcopy : copy_from_user_ok ubuf 0 = true)
    by (unfold copy_from_user_ok; apply Z.leb_le; lia).
  destruct (scanner_ioctl_set_ok st f sf 0 ubuf Hwf Hf ltac:(lia) Hcopy)
    as (st' & tail & H & Est).
  exists st'. split; [exact H|].
  destruct (wf_seps st Hwf f sf Hf) as (Hs & Hd & _).
  pose proof Hs as (bs & Ebs & _).
  destruct (string_at_lt st _ bs 0 Hwf Hs Ebs) as (_ & Hbs & _).
  pose proof (wf_fresh st Hwf b
                (ex_intro _ d (ac_block _ _ _ _ _ _ _ _ Hac))) as Hb.
  rewrite Ebs in Est. cbn [released take Z.to_nat app] in Est.
  assert (Hac' : at_cursor st' f
                   (set_separators sf (Ptr (next_block (mem st)) 0))
                   b o d text []).
  { rewrite Est. constructor; cbn [files scanner_device mem cells].
    - apply lookup_insert_eq.
    - apply (ac_data _ _ _ _ _ _ _ _ Hac).
    - apply (ac_cursor _ _ _ _ _ _ _ _ Hac).
    - rewrite lookup_delete_ne, lookup_insert_ne by
        (try lia; intros <-; rewrite Ebs in Hd;
         rewrite (ac_data _ _ _ _ _ _ _ _ Hac) in Hd; congruence).
      apply (ac_block _ _ _ _ _ _ _ _ Hac).
    - apply (ac_text _ _ _ _ _ _ _ _ Hac).
    - unfold cstring. cbn [set_separators separators cells].
      rewrite lookup_delete_ne, lookup_insert_eq by lia. reflexivity.
    - apply (ac_pos _ _ _ _ _ _ _ _ Hac). }
  split.
  - unfold separators_of. rewrite (ac_file _ _ _ _ _ _ _ _ Hac').
    apply (ac_seps _ _ _ _ _ _ _ _ Hac').
  - intros count writable Hc Hw. eexists.
    apply (read_without_separators _ _ _ _ _ _ _ count writable Hac' Hlen
             Hc Hw).
Qed.

Lemma empty_separators_one_token_witness :
  exists st',
    scanner_ioctl true written 3%nat SCANNER_SET_SEPARATORS 0 [] = Some (st', 0)
    /\ separators_of st' 3%nat = Some []
    /\ forall count writable,
         Z.of_nat (length sample_text - 0) <= count < 2 ^ 31 ->
         Z.of_nat (length sample_text - 0) <= writable ->
         exists st'',
           scanner_read st' 3%nat count writable
           = Some (st'', Z.of_nat (length sample_text - 0),
                   drop 0 sample_text).
Proof.
  apply (empty_separators_one_token written 3%nat
           (mkFile (Ptr 2%nat 0) NULL (Ptr 1%nat 0)) 2%nat 0
           (sample_text ++ [NUL]) sample_text default_separators []
           (reachable_wf _ reachable_written)).
  - constructor; [reflexivity .. | simpl; lia].
  - simpl. lia.
Defined.

(** ** Only one file can read *)

Lemma single_cursor_exec st c st' r :
  wf st ->
  (forall f g sf sg b o o',
     data (scanner_device st) = Ptr b 0 ->
     files st !! f = Some sf -> current_token sf = Ptr b o ->
     files st !! g = Some sg -> current_token sg = Ptr b o' -> f = g) ->
  exec st c = Some (st', r) ->
  forall f g sf sg b o o',
    data (scanner_device st') = Ptr b 0 ->
    files st' !! f = Some sf -> current_token sf = Ptr b o ->
    files st' !! g = Some sg -> current_token sg = Ptr b o' -> f = g.
Proof.
  intros Hwf Hinv He.
  assert (Hkeep : forall st1,
            data (scanner_device st1) = data (scanner_device st) ->
            (forall f sf bo, files st1 !! f = Some sf ->
               current_token sf = bo -> bo <> NULL ->
               exists sf0, files st !! f = Some sf0
                           /\ exists o0, forall b o, bo = Ptr b o ->
                                current_token sf0 = Ptr b o0) ->
            forall f g sf sg b o o',
              data (scanner_device st1) = Ptr b 0 ->
              files st1 !! f = Some sf -> current_token sf = Ptr b o ->
              files st1 !! g = Some sg -> current_token sg = Ptr b o' ->
              f = g).
  { intros st1 Hd Hfiles f g sf sg b o o' Hb Hf Hcf Hg Hcg.
    destruct (Hfiles f sf _ Hf Hcf ltac:(discriminate))
      as (sf0 & Hf0 & o1 & Ho1).
    destruct (Hfiles g sg _ Hg Hcg ltac:(discriminate))
      as (sg0 & Hg0 & o2 & Ho2).
    apply (Hinv f g sf0 sg0 b o1 o2); try assumption; [congruence | |].
    - apply (Ho1 b o eq_refl).
    - apply (Ho2 b o' eq_refl). }
  destruct c as [fo so f0|f0|f0 count writable|k f0 ubuf count
                 |k f0 cmd arg ubuf]; simpl in He.
  - destruct (scanner_open_inv _ _ _ _ _ _ He)
      as [(-> & _)|(_ & _ & _ & s & _ & ->)]; [exact Hinv|].
    apply Hkeep; [reflexivity|]. cbn [files].
    intros f sf bo Hf Hc Hbo. destruct (decide (f = f0)) as [->|Hne].
    + rewrite lookup_insert_eq in Hf. injection Hf as <-. simpl in Hc.
      congruence.
    + rewrite lookup_insert_ne in Hf by congruence.
      exists sf. split; [exact Hf|]. destruct bo as [|b o]; [congruence|].
      exists o. intros b' o' [= <- <-]. exact Hc.
  - destruct (scanner_release_inv _ _ _ _ He)
      as (_ & [[_ ->]|(sf0 & _ & ->)]); [exact Hinv|].
    apply Hkeep; [reflexivity|]. cbn [files].
    intros f sf bo Hf Hc Hbo. apply lookup_delete_Some in Hf as [_ Hf].
    exists sf. split; [exact Hf|]. destruct bo as [|b o]; [congruence|].
    exists o. intros b' o' [= <- <-]. exact Hc.
  - destruct (scanner_read st f0 count writable) as [[[st1 r1] out]|] eqn:E;
      [|discriminate].
    injection He as -> ->.
    destruct (scanner_read_inv _ _ _ _ _ _ _ Hwf E)
      as (sf0 & b0 & o0 & d & text & seps & Hac & [->| ->]); [exact Hinv|].
    apply Hkeep; [reflexivity|]. unfold advance. cbn [files].
    intros f sf bo Hf Hc Hbo. destruct (decide (f = f0)) as [->|Hne].
    + rewrite lookup_insert_eq in Hf. injection Hf as <-. simpl in Hc.
      exists sf0. split; [apply (ac_file _ _ _ _ _ _ _ _ Hac)|].
      exists o0. intros b o Eb. rewrite <- Hc in Eb. injection Eb as <- _.
      apply (ac_cursor _ _ _ _ _ _ _ _ Hac).
    + rewrite lookup_insert_ne in Hf by congruence.
      exists sf. split; [exact Hf|]. destruct bo as [|b o]; [congruence|].
      exists o. intros b' o' [= <- <-]. exact Hc.
  - destruct (scanner_write_inv _ _ _ _ _ _ _ Hwf He) as (sf0 & Hf0 & Hcases).
    destruct Hcases
      as [(_ & _ & ->)|[(_ & _ & _ & ->)|(_ & _ & _ & tail & ->)]];
      [intros; discriminate | intros; discriminate |].
    cbn [scanner_device data files].
    intros f g sf sg b o o' [= <-] Hf Hcf Hg Hcg.
    assert (Hw : forall h sh oh,
              <[f0:=set_current_token sf0 (Ptr (next_block (mem st)) 0)]>
                (files st) !! h = Some sh ->
              current_token sh = Ptr (next_block (mem st)) oh -> h = f0).
    { intros h sh oh Hh Hch. destruct (decide (h = f0)) as [->|Hne];
        [reflexivity|].
      rewrite lookup_insert_ne in Hh by congruence.
      destruct (wf_cursor st Hwf h sh _ oh Hh Hch) as [Hlt _]. lia. }
    rewrite (Hw f sf o Hf Hcf), (Hw g sg o' Hg Hcg). reflexivity.
  - destruct (scanner_ioctl_inv _ _ _ _ _ _ _ _ Hwf He) as (sf0 & Hf0 & Hcases).
    destruct Hcases as [(-> & _)|[(_ & _ & ->)|(_ & _ & tail & ->)]];
      [exact Hinv | exact Hinv |].
    apply Hkeep; [reflexivity|]. cbn [files].
    intros f sf bo Hf Hc Hbo. destruct (decide (f = f0)) as [->|Hne].
    + rewrite lookup_insert_eq in Hf. injection Hf as <-. simpl in Hc.
      exists sf0. split; [exact Hf0|]. destruct bo as [|b o]; [congruence|].
      exists o. intros b' o' [= <- <-]. exact Hc.
    + rewrite lookup_insert_ne in Hf by congruence.
      exists sf. split; [exact Hf|]. destruct bo as [|b o]; [congruence|].
      exists o. intros b' o' [= <- <-]. exact Hc.
Qed.

Lemma reachable_single_cursor st :
  reachable st ->
  forall f g sf sg b o o',
    data (scanner_device st) = Ptr b 0 ->
    files st !! f = Some sf -> current_token sf = Ptr b o ->
    files st !! g = Some sg -> current_token sg = Ptr b o' -> f = g.
Proof.
  induction 1 as [st H|st c st' r Hr IH H].
  - rewrite scanner_init_boot in H. injection H as <-.
    intros f g sf sg b o o' Hd. discriminate.
  - apply (single_cursor_exec st c st' r (reachable_wf st Hr) IH H).
Qed.

(** X8.  On a loaded module at most one open file has a cursor into the current
    buffer, the one that wrote it: if reads through two files both have a
    defined result, the two files are the same. *)
Theorem only_one_file_can_read st f g c1 w1 c2 w2 :
  reachable st ->
  is_Some (scanner_read st f c1 w1) ->
  is_Some (scanner_read st g c2 w2) ->
  f = g.
Proof.
  intros Hr [[[st1 r1] out1] H1] [[[st2 r2] out2] H2].
  pose proof (reachable_wf st Hr) as Hwf.
  destruct (scanner_read_inv _ _ _ _ _ _ _ Hwf H1)
    as (sf & b & o & d & text & seps & Hacf & _).
  destruct (scanner_read_inv _ _ _ _ _ _ _ Hwf H2)
    as (sg & b' & o' & d' & text' & seps' & Hacg & _).
  pose proof (ac_data _ _ _ _ _ _ _ _ Hacf) as Hd.
  pose proof (ac_data _ _ _ _ _ _ _ _ Hacg) as Hd'.
  assert (b' = b) as -> by congruence.
  apply (reachable_single_cursor st Hr f g sf sg b o o' Hd
           (ac_file _ _ _ _ _ _ _ _ Hacf) (ac_cursor _ _ _ _ _ _ _ _ Hacf)
           (ac_file _ _ _ _ _ _ _ _ Hacg) (ac_cursor _ _ _ _ _ _ _ _ Hacg)).
Qed.

Lemma only_one_file_can_read_witness : 3%nat = 3%nat.
Proof.
  apply (only_one_file_can_read written 3%nat 3%nat 1023 1023 5 5
           reachable_written).
  - eexists. vm_compute. reflexivity.
  - eexists. vm_compute. reflexivity.
Defined.

(** ** hw5/Scanner.c: bounds of a read, and write followed by read *)

Lemma read_loop_bounds (buf seps : list ascii) (size : nat) (len writable : Z)
    (fuel : nat) :
  forall pos out pos' res,
    Scanner.read_loop fuel buf seps size len writable pos out = (pos', res) ->
    (pos <= pos')%nat
    /\ ((pos <= size)%nat -> (pos' <= size)%nat)
    /\ (exists more,
          Scanner.delivered res = out ++ more
          /\ Forall (fun c => found (strchr seps c) = false) more
          /\ (length more <= pos' - pos)%nat
          /\ (Z.of_nat (length out) <= len ->
              Z.of_nat (length (Scanner.delivered res)) <= len)
          /\ (Z.of_nat (length out) <= writable ->
              Z.of_nat (length (Scanner.delivered res)) <= writable))
    /\ forall out', res = Scanner.Fault out' ->
                    writable <= Z.of_nat (length out').
Proof.
  assert (Hnil : forall (out : list ascii) p,
            exists more, out = out ++ more
              /\ Forall (fun c => found (strchr seps c) = false) more
              /\ (length more <= p)%nat
              /\ (Z.of_nat (length out) <= len -> Z.of_nat (length out) <= len)
              /\ (Z.of_nat (length out) <= writable ->
                  Z.of_nat (length out) <= writable)).
  { intros out p. exists []. rewrite app_nil_r. simpl.
    repeat split; auto; lia. }
  induction fuel as [|fuel IH]; intros pos out pos' res H; simpl in H.
  - injection H as <- <-. split; [lia|]. split; [auto|].
    split; [apply Hnil | discriminate].
  - destruct ((pos <? size)%nat && (Z.of_nat (length out) <? len)) eqn:E.
    + apply andb_true_iff in E as [E1 E2].
      apply Nat.ltb_lt in E1. apply Z.ltb_lt in E2.
      destruct (found (strchr seps (Scanner.deref buf pos))) eqn:Es.
      * destruct (0 <? length out)%nat.
        -- injection H as <- <-. split; [lia|]. split; [lia|].
           split; [apply Hnil | discriminate].
        -- destruct (IH _ _ _ _ H) as (H1 & H2 & H3 & H4).
           split; [lia|]. split; [intros; apply H2; lia|].
           split; [|exact H4].
           destruct H3 as (more & Hd & Hm & Hl & Hc).
           exists more. repeat split; try tauto. lia.
      * destruct (Z.of_nat (length out) <? writable) eqn:Ew.
        -- apply Z.ltb_lt in Ew.
           destruct (IH _ _ _ _ H) as (H1 & H2 & H3 & H4).
           split; [lia|]. split; [intros; apply H2; lia|].
           split; [|exact H4].
           destruct H3 as (more & Hd & Hm & Hl & Hc).
           exists (Scanner.deref buf pos :: more).
           rewrite Hd, <- app_assoc. split; [reflexivity|].
           split; [apply Forall_cons; split; assumption|].
           rewrite Hd in Hc.
           rewrite !length_app in *. simpl in *.
           split; [lia|]. split; intros; lia.
        -- apply Z.ltb_ge in Ew. injection H as <- <-.
           split; [lia|]. split; [auto|].
           split; [apply Hnil|]. intros out' [= <-]. exact Ew.
    + injection H as <- <-. split; [lia|]. split; [auto|].
      split; [apply Hnil | discriminate].
Qed.

(** X19.  [dev_read] never moves the position backwards or beyond the size
    of the buffer, and leaves the buffer and the separators alone.  The
    bytes it has stored in the user buffer are at most [len], at most what
    the user buffer accepts, at most as many as the position advanced, and
    none of them is a separator.  It returns the number of these bytes, or
    fails: with [-ERESTARTSYS] before anything is done, or with [-EFAULT]
    once the user buffer accepts no further byte, the bytes stored before
    staying delivered and the position staying behind them. *)
Theorem dev_read_bounds interrupted dev len writable dev' r out :
  (Scanner.buffer_position dev <= Scanner.buffer_size dev)%nat ->
  0 <= len -> 0 <= writable ->
  Scanner.dev_read interrupted dev len writable = (dev', r, out) ->
  Scanner.data_buffer dev' = Scanner.data_buffer dev
  /\ Scanner.buffer_size dev' = Scanner.buffer_size dev
  /\ Scanner.separators dev' = Scanner.separators dev
  /\ (Scanner.buffer_position dev <= Scanner.buffer_position dev'
      <= Scanner.buffer_size dev)%nat
  /\ Z.of_nat (length out) <= len
  /\ Z.of_nat (length out) <= writable
  /\ (length out <= Scanner.buffer_position dev'
                    - Scanner.buffer_position dev)%nat
  /\ Forall (fun c =>
               found (strchr (Scanner.array_string
                                (Scanner.separators dev)) c) = false)
            out
  /\ (r = Z.of_nat (length out)
      \/ (r = - Scanner.ERESTARTSYS /\ interrupted = true
          /\ out = [] /\ dev' = dev)
      \/ (r = - EFAULT /\ interrupted = false
          /\ Z.of_nat (length out) = writable)).
Proof.
  intros Hpos Hlen Hwr. unfold Scanner.dev_read.
  assert (Hsame : forall rr,
            rr = 0 \/ rr = - Scanner.ERESTARTSYS /\ interrupted = true ->
            Scanner.data_buffer dev = Scanner.data_buffer dev
            /\ Scanner.buffer_size dev = Scanner.buffer_size dev
            /\ Scanner.separators dev = Scanner.separators dev
            /\ (Scanner.buffer_position dev <= Scanner.buffer_position dev
                <= Scanner.buffer_size dev)%nat
            /\ Z.of_nat (length (@nil ascii)) <= len
            /\ Z.of_nat (length (@nil ascii)) <= writable
            /\ (length (@nil ascii) <= Scanner.buffer_position dev
                                       - Scanner.buffer_position dev)%nat
            /\ Forall (fun c =>
                         found (strchr (Scanner.array_string
                                          (Scanner.separators dev)) c) = false)
                      []
            /\ (rr = Z.of_nat (length (@nil ascii))
                \/ (rr = - Scanner.ERESTARTSYS /\ interrupted = true
                    /\ @nil ascii = [] /\ dev = dev)
                \/ (rr = - EFAULT /\ interrupted = false
                    /\ Z.of_nat (length (@nil ascii)) = writable))).
  { intros rr Hrr. simpl.
    split; [reflexivity|]. split; [reflexivity|]. split; [reflexivity|].
    split; [lia|]. split; [lia|]. split; [lia|]. split; [lia|].
    split; [constructor|].
    destruct Hrr as [-> | [-> ->]]; [left; reflexivity | right; left; auto]. }
  destruct interrupted.
  { intros [= <- <- <-]. apply Hsame. right. auto. }
  destruct (Scanner.data_buffer dev) as [buf|] eqn:Hbuf.
  2:{ intros [= <- <- <-]. rewrite Hbuf. apply Hsame. left. reflexivity. }
  destruct (Scanner.buffer_size dev <=? Scanner.buffer_position dev)%nat.
  { intros [= <- <- <-]. rewrite Hbuf. apply Hsame. left. reflexivity. }
  destruct (Scanner.read_loop _ _ _ _ _ _ _ _) as [pos res] eqn:E.
  destruct (read_loop_bounds _ _ _ _ _ _ _ _ _ _ E) as (B1 & B2 & B3 & B4).
  destruct B3 as (more & Hd & Hm & Hl & Hc & Hw).
  simpl in Hd, Hc, Hw.
  destruct res as [out0|out0]; intros [= <- <- <-];
    cbn [Scanner.set_position Scanner.data_buffer Scanner.buffer_size
         Scanner.buffer_position Scanner.separators Scanner.delivered] in *;
    subst out0; rewrite Hbuf;
    (split; [reflexivity|]); (split; [reflexivity|]); (split; [reflexivity|]);
    (split; [lia|]); (split; [lia|]); (split; [lia|]); (split; [lia|]);
    (split; [exact Hm|]).
  - left. reflexivity.
  - right. right. specialize (B4 _ eq_refl).
    split; [reflexivity|]. split; [reflexivity|]. lia.
Qed.

Lemma dev_read_bounds_witness :
  let dev0 := Scanner.mkDev (Some (bytes "hello world")) 11 0
                (" "%char :: replicate 9 NUL) in
  let dev1 := Scanner.mkDev (Some (bytes "hello world")) 11 2
                (" "%char :: replicate 9 NUL) in
  Scanner.data_buffer dev1 = Scanner.data_buffer dev0
  /\ Scanner.buffer_size dev1 = Scanner.buffer_size dev0
  /\ Scanner.separators dev1 = Scanner.separators dev0
  /\ (Scanner.buffer_position dev0 <= Scanner.buffer_position dev1
      <= Scanner.buffer_size dev0)%nat
  /\ Z.of_nat (length (bytes "he")) <= 5
  /\ Z.of_nat (length (bytes "he")) <= 2
  /\ (length (bytes "he") <= Scanner.buffer_position dev1
                             - Scanner.buffer_position dev0)%nat
  /\ Forall (fun c =>
               found (strchr (Scanner.array_string
                                (Scanner.separators dev0)) c) = false)
            (bytes "he")
  /\ (- EFAULT = Z.of_nat (length (bytes "he"))
      \/ (- EFAULT = - Scanner.ERESTARTSYS /\ false = true
          /\ bytes "he" = [] /\ dev1 = dev0)
      \/ (- EFAULT = - EFAULT /\ false = false
          /\ Z.of_nat (length (bytes "he")) = 2)).
Proof.
  intros dev0 dev1.
  apply (dev_read_bounds false dev0 5 2 dev1 (- EFAULT) (bytes "he")).
  - simpl. lia.
  - lia.
  - lia.
  - vm_compute. reflexivity.
Defined.

Lemma read_loop_end_pos (buf seps : list ascii) (len writable : Z)
    (fuel pos : nat) (out rest : list ascii) :
  drop pos buf = rest ->
  out <> [] ->
  (forall c, head rest = Some c -> found (strchr seps c) = true) ->
  exists pos',
    Scanner.read_loop fuel buf seps (length buf) len writable pos out
    = (pos', Scanner.Copied out)
    /\ (pos <= pos' <= S pos)%nat.
Proof.
  intros Hd Hout Hrest. destruct fuel as [|fuel];
    [exists pos; split; [reflexivity | lia]|].
  cbn [Scanner.read_loop].
  destruct ((pos <? length buf)%nat && (Z.of_nat (length out) <? len)) eqn:E;
    [|exists pos; split; [reflexivity | lia]].
  apply andb_true_iff in E as [E1 E2]. apply Nat.ltb_lt in E1.
  destruct rest as [|c rest].
  - apply (f_equal length) in Hd. rewrite length_drop in Hd. simpl in Hd. lia.
  - destruct (dev_deref_head buf pos c _ Hd) as (Hde & _ & _).
    rewrite Hde, (Hrest c eq_refl).
    destruct out as [|x out]; [congruence|].
    exists (S pos). split; [reflexivity | lia].
Qed.

(** X21.  [dev_write] followed by [dev_read] in [Scanner.c]: a write whose
    payload can be copied in completely returns its length, stores the
    payload and puts the position at 0; the next read, given room,
    returns the first token of the payload and leaves the position behind
    it, one further when the separator that ends the token was consumed. *)
Theorem dev_write_then_read dev ubuf len skipped token rest cnt writable :
  0 <= len <= Z.of_nat (length ubuf) ->
  take (Z.to_nat len) ubuf = skipped ++ token ++ rest ->
  let seps := Scanner.array_string (Scanner.separators dev) in
  Forall (fun c => found (strchr seps c) = true) skipped ->
  Forall (fun c => found (strchr seps c) <> true) token ->
  token <> [] ->
  (forall c, head rest = Some c -> found (strchr seps c) = true) ->
  Z.of_nat (length token) <= cnt ->
  Z.of_nat (length token) <= writable ->
  exists dev1 dev2,
    Scanner.dev_write false true dev ubuf len = (dev1, len)
    /\ Scanner.data_buffer dev1 = Some (take (Z.to_nat len) ubuf)
    /\ Scanner.buffer_position dev1 = 0%nat
    /\ Scanner.dev_read false dev1 cnt writable
       = (dev2, Z.of_nat (length token), token)
    /\ (length skipped + length token <= Scanner.buffer_position dev2
        <= length skipped + length token + 1)%nat.
Proof.
  intros Hlen Hd seps Hskip Htok Hne Hrest Hcnt Hw.
  set (buf := take (Z.to_nat len) ubuf) in *.
  assert (Hsize : length buf = Z.to_nat len)
    by (unfold buf; rewrite length_take; lia).
  assert (Hsep1 : Scanner.separators
                    match Scanner.data_buffer dev with
                    | Some _ => Scanner.mkDev None 0 0 (Scanner.separators dev)
                    | None => dev
                    end = Scanner.separators dev)
    by (destruct (Scanner.data_buffer dev); reflexivity).
  assert (Htl : (0 < length token)%nat)
    by (destruct token; [congruence | simpl; lia]).
  assert (Htotal : (length buf
                    = length skipped + length token + length rest)%nat).
  { rewrite Hd, !length_app. lia. }
  assert (Hd0 : drop 0 buf = skipped ++ token ++ rest) by exact Hd.
  assert (Hd1 : drop (0 + length skipped) buf = token ++ rest).
  { rewrite Nat.add_0_l, Hd, drop_app_length. reflexivity. }
  destruct (read_loop_end_pos buf seps cnt writable
              (length buf - 0 - length skipped - length token)
              (0 + length skipped + length token) token rest)
    as (pos2 & R2 & Hp2); [|exact Hne|exact Hrest|].
  { rewrite Nat.add_0_l, Hd, <- drop_drop, drop_app_length, drop_app_length.
    reflexivity. }
  eexists _, (Scanner.set_position _ pos2).
  split; [|split; [|split; [|split]]].
  - unfold Scanner.dev_write. cbn [negb].
    replace (len <=? Z.of_nat (length ubuf)) with true
      by (symmetry; apply Z.leb_le; lia).
    cbn [negb]. reflexivity.
  - reflexivity.
  - reflexivity.
  - unfold Scanner.dev_read.
    cbn [Scanner.data_buffer Scanner.buffer_size Scanner.buffer_position
         Scanner.separators].
    rewrite Hsep1. fold buf. fold seps. rewrite <- Hsize.
    replace (length buf <=? 0)%nat with false
      by (symmetry; apply Nat.leb_gt; lia).
    rewrite (read_loop_skip buf seps cnt writable skipped (token ++ rest)
               Hskip ltac:(lia) _ _ Hd0) by lia.
    rewrite (read_loop_take buf seps cnt writable token Htok
               _ _ _ [] Hd1) by (simpl; lia).
    cbn [app]. rewrite R2. reflexivity.
  - cbn [Scanner.set_position Scanner.buffer_position]. lia.
Qed.

Lemma dev_write_then_read_witness :
  let dev := Scanner.mkDev None 0 0 (" "%char :: replicate 9 NUL) in
  exists dev1 dev2,
    Scanner.dev_write false true dev (bytes "  ab cd") 7 = (dev1, 7)
    /\ Scanner.data_buffer dev1 = Some (take (Z.to_nat 7) (bytes "  ab cd"))
    /\ Scanner.buffer_position dev1 = 0%nat
    /\ Scanner.dev_read false dev1 5 5
       = (dev2, Z.of_nat (length (bytes "ab")), bytes "ab")
    /\ (length (bytes "  ") + length (bytes "ab")
        <= Scanner.buffer_position dev2
        <= length (bytes "  ") + length (bytes "ab") + 1)%nat.
Proof.
  intros dev.
  apply (dev_write_then_read dev (bytes "  ab cd") 7 (bytes "  ")
           (bytes "ab") (bytes " cd") 5 5).
  - simpl. lia.
  - reflexivity.
  - repeat constructor.
  - repeat constructor; discriminate.
  - discriminate.
  - intros c [= <-]. reflexivity.
  - simpl. lia.
  - simpl. lia.
Defined.

Lemma dev_read_continues_token_witness :
  let dev := Scanner.mkDev (Some (bytes "hello world")) 11 0
               (" "%char :: replicate 9 NUL) in
  exists dev1 dev2,
    Scanner.dev_read false dev 2 1023
      = (dev1, 2, take (Z.to_nat 2) (bytes "hello"))
    /\ Scanner.buffer_position dev1 = (0 + length (@nil ascii) + Z.to_nat 2)%nat
    /\ Scanner.dev_read false dev1 1023 1023
       = (dev2, Z.of_nat (length (bytes "hello")) - 2,
          drop (Z.to_nat 2) (bytes "hello")).
Proof.
  intros dev.
  apply (dev_read_continues_token dev (bytes "hello world") 0 []
           (bytes "hello") (bytes " world") 2 1023 1023 1023).
  - reflexivity.
  - reflexivity.
  - reflexivity.
  - reflexivity.
  - constructor.
  - repeat constructor; discriminate.
  - intros c [= <-]. reflexivity.
  - simpl. lia.
  - lia.
  - simpl. lia.
  - simpl. lia.
Defined.

(** ** hw5/TestScanner.c: what the program prints *)

Lemma scanner_open_ok st f :
  wf st ->
  exists st1 sf1,
    scanner_open true true st f = Some (st1, 0)
    /\ wf st1 /\ files st1 !! f = Some sf1.
Proof.
  intros Hwf. destruct (scanner_open_defined true true st f Hwf) as [[st1 r] H].
  pose proof (wf_scanner_open _ _ _ _ _ _ Hwf H) as Hwf1.
  destruct (scanner_open_inv _ _ _ _ _ _ H)
    as [(_ & _ & [E|E])|(_ & _ & -> & s & _ & ->)]; try discriminate.
  eexists _, _. split; [exact H|]. split; [exact Hwf1|].
  apply lookup_insert_eq.
Qed.

Lemma scanner_ioctl_set_result st f sf arg ubuf :
  wf st -> files st !! f = Some sf -> 0 <= arg < 2 ^ 64 - 1 ->
  copy_from_user_ok ubuf arg = true ->
  exists st2 sf2,
    scanner_ioctl true st f SCANNER_SET_SEPARATORS arg ubuf = Some (st2, 0)
    /\ wf st2 /\ files st2 !! f = Some sf2
    /\ separators_of st2 f = until_nul (take (Z.to_nat arg) ubuf ++ [NUL]).
Proof.
  intros Hwf Hf Harg Hcopy.
  destruct (scanner_ioctl_set_ok st f sf arg ubuf Hwf Hf Harg Hcopy)
    as (st2 & tail & H & Est).
  pose proof (wf_scanner_ioctl _ _ _ _ _ _ _ _ Hwf H) as Hwf2.
  destruct (wf_seps st Hwf f sf Hf) as (Hs & _).
  pose proof Hs as (bs & Ebs & _).
  destruct (string_at_lt st _ bs 0 Hwf Hs Ebs) as (_ & Hbs & _).
  exists st2, (set_separators sf (Ptr (next_block (mem st)) 0)).
  split; [exact H|]. split; [exact Hwf2|].
  rewrite Est, Ebs. cbn [released].
  split; [apply lookup_insert_eq|].
  unfold separators_of. cbn [files mem]. rewrite lookup_insert_eq.
  cbn [mbind option_bind set_separators separators]. unfold cstring.
  cbn [cells]. rewrite lookup_delete_ne, lookup_insert_eq by lia.
  rewrite drop_0. apply until_nul_tail.
Qed.

Lemma scanner_write_succeeds st f sf ubuf count :
  wf st -> files st !! f = Some sf -> 0 <= count < 2 ^ 64 - 1 ->
  copy_from_user_ok ubuf count = true ->
  exists st3, scanner_write true st f ubuf count = Some (st3, count).
Proof.
  intros Hwf Hf Hc Hcopy.
  destruct (scanner_write_defined true st f sf ubuf count Hwf Hf Hc)
    as [[st3 r] H].
  destruct (scanner_write_inv _ _ _ _ _ _ _ Hwf H) as (sf' & _ & Hcases).
  destruct Hcases as [(E & _)|[(_ & E & _)|(_ & _ & -> & _)]];
    [discriminate | congruence |].
  exists st3. exact H.
Qed.

(** The loop of [main] on the text of the program, with the separators
    the program asks for. *)
Lemma print_tokens_sample st f sf b tail fuel :
  wf st ->
  at_cursor st f sf b 0 (TestScanner.text_literal ++ NUL :: tail)
            TestScanner.text_literal TestScanner.separators_literal ->
  (5 <= fuel)%nat ->
  exists st4 sf4,
    TestScanner.print_tokens fuel st f
    = Some (st4, 0, [bytes "This"; bytes "is"; bytes "a"; bytes "test."])
    /\ wf st4 /\ files st4 !! f = Some sf4.
Proof.
  intros Hwf Hac Hfuel.
  assert (Hlen : Z.of_nat (length TestScanner.text_literal) < 2 ^ 31)
    by (simpl; lia).
  destruct (read_step _ _ _ _ _ _ _ _ 1023 1024 0%nat 4%nat Hac Hlen)
    as [R1 Hac1]; [lia | reflexivity | reflexivity | simpl; lia ..|].
  pose proof (wf_scanner_read _ _ _ _ _ _ _ Hwf R1) as Hwf1.
  destruct (read_step _ _ _ _ _ _ _ _ 1023 1024 5%nat 7%nat Hac1 Hlen)
    as [R2 Hac2]; [lia | reflexivity | reflexivity | simpl; lia ..|].
  pose proof (wf_scanner_read _ _ _ _ _ _ _ Hwf1 R2) as Hwf2.
  destruct (read_step _ _ _ _ _ _ _ _ 1023 1024 8%nat 9%nat Hac2 Hlen)
    as [R3 Hac3]; [lia | reflexivity | reflexivity | simpl; lia ..|].
  pose proof (wf_scanner_read _ _ _ _ _ _ _ Hwf2 R3) as Hwf3.
  destruct (read_step _ _ _ _ _ _ _ _ 1023 1024 10%nat 15%nat Hac3 Hlen)
    as [R4 Hac4]; [lia | reflexivity | reflexivity | simpl; lia ..|].
  pose proof (wf_scanner_read _ _ _ _ _ _ _ Hwf3 R4) as Hwf4.
  destruct (read_step _ _ _ _ _ _ _ _ 1023 1024 15%nat 15%nat Hac4 Hlen)
    as [R5 Hac5]; [lia | reflexivity | reflexivity | simpl; lia ..|].
  pose proof (wf_scanner_read _ _ _ _ _ _ _ Hwf4 R5) as Hwf5.
  destruct fuel as [|[|[|[|[|fuel]]]]]; try lia.
  eexists _, _. split; [|split; [exact Hwf5 | apply (ac_file _ _ _ _ _ _ _ _ Hac5)]].
  cbn [TestScanner.print_tokens]. unfold TestScanner.read_token.
  rewrite R1. cbn [Nat.sub Z.of_nat Pos.of_succ_nat Pos.succ Z.ltb Z.compare
                   Pos.compare Pos.compare_cont].
  rewrite R2. cbn [Nat.sub Z.of_nat Pos.of_succ_nat Pos.succ Z.ltb Z.compare
                   Pos.compare Pos.compare_cont].
  rewrite R3. cbn [Nat.sub Z.of_nat Pos.of_succ_nat Pos.succ Z.ltb Z.compare
                   Pos.compare Pos.compare_cont].
  rewrite R4. cbn [Nat.sub Z.of_nat Pos.of_succ_nat Pos.succ Z.ltb Z.compare
                   Pos.compare Pos.compare_cont].
  rewrite R5. reflexivity.
Qed.

Lemma separators_literal_copied (n : nat) (after : list ascii) :
  (3 <= n)%nat ->
  until_nul (take n (TestScanner.literal_memory TestScanner.separators_literal
                       after) ++ [NUL])
  = Some TestScanner.separators_literal.
Proof.
  intros H. destruct n as [|[|[|[|n]]]]; try lia; reflexivity.
Qed.

(** X17.  hw5/TestScanner.c, [main]: run on a reachable state of
    the driver in which every allocation succeeds, the program prints the
    four tokens This, is, a, test. and exits with EXIT_SUCCESS, leaving its
    file closed -- provided the address of the string literal it passes to
    [set_separators], which the driver also takes as the number of bytes
    to copy, is at least 3 and no more than the bytes readable there. *)
Theorem main_prints_four_tokens (w : TestScanner.world) (fuel : nat)
    (st : kernel) :
  reachable st ->
  TestScanner.open_file_ok w = true ->
  TestScanner.open_sep_ok w = true ->
  TestScanner.ioctl_kmalloc_ok w = true ->
  TestScanner.write_kmalloc_ok w = true ->
  3 <= TestScanner.sep_addr w <= 4 + Z.of_nat (length (TestScanner.sep_after w)) ->
  TestScanner.sep_addr w < 2 ^ 64 - 1 ->
  (5 <= fuel)%nat ->
  exists st',
    TestScanner.main w fuel st
    = Some (st', TestScanner.EXIT_SUCCESS,
            [bytes "This"; bytes "is"; bytes "a"; bytes "test."])
    /\ files st' !! TestScanner.filp w = None.
Proof.
  intros Hre Ho1 Ho2 Hi Hw Haddr Hmax Hfuel.
  pose proof (reachable_wf st Hre) as Hwf.
  unfold TestScanner.main. rewrite Ho1, Ho2, Hi, Hw.
  destruct (scanner_open_ok st (TestScanner.filp w) Hwf)
    as (st1 & sf1 & -> & Hwf1 & Hf1).
  change (0 <? 0) with false. cbn iota.
  destruct (scanner_ioctl_set_result st1 (TestScanner.filp w) sf1
              (TestScanner.sep_addr w)
              (TestScanner.literal_memory TestScanner.separators_literal
                 (TestScanner.sep_after w)) Hwf1 Hf1)
    as (st2 & sf2 & -> & Hwf2 & Hf2 & Hseps2); [lia | |].
  { unfold copy_from_user_ok, TestScanner.literal_memory. apply Z.leb_le.
    rewrite length_app. simpl. lia. }
  change (negb (0 =? 0)) with false. cbn iota.
  destruct (scanner_write_succeeds st2 (TestScanner.filp w) sf2
              (TestScanner.literal_memory TestScanner.text_literal
                 (TestScanner.text_after w)) 15 Hwf2 Hf2)
    as (st3 & Hwr); [lia | |].
  { unfold copy_from_user_ok, TestScanner.literal_memory. apply Z.leb_le.
    rewrite length_app. simpl. lia. }
  rewrite Hwr. change (15 <? 0) with false. cbn iota.
  pose proof (wf_scanner_write _ _ _ _ _ _ _ Hwf2 Hwr) as Hwf3.
  assert (Htake : forall after,
            take (Z.to_nat 15)
              (TestScanner.literal_memory TestScanner.text_literal after)
            = TestScanner.text_literal) by reflexivity.
  destruct (scanner_write_ok st2 (TestScanner.filp w) _ 15 st3 Hwf2
              ltac:(lia) Hwr)
    as (sf2' & tail & seps & _ & _ & Hac).
  rewrite Htake in Hac. specialize (Hac _ eq_refl).
  remember (set_current_token sf2' (Ptr (next_block (mem st2)) 0)) as sf3.
  remember (next_block (mem st2)) as b.
  assert (Hseps3 : separators_of st3 (TestScanner.filp w)
                   = Some TestScanner.separators_literal).
  { rewrite (scanner_write_separators _ _ _ _ _ _ _ _ Hwf2 Hwr), Hseps2.
    apply separators_literal_copied. lia. }
  assert (Hac' : at_cursor st3 (TestScanner.filp w) sf3 b 0
                   (TestScanner.text_literal ++ NUL :: tail)
                   TestScanner.text_literal TestScanner.separators_literal).
  { destruct Hac as [A1 A2 A3 A4 A5 A6 A7].
    unfold separators_of in Hseps3. rewrite A1 in Hseps3.
    cbn [mbind option_bind] in Hseps3.
    constructor; assumption. }
  destruct (print_tokens_sample st3 (TestScanner.filp w) sf3 b tail fuel
              Hwf3 Hac' Hfuel) as (st4 & sf4 & -> & Hwf4 & Hf4).
  change (0 <? 0) with false. cbn iota.
  unfold TestScanner.close_and_exit.
  destruct (scanner_release_defined st4 (TestScanner.filp w) Hwf4)
    as [[st5 r5] Hrel].
  rewrite Hrel. exists st5. split; [reflexivity|].
  destruct (scanner_release_inv _ _ _ _ Hrel)
    as (_ & [(E & _)|(sf' & _ & ->)]); [congruence|].
  apply lookup_delete_eq.
Qed.

Lemma main_prints_four_tokens_witness :
  exists st',
    TestScanner.main (TestScanner.mkWorld 3 true true true true 4 [] [])
                     6 boot
    = Some (st', TestScanner.EXIT_SUCCESS,
            [bytes "This"; bytes "is"; bytes "a"; bytes "test."])
    /\ files st' !! 3%nat = None.
Proof.
  apply (main_prints_four_tokens
           (TestScanner.mkWorld 3 true true true true 4 [] []) 6 boot
           reachable_boot eq_refl eq_refl eq_refl eq_refl);
    simpl; lia.
Defined.

Lemma scanner_ioctl_enomem st f sf arg ubuf :
  files st !! f = Some sf ->
  scanner_ioctl false st f SCANNER_SET_SEPARATORS arg ubuf
  = Some (st, - ENOMEM).
Proof.
  intros Hf. unfold scanner_ioctl. rewrite Hf. reflexivity.
Qed.

(** X18.  hw5/TestScanner.c, [main]: when the driver cannot take
    the separators -- its allocation of [arg + 1] bytes fails, or fewer
    than [arg] bytes can be read at the address [arg] of the string
    literal -- the program prints no token, closes its file and exits with
    EXIT_FAILURE, without having written its text. *)
Theorem main_fails_without_separators (w : TestScanner.world) (fuel : nat)
    (st : kernel) :
  reachable st ->
  TestScanner.open_file_ok w = true ->
  TestScanner.open_sep_ok w = true ->
  0 <= TestScanner.sep_addr w < 2 ^ 64 - 1 ->
  TestScanner.ioctl_kmalloc_ok w = false
  \/ 4 + Z.of_nat (length (TestScanner.sep_after w)) < TestScanner.sep_addr w ->
  exists st',
    TestScanner.main w fuel st = Some (st', TestScanner.EXIT_FAILURE, [])
    /\ files st' !! TestScanner.filp w = None
    /\ scanner_device st' = scanner_device st.
Proof.
  intros Hre Ho1 Ho2 Haddr Hbad.
  pose proof (reachable_wf st Hre) as Hwf.
  unfold TestScanner.main. rewrite Ho1, Ho2.
  destruct (scanner_open_ok st (TestScanner.filp w) Hwf)
    as (st1 & sf1 & Hop & Hwf1 & Hf1).
  rewrite Hop. change (0 <? 0) with false. cbn iota.
  assert (Hdev1 : scanner_device st1 = scanner_device st).
  { destruct (scanner_open_inv _ _ _ _ _ _ Hop)
      as [(_ & E & _)|(_ & _ & _ & s & _ & ->)]; [discriminate | reflexivity]. }
  destruct (scanner_ioctl_defined (TestScanner.ioctl_kmalloc_ok w) st1
              (TestScanner.filp w) sf1 SCANNER_SET_SEPARATORS
              (TestScanner.sep_addr w)
              (TestScanner.literal_memory TestScanner.separators_literal
                 (TestScanner.sep_after w)) Hwf1 Hf1 Haddr)
    as [[st2 r2] Hio].
  rewrite Hio.
  pose proof (wf_scanner_ioctl _ _ _ _ _ _ _ _ Hwf1 Hio) as Hwf2.
  assert (Hr2 : r2 <> 0 /\ scanner_device st2 = scanner_device st1).
  { destruct (scanner_ioctl_inv _ _ _ _ _ _ _ _ Hwf1 Hio)
      as (sf & _ & [(-> & [-> | ->])|[(_ & -> & ->)|(Hc & -> & _)]]);
      try (split; [discriminate | reflexivity]).
    exfalso. destruct Hbad as [Hk | Hlen].
    - rewrite Hk in Hio.
      rewrite (scanner_ioctl_enomem _ _ _ _ _ Hf1) in Hio.
      injection Hio as _ E. unfold ENOMEM in E. lia.
    - unfold copy_from_user_ok, TestScanner.literal_memory in Hc.
      apply Z.leb_le in Hc. rewrite length_app in Hc. simpl in Hc. lia. }
  destruct Hr2 as [Hr2 Hdev2].
  apply Z.eqb_neq in Hr2. rewrite Hr2. cbn [negb].
  unfold TestScanner.close_and_exit.
  destruct (scanner_release_defined st2 (TestScanner.filp w) Hwf2)
    as [[st3 r3] Hrel].
  rewrite Hrel. exists st3. split; [reflexivity|].
  destruct (scanner_release_inv _ _ _ _ Hrel)
    as (_ & [(E & ->)|(sf' & _ & ->)]).
  - split; [exact E | congruence].
  - split; [apply lookup_delete_eq | cbn [scanner_device]; congruence].
Qed.

Lemma main_fails_without_separators_witness :
  exists st',
    TestScanner.main (TestScanner.mkWorld 3 true true true true 5 [] [])
                     6 boot
    = Some (st', TestScanner.EXIT_FAILURE, [])
    /\ files st' !! 3%nat = None
    /\ scanner_device st' = scanner_device boot.
Proof.
  apply (main_fails_without_separators
           (TestScanner.mkWorld 3 true true true true 5 [] []) 6 boot
           reachable_boot eq_refl eq_refl).
  - simpl. lia.
  - right. simpl. lia.
Defined.

Lemma scanner_open_cursor_null_witness :
  exists sf,
    files opened !! 3%nat = Some sf
    /\ current_token sf = NULL
    /\ next_char sf = data (scanner_device boot)
    /\ forall count writable, scanner_read opened 3%nat count writable = None.
Proof.
  apply (scanner_open_cursor_null true true boot 3%nat opened).
  vm_compute. reflexivity.
Defined.


Lemma failed_write_loses_buffer_witness :
  exists st',
    scanner_write false written 3%nat (bytes "abc") 3 = Some (st', - ENOMEM)
    /\ data (scanner_device st') = NULL
    /\ buffer_text st' = None
    /\ files st' = files written
    /\ (forall b, data (scanner_device written) = Ptr b 0 ->
                  cells (mem st') !! b = None)
    /\ forall g cnt wr, scanner_read st' g cnt wr = None.
Proof.
  eexists. split; [vm_compute; reflexivity|].
  apply (failed_write_loses_buffer false written 3%nat (bytes "abc") 3 _
           (- ENOMEM) (reachable_wf _ reachable_written)).
  - lia.
  - vm_compute. reflexivity.
  - vm_compute. reflexivity.
Defined.

(** ** hw5/Scanner.c: every run of one open file *)

Lemma dev_wf_exec dev c :
  dev_wf dev ->
  dev_wf (dev_exec dev c)
  /\ Scanner.separators (dev_exec dev c) = Scanner.separators dev.
Proof.
  destruct dev as [b size pos seps]. unfold dev_wf. cbn.
  intros [Hpos Hsize]. destruct c as [i len writable | i ok ubuf len];
    cbn [dev_exec].
  - unfold Scanner.dev_read. cbn.
    destruct i; [cbn; auto|].
    destruct b as [buf|]; [|cbn; auto].
    destruct (_ <=? _)%nat; [cbn; auto|].
    destruct (Scanner.read_loop _ _ _ _ _ _ _ _) as [pos' res] eqn:E.
    destruct (read_loop_bounds _ _ _ _ _ _ _ _ _ _ E) as (_ & Hle & _).
    destruct res; cbn; auto.
  - unfold Scanner.dev_write. cbn.
    destruct i; [cbn; auto|].
    destruct (negb ok); [destruct b; cbn; auto|].
    destruct (negb (len <=? _)) eqn:El; [destruct b; cbn; auto|].
    apply negb_false_iff, Z.leb_le in El.
    destruct b; cbn; rewrite length_take; (split; [split|]; [lia|lia|auto]).
Qed.

Lemma dev_wf_run cs :
  forall dev,
    dev_wf dev ->
    dev_wf (dev_run dev cs)
    /\ Scanner.separators (dev_run dev cs) = Scanner.separators dev.
Proof.
  unfold dev_run. induction cs as [|c cs IH]; intros dev Hwf; cbn [fold_left].
  - split; [exact Hwf | reflexivity].
  - destruct (dev_wf_exec dev c Hwf) as [Hwf' Hsep'].
    destruct (IH _ Hwf') as [H1 H2]. split; [exact H1 | congruence].
Qed.

(** X23.  [Scanner.c]: in every run of reads and writes on a file
    opened with [dev_open], the position stays inside the buffer, the
    recorded size is the size of the buffer that is there, and the
    separators stay the single space that [dev_open] stored -- [dev_ioctl]
    is empty, so nothing changes them. *)
Theorem dev_run_invariant (dev : Scanner.ScannerDevice) (cs : list dev_call) :
  Scanner.dev_open true = (Some dev, 0) ->
  dev_wf (dev_run dev cs)
  /\ Scanner.array_string (Scanner.separators (dev_run dev cs)) = [" "%char].
Proof.
  intros [= <-].
  destruct (dev_wf_run cs
              (Scanner.mkDev None 0 0 (" "%char :: replicate 9 NUL)))
    as [H1 H2].
  - split; simpl; auto.
  - split; [exact H1|].
    exact (eq_trans (f_equal Scanner.array_string H2) eq_refl).
Qed.

Lemma dev_run_invariant_witness :
  dev_wf (dev_run (Scanner.mkDev None 0 0 (" "%char :: replicate 9 NUL))
                  [DevWrite false true (bytes "hello world") 11;
                   DevRead false 2 1023])
  /\ Scanner.array_string
       (Scanner.separators
          (dev_run (Scanner.mkDev None 0 0 (" "%char :: replicate 9 NUL))
                   [DevWrite false true (bytes "hello world") 11;
                    DevRead false 2 1023]))
     = [" "%char].
Proof.
  apply (dev_run_invariant
           (Scanner.mkDev None 0 0 (" "%char :: replicate 9 NUL))
           [DevWrite false true (bytes "hello world") 11;
            DevRead false 2 1023]).
  reflexivity.
Defined.

(** X22.  [dev_write] of [Scanner.c] releases the old buffer
    before it allocates the new one, as [scanner_write] does: a write that
    fails with [-ENOMEM] or [-EFAULT] leaves the file without buffer, and
    every later read returns 0.  Only an interrupted write changes
    nothing. *)
Theorem dev_write_failure interrupted ok dev ubuf len dev' r :
  0 <= len ->
  Scanner.dev_write interrupted ok dev ubuf len = (dev', r) ->
  r < 0 ->
  (interrupted = true /\ r = - Scanner.ERESTARTSYS /\ dev' = dev)
  \/ (interrupted = false
      /\ (r = - ENOMEM /\ ok = false
          \/ r = - EFAULT /\ ok = true /\ Z.of_nat (length ubuf) < len)
      /\ Scanner.data_buffer dev' = None
      /\ forall l w, Scanner.dev_read false dev' l w = (dev', 0, [])).
Proof.
  intros Hlen H Hr. unfold Scanner.dev_write in H.
  destruct interrupted; [injection H as <- <-; left; auto|].
  right. split; [reflexivity|]. cbv zeta in H.
  assert (Hnone : forall d, Scanner.data_buffer d = None ->
            forall l w, Scanner.dev_read false d l w = (d, 0, [])).
  { intros d Hd l w. unfold Scanner.dev_read. rewrite Hd. reflexivity. }
  assert (Hd1 : Scanner.data_buffer
                  (match Scanner.data_buffer dev with
                   | Some _ => Scanner.mkDev None 0 0 (Scanner.separators dev)
                   | None => dev
                   end) = None)
    by (destruct (Scanner.data_buffer dev) eqn:Hb; [reflexivity | exact Hb]).
  destruct ok; cbn [negb] in H.
  - destruct (negb (len <=? _)) eqn:El.
    + injection H as <- <-. apply negb_true_iff, Z.leb_gt in El.
      split; [right; auto|]. split; [exact Hd1 | apply Hnone, Hd1].
    + injection H as <- <-. lia.
  - injection H as <- <-.
    split; [left; auto|]. split; [exact Hd1 | apply Hnone, Hd1].
Qed.

Lemma dev_write_failure_witness :
  let dev := Scanner.mkDev (Some (bytes "hello world")) 11 2
               (" "%char :: replicate 9 NUL) in
  let dev' := Scanner.mkDev None 0 0 (" "%char :: replicate 9 NUL) in
  (false = true /\ - ENOMEM = - Scanner.ERESTARTSYS /\ dev' = dev)
  \/ (false = false
      /\ (- ENOMEM = - ENOMEM /\ false = false
          \/ - ENOMEM = - EFAULT /\ false = true
             /\ Z.of_nat (length (bytes "abc")) < 3)
      /\ Scanner.data_buffer dev' = None
      /\ forall l w, Scanner.dev_read false dev' l w = (dev', 0, [])).
Proof.
  intros dev dev'.
  apply (dev_write_failure false false dev (bytes "abc") 3 dev' (- ENOMEM)).
  - lia.
  - reflexivity.
  - vm_compute. reflexivity.
Defined.
